(* ===== verification/_CoqProject ===== *)
-Q . S2P
Prelude.v
Runtime.v
Emitter.v
Gpio.v
JsString.v
Speech.v
Base64.v
Camera.v
Raspi.v
Io.v
System.v
Invariant.v
Safety.v
Liveness.v
FeederSpec.v
Client.v
Frames.v
Http.v
