(* ===== verification/Prelude.v ===== *)
(** * node-rpi-feeder: a verification development (root file)

    The program (src/) is a Node.js server for a Raspberry Pi pet feeder.
    raspi/index.js creates one EventEmitter and hands it to three hardware
    modules: gpio.js (the feeder: a servo opened for [raspi.feeder.timer] ms),
    speech.js (microphone recording streamed to Google speech recognition,
    stopped after [raspi.speech.timer] ms, whose hotwords trigger feeding)
    and camera.js (a raspicam timelapse whose frames are read, sent as base64
    and deleted).  io.js (Socket.IO) relays the emitter's events to every
    connected browser, broadcasts the status, and turns the browsers'
    [startFeeding] / [startSpeechRecording] messages into calls of the
    facade.  The components interact only through the emitter (synchronous,
    re-entrant: the hotword listener starts feeding, which emits again), the
    facade object, and the Node runtime (timers, fs, the event loop).

    ** Files, in dependency order

    - Prelude.v (this file): the monad [sew S F X A] of stateful, throwing,
      effect-producing JS code (stdpp's [MRet]/[MBind] instances), its laws,
      the [preserves]/[emits_only] combinators, [hoare P m Q] (total,
      exception-free triples with rules for reads, guards and loops), the
      [sew] hint database, the [sew_run] tactic, and shared
      list/integer/string lemmas.
    - Runtime.v: the process state [world] (one sub-record per module's
      closure variables: [gpio_st] = gpio.js's [servo]/[timer], [speech_st]
      = speech.js's [recording]/[timer] plus live streams and sox processes;
      [emitter_st] = the emitter's listener arrays; the Node runtime
      [node_st] = clock, pending timers, files, pending fs requests;
      connected sockets), the observable [effect]s, the wire messages, and
      the Node primitives [setTimeout] (with Node's clamping of delays
      outside [[1, 2^31-1]] to 1 ms) and [clearTimeout].
    - Emitter.v: Node's EventEmitter ([on] with the max-listeners warning,
      [emit] over a snapshot of the listener array, exceptions propagating),
      generic in how a listener runs; [emit] takes a call-depth fuel.
    - Gpio.v: gpio.js ([isFeeding], [startFeeder], [stopFeeder], board
      ready), as a Section over the injected [emit]; claims C1-C5.
    - JsString.v: [String.prototype.trim], [toLowerCase] and
      [Array.prototype.includes] on Latin-1 code units, as speech.js uses
      them to match hotwords; claims C6-C7.
    - Speech.v: speech.js ([isRecording], [startSpeechRecording] without a
      guard, [stopSpeechRecording], the recognize stream's data and error
      handlers); claims C8-C10.
    - Base64.v: [Buffer.toString("base64")] with shifts and masks on 24-bit
      groups, a decoder, the round trip and the length; claims C11-C12.
    - Camera.v: camera.js ([read] -> [fs.readFile] -> [frameLoaded] ->
      [fs.unlink]); claim C13.
    - Raspi.v: raspi/index.js's exported object as the [RaspiApi] interface
      (a Class) with its [RaspiLaws], implemented by gpio/speech.
    - Io.v: io.js, written against [RaspiApi] ([updateInfo], the relays, the
      hotword listener, [onSocketConnected], the socket commands), and
      [sys_emit], the emitter tied to io.js's listeners and the facade.
    - System.v: the event loop: environment [input]s, [handle] per input,
      due timers fired in order of due time then creation ([fire_timers]),
      fs answers, [step] (an uncaught exception terminates the process),
      [run] over a trace, [reachable] states; claims C14-C15.
    - Invariant.v: [sys_inv], the invariant of reachable states, preserved
      by every handler ([handle_inv]) and established at start-up; C16.
    - Safety.v: [live] (listeners of k connections, board ready, a speech
      timer comes with a recording) and [hoare live m live] for every
      operation, so no input crashes the process once the board is ready;
      the emitter's depth bound is proved never to matter; C17-C18.
    - Liveness.v: feeding always ends within the (clamped) configured
      feeder time, and the timer loop terminates whatever its fuel; C19-C20.
    - FeederSpec.v: the specification's feeding session as an abstract
      machine ([AbstractFeeder.afeed_step]: idle / feeding until a
      deadline), the abstraction [feed_abs] (the pending stopFeeder timer)
      and the event of each input ([feed_event]); the refinement theorem
      C21.
    - Client.v: the browser script public/js/main.js (button states, the
      event list, the highlighted image) driven by the messages a socket
      receives; C22-C23.
    - Frames.v: the life of a timelapse file through the fs requests
      camera.js makes; C24-C25.
    - Http.v: app.js and routes/index.js: the [app.use] stack in source
      order ([app_stack]), Express's [next]/[next(err)] walk over it
      ([dispatch]), serve-static, body-parser, the locals middleware, the
      router, the 404 layer and the error handler, and morgan's access
      line ([app_handle]); C26-C31.  It is independent of the device state:
      the HTTP server and the Socket.IO server share only the process.

    ** What the theorems show

    C1-C5: the feeder is single-flight, opens the gate and arms exactly one
    stop timer before announcing it, throws before the board is ready,
    closes and clears on stop, and keeps "feeding iff gate open iff one
    pending stop timer".  C6: a normalized transcript is exactly the
    transcript's core between leading and trailing white space, lowered.
    C7-C8: hotwords are matched by whole-string equality against the
    normalized first alternative, and a capitalized hotword never matches.
    C9-C10: [startSpeechRecording] has no guard (an overlapping start keeps
    the first sox process and its timer and overwrites [timer]), while
    [stopSpeechRecording] stops only the process held in [recording].
    C11-C13: frames are sent as base64 that decodes to the exact bytes,
    of length 4 ceil(n/3), emitted before the file is unlinked.  C14: a
    [startFeeding] before the board is ready crashes the process.  C15:
    every connection adds listeners that are never removed, so each frame
    is broadcast once per connection ever made.  C16: in every reachable
    state the listener registry is k copies of io.js's six listeners, the
    gate is open exactly while the one pending stopFeeder timer is the
    stored [timer], timer ids are unique and fresh, the speech timer
    belongs to a recording, the stopFeeder timer is due within the
    feeder's delay from now, and fs request handles are fresh.  C17: once
    the board is ready no sequence of inputs crashes the process.  C18:
    emitting with more depth than [emit_depth] changes nothing, in every
    reachable ready state.  C19: in every reachable state,
    [feeder_duration] ms later ([raspi.feeder.timer] clamped as
    [setTimeout] does) the gate is closed.  C20: the timer loop returns
    with no due timer left and more fuel changes nothing.  C21: once the
    board is ready, every input moves the feeder exactly as the
    specification's feeding session moves on that input's abstract event
    (start, time passing, nothing): gpio.js refines the spec's state
    machine.  C22: a new page's buttons show exactly the server's state
    after the connection snapshot.  C23: with k connections made, every
    page lists each feedingStarted k times.  C24: a frame read and
    unlinked successfully is gone from the camera directory.  C25: a frame
    whose read fails stays on disk and no deletion is ever requested.
    C26: every HTTP request is answered by app.js's layers (never by
    Express's final handler) with a well-formed status/body pair.  C27:
    [GET /] renders [index] with the three app locals.  C28: other
    bodiless requests get the 404 page.  C29: a malformed JSON body gets
    the 400 page without the app locals (the parsers run first).  C30: a
    missing [app.name] turns pages into 500 pages ([err.status || 500]).
    C31: static files served never have a dotfile or [".."] part.

    ** Bounds and fuel

    Times are [Z] milliseconds (Date.now() values do not fit unary [nat]).
    [emit] runs with fuel [emit_depth = 2]: the deepest synchronous chain in
    the program is hotword listener -> [startFeeder] -> [emit feedingStarted]
    -> relay listeners, which emit nothing; C18 proves that any larger
    depth gives the same run, so the bound models Node's unbounded
    recursion exactly.  [fire_timers] runs with fuel
    [1 + number of pending timers]: each iteration removes one timer and
    no callback a timer runs arms a new one, so that fuel always drains
    every due timer ([Invariant.fire_timers_run]) and C20 shows that any
    more fuel gives the same run.  The HTTP dispatch recurses on the layer
    stack and needs no fuel; body-parser's limit is 100 kb (102400 bytes).

    ** Not modelled

    Page rendering: the pug views (outside src/) are a view name plus
    [res.locals], and the page's initial button state is a parameter of
    Client.v.  In app.js, helmet's and compression's headers, cookie
    parsing, URL decoding and query strings, charset errors (415) of
    body-parser and serve-static's errors of status 500 and above.
    johnny-five, raspicam, sox and the Google client beyond the commands
    sent to them and the events received (which are [input]s); path
    normalization of [.]/[..] in camera.js's [path.join]; the logger's
    transport (log lines are effects).  The module factories' require
    lines and the [RaspiCam] constructor options are configuration, not
    behaviour.  The leak of C9 is shown for one overlapping start; a bound
    over all future inputs, and the spec's per-command status broadcast,
    which the code does not perform, are not proved. *)

From Stdlib Require Import String Ascii ZArith Lia.
From stdpp Require Import base list sets.

(** * The state / exception / output monad of the development

    JavaScript handlers mutate closure variables and module state, may throw,
    and perform observable actions (servo commands, broadcasts, log lines) in
    program order.  A computation of type [sew S F X A] takes the current
    state, and returns either an exception [inl e] or a value [inr a], the
    state reached (mutations performed before a [throw] are kept, as in JS),
    and the list of effects performed, in order. *)

Definition sew (S F X A : Type) : Type := S -> (X + A) * S * list F.

#[export] Instance sew_ret {S F X} : MRet (sew S F X) :=
  fun A a s => (inr a, s, []).

#[export] Instance sew_bind {S F X} : MBind (sew S F X) :=
  fun A B k m s =>
    match m s with
    | (inl e, s1, o1) => (inl e, s1, o1)
    | (inr a, s1, o1) =>
        match k a s1 with (r, s2, o2) => (r, s2, o1 ++ o2) end
    end.

Definition sew_get {S F X} : sew S F X S := fun s => (inr s, s, []).
Definition sew_gets {S F X A} (f : S -> A) : sew S F X A := fun s => (inr (f s), s, []).
Definition sew_modify {S F X} (f : S -> S) : sew S F X unit := fun s => (inr tt, f s, []).
Definition sew_tell {S F X} (o : F) : sew S F X unit := fun s => (inr tt, s, [o]).
Definition sew_throw {S F X A} (e : X) : sew S F X A := fun s => (inl e, s, []).

(** [if (c()) { m1 } else { m2 }] *)
Definition sew_if {S F X A} (c : sew S F X bool) (m1 m2 : sew S F X A) : sew S F X A :=
  c ≫= fun b : bool => if b then m1 else m2.

(** [for_each f l] runs [f] on the elements of [l] from left to right,
    stopping at the first exception (a JS [for] loop over an array). *)
Fixpoint for_each {S F X A} (f : A -> sew S F X unit) (l : list A) : sew S F X unit :=
  match l with
  | [] => mret tt
  | x :: l' => f x ;; for_each f l'
  end.

(** Projections of a run. *)
Definition res_of {S F X A} (r : (X + A) * S * list F) : X + A := r.1.1.
Definition st_of {S F X A} (r : (X + A) * S * list F) : S := r.1.2.
Definition out_of {S F X A} (r : (X + A) * S * list F) : list F := r.2.

Create HintDb sew discriminated.

Section sew_laws.
Context {S F X : Type}.

Lemma run_ret {A} (a : A) (s : S) : (mret a : sew S F X A) s = (inr a, s, []).
Proof. reflexivity. Qed.

Lemma run_bind {A B} (m : sew S F X A) (k : A -> sew S F X B) s :
  (m ≫= k) s =
    match m s with
    | (inl e, s1, o1) => (inl e, s1, o1)
    | (inr a, s1, o1) => match k a s1 with (r, s2, o2) => (r, s2, o1 ++ o2) end
    end.
Proof. reflexivity. Qed.

Lemma bind_ret_l {A B} (a : A) (k : A -> sew S F X B) s :
  (mret a ≫= k) s = k a s.
Proof. rewrite run_bind; simpl. by destruct (k a s) as [[??]?]. Qed.

Lemma bind_ret_r {A} (m : sew S F X A) s : (m ≫= mret) s = m s.
Proof.
  rewrite run_bind. destruct (m s) as [[[e|a] s1] o1]; simpl; [done|].
  by rewrite app_nil_r.
Qed.

Lemma bind_assoc {A B C} (m : sew S F X A) (k : A -> sew S F X B)
      (h : B -> sew S F X C) s :
  ((m ≫= k) ≫= h) s = (m ≫= fun a => k a ≫= h) s.
Proof.
  rewrite !run_bind. destruct (m s) as [[[e|a] s1] o1]; [done|].
  rewrite run_bind. destruct (k a s1) as [[[e|b] s2] o2]; [done|].
  destruct (h b s2) as [[r s3] o3]. by rewrite app_assoc.
Qed.

(** ** Invariants of computations

    [preserves I m]: every run of [m] from a state satisfying [I] ends,
    normally or by an exception, in a state satisfying [I]. *)
Definition preserves {A} (I : S -> Prop) (m : sew S F X A) : Prop :=
  forall s, I s -> I (st_of (m s)).

Lemma preserves_ret {A} I (a : A) : preserves I (mret a : sew S F X A).
Proof. by intros s Hs. Qed.

Lemma preserves_bind {A B} I (m : sew S F X A) (k : A -> sew S F X B) :
  preserves I m -> (forall a, preserves I (k a)) -> preserves I (m ≫= k).
Proof.
  intros Hm Hk s Hs. unfold st_of. rewrite run_bind.
  specialize (Hm s Hs). unfold st_of in Hm.
  destruct (m s) as [[[e|a] s1] o1]; simpl in *; [done|].
  specialize (Hk a s1 Hm). unfold st_of in Hk.
  by destruct (k a s1) as [[r s2] o2].
Qed.

Lemma preserves_get I : preserves I (sew_get : sew S F X S).
Proof. by intros s Hs. Qed.

Lemma preserves_gets {A} I (f : S -> A) : preserves I (sew_gets f : sew S F X A).
Proof. by intros s Hs. Qed.

Lemma preserves_tell I (o : F) : preserves I (sew_tell o : sew S F X unit).
Proof. by intros s Hs. Qed.

Lemma preserves_throw {A} I (e : X) : preserves I (sew_throw e : sew S F X A).
Proof. by intros s Hs. Qed.

Lemma preserves_modify I (f : S -> S) :
  (forall s, I s -> I (f s)) -> preserves I (sew_modify f : sew S F X unit).
Proof. intros Hf s Hs. by apply Hf. Qed.

Lemma preserves_if {A} I (b : bool) (m1 m2 : sew S F X A) :
  preserves I m1 -> preserves I m2 -> preserves I (if b then m1 else m2).
Proof. by destruct b. Qed.

Lemma preserves_for_each {A} I (f : A -> sew S F X unit) (l : list A) :
  (forall x, x ∈ l -> preserves I (f x)) -> preserves I (for_each f l).
Proof.
  induction l as [|x l IH]; intros Hf; simpl; [apply preserves_ret|].
  apply preserves_bind; [apply Hf; set_solver|].
  intros _. apply IH. intros y Hy. apply Hf. set_solver.
Qed.

(** A run that ends by running [e] from [s1], after effects [pre], ends
    where [e] ends. *)
Lemma st_of_tail {A} (m : sew S F X A) (e : sew S F X A) s s1 pre :
  m s = match e s1 with (r, s2, o) => (r, s2, pre ++ o) end -> st_of (m s) = st_of (e s1).
Proof. intros ->. unfold st_of. by destruct (e s1) as [[r s2] o]. Qed.

Lemma preserves_id {A} I (m : sew S F X A) : (forall s, st_of (m s) = s) -> preserves I m.
Proof. intros Hm s Hs. by rewrite Hm. Qed.

(** ** Outputs of computations

    [emits_only P m]: every effect [m] performs satisfies [P]. *)
Definition emits_only {A} (P : F -> Prop) (m : sew S F X A) : Prop :=
  forall s, Forall P (out_of (m s)).

Lemma emits_only_ret {A} P (a : A) : emits_only P (mret a : sew S F X A).
Proof. intros s. constructor. Qed.

Lemma emits_only_bind {A B} P (m : sew S F X A) (k : A -> sew S F X B) :
  emits_only P m -> (forall a, emits_only P (k a)) -> emits_only P (m ≫= k).
Proof.
  intros Hm Hk s. unfold out_of. rewrite run_bind.
  specialize (Hm s). unfold out_of in Hm.
  destruct (m s) as [[[e|a] s1] o1]; simpl in *; [done|].
  specialize (Hk a s1). unfold out_of in Hk.
  destruct (k a s1) as [[r s2] o2]; simpl in *. by apply Forall_app.
Qed.

Lemma emits_only_tell P (o : F) : P o -> emits_only P (sew_tell o : sew S F X unit).
Proof. intros Ho s. by constructor. Qed.

Lemma emits_only_for_each {A} P (f : A -> sew S F X unit) (l : list A) :
  (forall x, x ∈ l -> emits_only P (f x)) -> emits_only P (for_each f l).
Proof.
  induction l as [|x l IH]; intros Hf; simpl; [apply emits_only_ret|].
  apply emits_only_bind; [apply Hf; set_solver|].
  intros _. apply IH. intros y Hy. apply Hf. set_solver.
Qed.
(** A loop whose body returns normally without touching the state, on
    every element, returns normally without touching the state. *)
Lemma for_each_const {A} (f : A -> sew S F X unit) (l : list A) s :
  (forall x, x ∈ l -> exists o, f x s = (inr tt, s, o)) -> exists o, for_each f l s = (inr tt, s, o).
Proof.
  induction l as [|x l IH]; intros Hf; [by exists []|]. cbn [for_each]. rewrite run_bind.
  destruct (Hf x ltac:(set_solver)) as [o1 ->].
  destruct IH as [o2 ->]; [intros y Hy; apply Hf; set_solver|]. by exists (o1 ++ o2).
Qed.

(** ** Computations that do not throw

    [hoare P m Q]: from a state satisfying [P], [m] returns normally (no
    exception) in a state satisfying [Q]; a total-correctness triple. *)
Definition hoare {A} (P : S -> Prop) (m : sew S F X A) (Q : S -> Prop) : Prop :=
  forall s, P s -> (exists a, res_of (m s) = inr a) /\ Q (st_of (m s)).

Lemma hoare_ret {A} P (a : A) : hoare P (mret a : sew S F X A) P.
Proof. intros s Hs. split; [by exists a|done]. Qed.

Lemma hoare_bind {A B} P R Q (m : sew S F X A) (k : A -> sew S F X B) :
  hoare P m R -> (forall a, hoare R (k a) Q) -> hoare P (m ≫= k) Q.
Proof.
  intros Hm Hk s Hs. unfold res_of, st_of. rewrite run_bind.
  destruct (Hm s Hs) as [[a Ha] Hm']. unfold res_of, st_of in *.
  destruct (m s) as [[[e|a'] s1] o1]; simpl in *; [done|]. simplify_eq.
  destruct (Hk a s1 Hm') as [Hr Hi]. unfold res_of, st_of in *.
  by destruct (k a s1) as [[r s2] o2].
Qed.

(** Reading the state: the continuation may depend on the state read. *)
Lemma hoare_get_bind {B} P Q (k : S -> sew S F X B) :
  (forall s0, hoare (fun s => P s /\ s = s0) (k s0) Q) -> hoare P (sew_get ≫= k) Q.
Proof.
  intros Hk s Hs. unfold res_of, st_of. rewrite run_bind. cbn.
  destruct (Hk s s (conj Hs eq_refl)) as [Hr Hq]. unfold res_of, st_of in *.
  by destruct (k s s) as [[r s2] o2].
Qed.

(** [if (c()) ...] on a condition read from the state. *)
Lemma hoare_gets_if {A} P Q (f : S -> bool) (m1 m2 : sew S F X A) :
  hoare (fun s => P s /\ f s = true) m1 Q -> hoare (fun s => P s /\ f s = false) m2 Q ->
  hoare P (sew_if (sew_gets f) m1 m2) Q.
Proof.
  intros H1 H2 s Hs. unfold sew_if, res_of, st_of. rewrite run_bind. cbn.
  destruct (f s) eqn:Hf; [pose proof (H1 s (conj Hs Hf)) as Hm|pose proof (H2 s (conj Hs Hf)) as Hm];
    unfold res_of, st_of in Hm; [destruct (m1 s) as [[??]?]|destruct (m2 s) as [[??]?]]; done.
Qed.

Lemma hoare_tell P (o : F) : hoare P (sew_tell o : sew S F X unit) P.
Proof. intros s Hs. split; [by eexists|done]. Qed.

Lemma hoare_gets {A} P (f : S -> A) : hoare P (sew_gets f : sew S F X A) P.
Proof. intros s Hs. split; [by eexists|done]. Qed.

Lemma hoare_modify P Q (f : S -> S) :
  (forall s, P s -> Q (f s)) -> hoare P (sew_modify f : sew S F X unit) Q.
Proof. intros Hf s Hs. split; [by eexists|by apply Hf]. Qed.

Lemma hoare_conseq {A} P P' Q Q' (m : sew S F X A) :
  (forall s, P' s -> P s) -> (forall s, Q s -> Q' s) -> hoare P m Q -> hoare P' m Q'.
Proof. intros HP HQ Hm s Hs. destruct (Hm s (HP s Hs)). split; auto. Qed.

Lemma hoare_for_each {A} I (f : A -> sew S F X unit) (l : list A) :
  (forall x, x ∈ l -> hoare I (f x) I) -> hoare I (for_each f l) I.
Proof.
  induction l as [|x l IH]; intros Hf; simpl; [apply hoare_ret|].
  apply hoare_bind with I; [apply Hf; set_solver|].
  intros _. apply IH. intros y Hy. apply Hf. set_solver.
Qed.

(** Two loops whose bodies agree on the states [I] describes, and one of
    which keeps [I], run the same. *)
Lemma hoare_for_each_ext {A} I (g h : A -> sew S F X unit) (l : list A) :
  (forall x, x ∈ l -> hoare I (g x) I) ->
  (forall x, x ∈ l -> forall s, I s -> g x s = h x s) ->
  forall s, I s -> for_each g l s = for_each h l s.
Proof.
  induction l as [|x l IH]; intros Hg Hgh s Hs; [done|]. cbn [for_each]. rewrite !run_bind.
  rewrite <- (Hgh x ltac:(set_solver) s Hs).
  destruct (Hg x ltac:(set_solver) s Hs) as [[a Ha] Hi]. unfold res_of, st_of in *.
  destruct (g x s) as [[[e|u] s1] o1]; [done|]. simpl in *.
  rewrite (IH (fun y Hy => Hg y ltac:(set_solver)) (fun y Hy => Hgh y ltac:(set_solver)) s1 Hi).
  reflexivity.
Qed.

(** A run that ends by running [k] from [s1] after effects [pre] inherits
    [k]'s triple. *)
Lemma hoare_tail {A} P Q (m k : sew S F X A) s s1 pre :
  hoare P k Q -> P s1 ->
  m s = match k s1 with (r, s2, o) => (r, s2, pre ++ o) end ->
  (exists a, res_of (m s) = inr a) /\ Q (st_of (m s)).
Proof.
  intros Hk H1 ->. destruct (Hk s1 H1) as [Hr Hq]. unfold res_of, st_of in *.
  by destruct (k s1) as [[r s2] o].
Qed.

(** A normal return that keeps [I], of a computation that preserves [J]
    from any state, keeps [I /\ J]. *)
Lemma hoare_preserves {A} I J (m : sew S F X A) :
  hoare I m I -> preserves J m -> hoare (fun s => I s /\ J s) m (fun s => I s /\ J s).
Proof. intros Hm Hp s [Hi Hj]. destruct (Hm s Hi). split; [done|]. split; auto. Qed.
End sew_laws.

#[export] Hint Resolve hoare_ret hoare_tell hoare_gets : sew.
#[export] Hint Resolve preserves_id preserves_ret preserves_bind preserves_get preserves_gets
  preserves_tell preserves_throw preserves_if preserves_for_each : sew.
#[export] Hint Resolve emits_only_ret emits_only_bind emits_only_for_each : sew.

(** ** Shared integer lemmas *)

(** Euclidean division with a known quotient and remainder. *)
Lemma div_exact (x q d r : Z) :
  (0 < d)%Z -> (0 <= r < d)%Z -> x = (d * q + r)%Z -> (x / d = q /\ x mod d = r)%Z.
Proof.
  intros Hd Hr ->.
  split; symmetry; [apply Z.div_unique with r | apply Z.mod_unique with q]; try left; lia.
Qed.

(** ** Shared list lemmas *)

Lemma concat_replicate_single {A} (x : A) k : concat (replicate k [x]) = replicate k x.
Proof. induction k as [|k IH]; simpl; [done|]. by rewrite IH. Qed.

Lemma replicate_cons_comm {A} (x : A) k l : replicate k x ++ x :: l = x :: replicate k x ++ l.
Proof. induction k as [|k IH]; simpl; [done|]. by rewrite IH. Qed.

Lemma elem_of_concat_replicate {A} (x : A) L k : x ∈ concat (replicate k L) -> x ∈ L.
Proof. induction k as [|k IH]; simpl; [by intros ?%elem_of_nil|]. rewrite elem_of_app. tauto. Qed.

Lemma NoDup_of_map {A B} (f : A -> B) l : NoDup (map f l) -> NoDup l.
Proof.
  induction l as [|a l IH]; intros Hnd; [constructor|]. simpl in Hnd.
  apply NoDup_cons in Hnd as [Hna Hnd]. constructor; [|by apply IH].
  intros Ha. apply Hna, list_elem_of_In, in_map, list_elem_of_In, Ha.
Qed.

(** Two elements of a list with distinct images under [f] and the same image are equal. *)
Lemma NoDup_map_eq {A B} (f : A -> B) l x y :
  NoDup (map f l) -> In x l -> In y l -> f x = f y -> x = y.
Proof.
  induction l as [|a l IH]; intros Hnd Hx Hy E; [done|]. simpl in Hnd.
  apply NoDup_cons in Hnd as [Hna Hnd].
  destruct Hx as [<-|Hx], Hy as [<-|Hy]; [done| | |by apply IH].
  - exfalso. apply Hna. rewrite E. apply list_elem_of_In, in_map, Hy.
  - exfalso. apply Hna. rewrite <- E. apply list_elem_of_In, in_map, Hx.
Qed.

(** ** Shared string lemmas *)

Lemma list_ascii_of_string_of_list l : list_ascii_of_string (string_of_list_ascii l) = l.
Proof. induction l as [|c l IH]; simpl; [done|]. by rewrite IH. Qed.

Lemma length_string_of_list_ascii l : String.length (string_of_list_ascii l) = length l.
Proof. induction l as [|c l IH]; simpl; [done|]. by rewrite IH. Qed.

(** [sew_run] unfolds the monad's plumbing so that a concrete run computes. *)
Ltac sew_run :=
  cbv [mbind mret sew_bind sew_ret sew_get sew_gets sew_modify sew_tell sew_throw
       st_of res_of out_of] in *; simpl in *.
