(* ===== verification/Runtime.v ===== *)
(** * Runtime: the Node.js process the modules run in

    The data the modules share (event payloads, Socket.IO message bodies,
    configuration, observable effects), the state of the process (one
    sub-record per module holding that module's closure variables, plus the
    Node runtime: clock, pending timers, files, pending fs requests), the
    monad [M] every handler is written in, and the Node primitives the
    modules call: [Date.now], [setTimeout], [clearTimeout], [logger]. *)

From Stdlib Require Import String ZArith.
From stdpp Require Import base list gmap strings.
From S2P Require Import Prelude.

Open Scope string_scope.
Open Scope list_scope.

(** ** Exceptions that can escape a handler *)
Inductive exn :=
| TypeError (msg : string)
| RangeError (msg : string).

#[export] Instance exn_eq_dec : EqDecision exn.
Proof. solve_decision. Qed.

(** ** Configuration: the keys the modules read with [config.get] *)
Record config := mkConfig {
  feeder_timer : Z;                (** [raspi.feeder.timer] (ms) *)
  speech_timer : Z;                (** [raspi.speech.timer] (ms) *)
  speech_hotwords : list string;   (** [raspi.speech.hotwords] (an array) *)
  speech_device : string;          (** [raspi.speech.device] *)
  camera_outputDirectory : string; (** [raspi.camera.outputDirectory] *)
}.

(** ** Payload of an event of the raspi emitter:
    [{message, status}], and [{cameraImage, message, status}] for frames. *)
Record payload := mkPayload {
  p_cameraImage : option string;
  p_message : string;
  p_status : string;
}.

Definition msg_payload (message status : string) : payload :=
  mkPayload None message status.

(** ** Body of a Socket.IO message sent with [io.emit] *)
Inductive wire_body :=
| InfoBody (date : Z) (isFeedingPossible isRecordingPossible : bool)
| EventBody (date : Z) (message status : string)
| ImageBody (date : Z) (cameraImage : option string) (message status : string).

#[export] Instance wire_body_eq_dec : EqDecision wire_body.
Proof. solve_decision. Qed.

(** ** Log levels of [node-rpi-feeder/logger] *)
Inductive level := LInfo | LError.

#[export] Instance level_eq_dec : EqDecision level.
Proof. solve_decision. Qed.

(** ** Observable effects, in the order the program performs them *)
Inductive effect :=
| ELog (lvl : level) (msg : string)
  (** a johnny-five servo moved to [deg] degrees *)
| EServoTo (pin : string) (deg : nat)
  (** [io.emit(tag, body)]: one message to each socket of [to] *)
| EBroadcast (to : list nat) (tag : string) (body : wire_body)
  (** [recorder.record(...)] spawned sox process [rid] *)
| ERecordStart (rid : nat) (device : string) (rate : Z)
  (** [recording.stop()] on process [rid] *)
| ERecordStop (rid : nat)
| ECameraStart
  (** [fs.readFile] / [fs.unlink] issued as request [req] *)
| EFsRead (req : nat) (path : string)
| EFsUnlink (req : nat) (path : string)
  (** [process.emitWarning] of [events.js]: [MaxListenersExceededWarning] *)
| EMaxListenersWarning (name : string) (count : nat).

#[export] Instance effect_eq_dec : EqDecision effect.
Proof. solve_decision. Qed.

(** ** Closures handed to the Node runtime, defunctionalized *)

(** Timer callbacks: [() => { stopFeeder(); }] of gpio.js and
    [() => { stopSpeechRecording(); }] of speech.js. *)
Inductive callback := StopFeederCb | StopSpeechCb.

#[export] Instance callback_eq_dec : EqDecision callback.
Proof. solve_decision. Qed.

(** A pending [Timeout] object. *)
Record timeout := mkTimeout { t_id : nat; t_due : Z; t_cb : callback }.

(** Pending [fs] requests of camera.js with the path their callback closes over. *)
Inductive fs_op := ReadOp (path : string) | UnlinkOp (path : string).

(** Listeners io.js registers on the raspi emitter:
    [RelayEvent tag] is [({message, status}) => { io.emit(tag, ...); updateInfo(); }],
    [RelayImage] the [frameLoaded] relay, [OnRecognized] is
    [() => { raspi.startFeeder(); }]. *)
Inductive listener :=
| RelayEvent (tag : string)
| RelayImage
| OnRecognized.

#[export] Instance listener_eq_dec : EqDecision listener.
Proof. solve_decision. Qed.

(** ** Process state *)

(** Node runtime: [Date.now()], pending timers in creation order, the
    handle counter, the files of the camera directory, pending fs requests. *)
Record node_st := mkNode {
  now : Z;
  timers : list timeout;
  next_id : nat;
  files : gmap string (list Byte.byte);
  fs_pending : list (nat * fs_op);
}.

(** A johnny-five [Servo]: its pin and its position in degrees. *)
Record servo_state := mkServo { s_pin : string; s_pos : nat }.

(** gpio.js closure: [let servo; let timer;] ([timer] holds the handle of the
    [Timeout] object, [None] for [undefined]/[null]). *)
Record gpio_st := mkGpio { servo_v : option servo_state; feed_timer : option nat }.

(** speech.js closure: [let recording; let timer;], and the resources its
    handlers keep alive: the recognize streams created so far (each keeps
    its [data]/[error] handlers) and the sox processes still running. *)
Record speech_st := mkSpeech {
  recording_v : option nat;
  speech_timer_v : option nat;
  streams : list nat;
  recorders : list nat;
}.

(** The raspi emitter ([new RaspiEmitter()] of raspi/index.js): its
    listeners as [(event name, listener)] pairs in registration order, and
    the event names whose listener array has been flagged [warned]. *)
Record emitter_st := mkEmitter {
  registry : list (string * listener);
  warned : list string;
}.

(** The whole process. *)
Record world := mkWorld {
  cfg : config;
  node : node_st;
  gpio : gpio_st;
  speech : speech_st;
  camera_started : bool;
  emitter : emitter_st;
  sockets : list nat;                     (** connected Socket.IO clients *)
}.

Definition set_node (n : node_st) (w : world) : world :=
  mkWorld (cfg w) n (gpio w) (speech w) (camera_started w) (emitter w) (sockets w).
Definition set_gpio (g : gpio_st) (w : world) : world :=
  mkWorld (cfg w) (node w) g (speech w) (camera_started w) (emitter w) (sockets w).
Definition set_speech (sp : speech_st) (w : world) : world :=
  mkWorld (cfg w) (node w) (gpio w) sp (camera_started w) (emitter w) (sockets w).
Definition set_camera_started (b : bool) (w : world) : world :=
  mkWorld (cfg w) (node w) (gpio w) (speech w) b (emitter w) (sockets w).
Definition set_emitter (e : emitter_st) (w : world) : world :=
  mkWorld (cfg w) (node w) (gpio w) (speech w) (camera_started w) e (sockets w).
Definition set_sockets (ss : list nat) (w : world) : world :=
  mkWorld (cfg w) (node w) (gpio w) (speech w) (camera_started w) (emitter w) ss.

(** The monad of handlers. *)
Abbreviation M := (sew world effect exn).

(** ** Node primitives *)

(** The current process state, monomorphic for inference. *)
Definition getw : M world := sew_get.

Definition log (lvl : level) (msg : string) : M unit := sew_tell (ELog lvl msg).

(** [Date.now()] *)
Definition Date_now : M Z := sew_gets (fun w => now (node w)).

(** A fresh handle (timer, process, stream, fs request).  State updates
    are read-modify-write on the current state, as JS mutates in place. *)
Definition fresh_handle : M nat :=
  w ← getw;
  sew_modify (fun w' => let n := node w' in
                        set_node (mkNode (now n) (timers n) (S (next_id n)) (files n) (fs_pending n)) w');;
  mret (next_id (node w)).

(** Node's [TIMEOUT_MAX] (2^31 - 1), and the delay [setTimeout] really uses:
    a delay outside [[1, TIMEOUT_MAX]] is set to 1 ms (lib/internal/timers.js). *)
Definition TIMEOUT_MAX : Z := 2147483647.

Definition timer_delay (after : Z) : Z :=
  if ((1 <=? after) && (after <=? TIMEOUT_MAX))%Z then after else 1%Z.

Definition add_timer (t : timeout) (n : node_st) : node_st :=
  mkNode (now n) (timers n ++ [t]) (next_id n) (files n) (fs_pending n).

Definition remove_timer (id : nat) (n : node_st) : node_st :=
  mkNode (now n) (filter (fun t => t_id t ≠ id) (timers n)) (next_id n) (files n) (fs_pending n).

(** [setTimeout(cb, after)]: returns the new [Timeout]'s handle. *)
Definition setTimeout (cb : callback) (after : Z) : M nat :=
  id ← fresh_handle;
  w ← getw;
  sew_modify (fun w' => set_node (add_timer (mkTimeout id (now (node w) + timer_delay after)%Z cb) (node w')) w');;
  mret id.

(** [clearTimeout(t)]; [clearTimeout(null)] does nothing. *)
Definition clearTimeout (t : option nat) : M unit :=
  match t with
  | None => mret tt
  | Some id => sew_modify (fun w' => set_node (remove_timer id (node w')) w')
  end.

(** Pending timers with a given callback. *)
Definition pending_with (cb : callback) (w : world) : list timeout :=
  filter (fun t => t_cb t = cb) (timers (node w)).

Definition timer_pending (id : nat) (w : world) : Prop :=
  Exists (fun t => t_id t = id) (timers (node w)).

(** ** Lemmas on the runtime primitives *)

Definition bump (n : node_st) : node_st :=
  mkNode (now n) (timers n) (S (next_id n)) (files n) (fs_pending n).

Lemma fresh_handle_run w :
  fresh_handle w = (inr (next_id (node w)), set_node (bump (node w)) w, []).
Proof. reflexivity. Qed.

Lemma setTimeout_run cb after w :
  setTimeout cb after w =
    (inr (next_id (node w)),
     set_node (add_timer (mkTimeout (next_id (node w)) (now (node w) + timer_delay after)%Z cb)
                         (bump (node w))) w, []).
Proof. reflexivity. Qed.

Lemma clearTimeout_run t w :
  clearTimeout t w =
    (inr tt, match t with None => w | Some id => set_node (remove_timer id (node w)) w end, []).
Proof. destruct t; reflexivity. Qed.

Lemma pending_with_add_timer cb t n w :
  pending_with cb (set_node (add_timer t n) w) =
    filter (fun t' => t_cb t' = cb) (timers n) ++ (if decide (t_cb t = cb) then [t] else []).
Proof.
  unfold pending_with, add_timer; simpl. by rewrite filter_app.
Qed.

Lemma pending_with_remove_timer cb id w :
  pending_with cb (set_node (remove_timer id (node w)) w) =
    filter (fun t => t_id t ≠ id) (pending_with cb w).
Proof.
  unfold pending_with, remove_timer; simpl. rewrite !list_filter_filter.
  apply list_filter_iff. tauto.
Qed.

(** Removing the only id a list of timers carries empties it. *)
Lemma filter_id_singleton (ts : list timeout) id :
  map t_id ts = [id] -> filter (fun t => t_id t ≠ id) ts = [].
Proof.
  destruct ts as [|t [|t' ts]]; simpl; intros H; try discriminate.
  injection H as Ht. rewrite filter_cons_False; [done|]. by intros [].
Qed.

Create Rewrite HintDb runtime.
#[export] Hint Rewrite fresh_handle_run setTimeout_run clearTimeout_run : runtime.
#[export] Hint Rewrite pending_with_add_timer pending_with_remove_timer : runtime.

(** [timer_delay] is the configured delay when it is in Node's range, and 1 ms otherwise. *)
Lemma timer_delay_in_range after :
  (1 <= after <= TIMEOUT_MAX)%Z -> timer_delay after = after.
Proof.
  intros [H1 H2]. unfold timer_delay.
  apply Z.leb_le in H1, H2. by rewrite H1, H2.
Qed.

Lemma timer_delay_out_of_range after :
  (after < 1 \/ TIMEOUT_MAX < after)%Z -> timer_delay after = 1%Z.
Proof.
  intros H. unfold timer_delay.
  destruct (Z.leb_spec 1 after), (Z.leb_spec after TIMEOUT_MAX); simpl; auto; lia.
Qed.

Lemma timer_delay_bounds after : (1 <= timer_delay after <= TIMEOUT_MAX)%Z.
Proof.
  unfold timer_delay, TIMEOUT_MAX. destruct (_ && _) eqn:E; [|lia].
  apply andb_true_iff in E as [E1 E2]. apply Z.leb_le in E1, E2. lia.
Qed.

(** ** The process when the modules have been loaded

    Closure variables start [undefined]; no timer, file request, listener or
    socket exists yet; the clock reads [t0]. *)
Definition init_world (c : config) (t0 : Z) : world :=
  mkWorld c (mkNode t0 [] 0 ∅ []) (mkGpio None None) (mkSpeech None None [] [])
          false (mkEmitter [] []) [].

(** A configuration used by the concrete runs of the development. *)
Definition sample_config : config :=
  mkConfig 5000 10000 ["dar comida"; "comida"] "plughw:1,0" "/home/pi/images".
