(* ===== verification/Emitter.v ===== *)
(** * Emitter: the raspi [EventEmitter] (raspi/index.js, Node's lib/events.js)

    raspi/index.js creates one [RaspiEmitter] (a plain [EventEmitter]) and
    hands it to camera.js, gpio.js and speech.js, which [emit] on it, while
    io.js registers listeners with [on].  The registry is string-keyed; the
    listeners of one name are called synchronously, in registration order,
    over a snapshot of the array taken when [emit] starts; an exception
    thrown by a listener propagates to the emitter's caller and the
    remaining listeners are not called.  Because a listener may [emit] again
    (the [speechRecordingRecognized] listener starts feeding, which emits
    [feedingStarted]), [emit] takes a fuel standing for the call stack; the
    fuel the system uses is shown enough in System.v. *)

From Stdlib Require Import String.
From stdpp Require Import base list strings.
From S2P Require Import Prelude Runtime.

Open Scope string_scope.
Open Scope list_scope.

(** [events.defaultMaxListeners] *)
Definition defaultMaxListeners : nat := 10.

(** The listener array of one event name, in registration order. *)
Definition listeners_of (name : string) (reg : list (string * listener)) : list listener :=
  map snd (filter (fun e => e.1 = name) reg).

(** [emitter.on(name, l)] ([_addListener]): append [l] to the array of
    [name]; when the array grows beyond [defaultMaxListeners] and is not yet
    flagged, flag it and emit a [MaxListenersExceededWarning]. *)
Definition on (name : string) (l : listener) : M unit :=
  w ← getw;
  let e := emitter w in
  let reg' := registry e ++ [(name, l)] in
  let n := length (listeners_of name reg') in
  if decide (defaultMaxListeners < n /\ name ∉ warned e) then
    sew_modify (set_emitter (mkEmitter reg' (name :: warned e)));;
    sew_tell (EMaxListenersWarning name n)
  else sew_modify (set_emitter (mkEmitter reg' (warned e))).

Section Emit.
(** How a listener runs, given the [emit] it may call back into. *)
Variable call : (string -> payload -> M unit) -> listener -> payload -> M unit.

(** [emitter.emit(name, p)] *)
Fixpoint emit (fuel : nat) (name : string) (p : payload) : M unit :=
  match fuel with
  | O => sew_throw (RangeError "Maximum call stack size exceeded")
  | S f =>
      w ← getw;
      for_each (fun l => call (emit f) l p) (listeners_of name (registry (emitter w)))
  end.
End Emit.

(** An emitter with no listener registered: [emit] returns at once. *)
Definition no_listeners : string -> payload -> M unit := fun _ _ => mret tt.
