(* ===== verification/Gpio.v ===== *)
(** * Gpio: the feeder (src/raspi/gpio.js)

    gpio.js keeps two closure variables, [servo] (the johnny-five servo,
    [undefined] until the board is ready) and [timer] (the [Timeout] of the
    running feeding, [null] when idle).  [isFeeding] is
    [timer instanceof Timeout]; [startFeeder] opens the gate ([servo.max()]),
    arms a timer that calls [stopFeeder] after [raspi.feeder.timer] ms and
    emits [feedingStarted]; [stopFeeder] closes the gate ([servo.min()]),
    clears the timer and emits [feedingStopped].  Both are guarded by
    [isFeeding].  The module receives the emitter from raspi/index.js: here
    it is the Section variable [emit]. *)

From Stdlib Require Import String ZArith.
From stdpp Require Import base list strings.
From S2P Require Import Prelude Runtime Emitter.

Open Scope string_scope.
Open Scope list_scope.

(** johnny-five's default servo range is [[0, 180]]: [max()] moves to 180,
    [min()] to 0. *)
Definition servo_range_max : nat := 180.
Definition servo_range_min : nat := 0.

(** [timer instanceof Timeout] *)
Definition feeding (w : world) : bool :=
  match feed_timer (gpio w) with Some _ => true | None => false end.

Definition set_feed_timer (t : option nat) (w : world) : world :=
  set_gpio (mkGpio (servo_v (gpio w)) t) w.

Section Gpio.
Variable emit : string -> payload -> M unit.

(** [isFeeding()] *)
Definition isFeeding : M bool := sew_gets feeding.

(** [servo.max()] / [servo.min()]: move the servo, or throw the
    [TypeError] of a method call on [undefined] before the board is ready. *)
Definition servo_to (method : string) (deg : nat) : M unit :=
  w ← getw;
  match servo_v (gpio w) with
  | None =>
      sew_throw (TypeError ("Cannot read properties of undefined (reading '" ++ method ++ "')")%string)
  | Some s =>
      sew_modify (set_gpio (mkGpio (Some (mkServo (s_pin s) deg)) (feed_timer (gpio w))));;
      sew_tell (EServoTo (s_pin s) deg)
  end.

(** [stopFeeder()] *)
Definition stopFeeder : M unit :=
  sew_if isFeeding
    (servo_to "min" servo_range_min;;
    w ← getw;
    clearTimeout (feed_timer (gpio w));;
    sew_modify (set_feed_timer None);;
    log LInfo "Feeding stopped";;
    emit "feedingStopped" (msg_payload "Feeding stopped" "success"))
    (mret tt).

(** [startFeeder()] *)
Definition startFeeder : M unit :=
  sew_if isFeeding
    (mret tt)
    (servo_to "max" servo_range_max;;
    w ← getw;
    t ← setTimeout StopFeederCb (feeder_timer (cfg w));
    sew_modify (set_feed_timer (Some t));;
    log LInfo "Feeding started";;
    emit "feedingStarted" (msg_payload "Feeding started" "success")).

(** [board.on("ready", ...)]: [servo = new five.Servo({ pin: "GPIO12", startAt: 0 })]. *)
Definition on_board_ready : M unit :=
  sew_modify (fun w => set_gpio (mkGpio (Some (mkServo "GPIO12" 0)) (feed_timer (gpio w))) w);;
  sew_tell (EServoTo "GPIO12" 0);;
  log LInfo "Raspi GPIO support detected".
End Gpio.

(** ** The states [startFeeder] and [stopFeeder] hand to the emitter *)

(** Gate opened with servo [s], a fresh [StopFeederCb] timer due
    [timer_delay raspi.feeder.timer] ms from now, [timer] set to it. *)
Definition opened (w : world) (s : servo_state) : world :=
  let id := next_id (node w) in
  set_feed_timer (Some id)
    (set_node (add_timer (mkTimeout id (now (node w) + timer_delay (feeder_timer (cfg w)))%Z StopFeederCb)
                         (bump (node w)))
       (set_gpio (mkGpio (Some (mkServo (s_pin s) servo_range_max)) None) w)).

(** Gate closed with servo [s], timer [t] cleared, [timer] reset to [null]. *)
Definition closed (w : world) (s : servo_state) (t : nat) : world :=
  set_gpio (mkGpio (Some (mkServo (s_pin s) servo_range_min)) None)
    (set_node (remove_timer t (node w)) w).

(** The gpio invariant: feeding iff the gate is open, and exactly the
    timer held in [timer] is a pending [stopFeeder] timer. *)
Definition gpio_inv (w : world) : Prop :=
  match feed_timer (gpio w) with
  | Some t =>
      (exists pin, servo_v (gpio w) = Some (mkServo pin servo_range_max)) /\
      map t_id (pending_with StopFeederCb w) = [t]
  | None =>
      (forall s, servo_v (gpio w) = Some s -> s_pos s = servo_range_min) /\
      pending_with StopFeederCb w = []
  end.

Section GpioRuns.
Variable emit : string -> payload -> M unit.

Lemma startFeeder_run_idle w s :
  feed_timer (gpio w) = None -> servo_v (gpio w) = Some s ->
  startFeeder emit w =
    match emit "feedingStarted" (msg_payload "Feeding started" "success") (opened w s) with
    | (r, w2, o) => (r, w2, [EServoTo (s_pin s) servo_range_max; ELog LInfo "Feeding started"] ++ o)
    end.
Proof.
  intros H1 H2. unfold startFeeder, sew_if, isFeeding, servo_to, feeding, log.
  sew_run. rewrite H1; simpl. rewrite H2; simpl.
  unfold opened; rewrite H1.
  by destruct (emit _ _ _) as [[r w2] o].
Qed.

Lemma stopFeeder_run_feeding w s t :
  feed_timer (gpio w) = Some t -> servo_v (gpio w) = Some s ->
  stopFeeder emit w =
    match emit "feedingStopped" (msg_payload "Feeding stopped" "success") (closed w s t) with
    | (r, w2, o) => (r, w2, [EServoTo (s_pin s) servo_range_min; ELog LInfo "Feeding stopped"] ++ o)
    end.
Proof.
  intros H1 H2. unfold stopFeeder, sew_if, isFeeding, servo_to, feeding, log.
  sew_run. rewrite H1; simpl. rewrite H2; simpl. rewrite H1; simpl.
  by destruct (emit _ _ _) as [[r w2] o].
Qed.

Lemma startFeeder_run_busy w :
  feeding w = true -> startFeeder emit w = (inr tt, w, []).
Proof. intros H. unfold startFeeder, sew_if, isFeeding. sew_run. by rewrite H. Qed.

Lemma startFeeder_run_not_ready w :
  feed_timer (gpio w) = None -> servo_v (gpio w) = None ->
  startFeeder emit w = (inl (TypeError "Cannot read properties of undefined (reading 'max')"), w, []).
Proof.
  intros H1 H2. unfold startFeeder, sew_if, isFeeding, servo_to, feeding.
  sew_run. rewrite H1; simpl. by rewrite H2.
Qed.

Lemma stopFeeder_run_idle w :
  feeding w = false -> stopFeeder emit w = (inr tt, w, []).
Proof. intros H. unfold stopFeeder, sew_if, isFeeding. sew_run. by rewrite H. Qed.
End GpioRuns.

Lemma feeding_opened w s : feeding (opened w s) = true.
Proof. reflexivity. Qed.

Lemma feeding_closed w s t : feeding (closed w s t) = false.
Proof. reflexivity. Qed.

Lemma gpio_inv_opened w s :
  gpio_inv w -> feed_timer (gpio w) = None -> gpio_inv (opened w s).
Proof.
  unfold gpio_inv. intros Hinv H. rewrite H in Hinv. destruct Hinv as [_ Hp].
  simpl. split; [by eexists|].
  unfold pending_with in *; simpl. rewrite filter_app, Hp. simpl. by rewrite filter_cons_True.
Qed.

Lemma gpio_inv_closed w s t :
  gpio_inv w -> feed_timer (gpio w) = Some t -> gpio_inv (closed w s t).
Proof.
  unfold gpio_inv. intros Hinv H. rewrite H in Hinv. destruct Hinv as [_ Hp].
  simpl. split; [intros ? [= <-]; done|].
  rewrite <- (filter_id_singleton _ _ Hp). by rewrite <- pending_with_remove_timer.
Qed.

(** ** Properties of the feeder *)

Section GpioProps.
Variable emit : string -> payload -> M unit.

(** C1. Single flight: while feeding, [startFeeder] does nothing: no servo
    command, no new timer, no event, no state change. *)
Theorem startFeeder_single_flight w :
  feeding w = true -> startFeeder emit w = (inr tt, w, []).
Proof. intros H. unfold startFeeder, sew_if, isFeeding. sew_run. by rewrite H. Qed.

(** C2. From idle with the board ready, [startFeeder] opens the gate
    (servo to 180 degrees), arms one [stopFeeder] timer due
    [timer_delay raspi.feeder.timer] ms from now, stores it in [timer],
    logs, and only then emits [feedingStarted]. *)
Theorem startFeeder_opens_gate w s :
  feed_timer (gpio w) = None -> servo_v (gpio w) = Some s ->
  exists w1,
    startFeeder emit w =
      match emit "feedingStarted" (msg_payload "Feeding started" "success") w1 with
      | (r, w2, o) => (r, w2, [EServoTo (s_pin s) servo_range_max; ELog LInfo "Feeding started"] ++ o)
      end /\
    servo_v (gpio w1) = Some (mkServo (s_pin s) servo_range_max) /\
    feed_timer (gpio w1) = Some (next_id (node w)) /\
    timers (node w1) =
      timers (node w) ++
        [mkTimeout (next_id (node w)) (now (node w) + timer_delay (feeder_timer (cfg w)))%Z StopFeederCb].
Proof.
  intros H1 H2. exists (opened w s).
  split; [by apply startFeeder_run_idle|]. done.
Qed.

(** C3. Before the board's [ready] event ([servo] still [undefined]),
    [startFeeder] throws a [TypeError] at [servo.max()] and changes
    nothing: no timer, no event. *)
Theorem startFeeder_board_not_ready w :
  feed_timer (gpio w) = None -> servo_v (gpio w) = None ->
  startFeeder emit w =
    (inl (TypeError "Cannot read properties of undefined (reading 'max')"), w, []).
Proof.
  intros H1 H2. unfold startFeeder, sew_if, isFeeding, servo_to, feeding.
  sew_run. rewrite H1; simpl. by rewrite H2.
Qed.

(** C4. [stopFeeder] while feeding closes the gate (servo to 0 degrees),
    clears the timer, resets [timer] and then emits [feedingStopped];
    while idle it does nothing (no duplicate [feedingStopped]). *)
Theorem stopFeeder_spec w :
  (feeding w = false -> stopFeeder emit w = (inr tt, w, [])) /\
  (forall s t, feed_timer (gpio w) = Some t -> servo_v (gpio w) = Some s ->
    exists w1,
      stopFeeder emit w =
        match emit "feedingStopped" (msg_payload "Feeding stopped" "success") w1 with
        | (r, w2, o) => (r, w2, [EServoTo (s_pin s) servo_range_min; ELog LInfo "Feeding stopped"] ++ o)
        end /\
      servo_v (gpio w1) = Some (mkServo (s_pin s) servo_range_min) /\
      feed_timer (gpio w1) = None /\
      timers (node w1) = filter (fun x => t_id x ≠ t) (timers (node w))).
Proof.
  split; [apply stopFeeder_run_idle|].
  intros s t H1 H2. exists (closed w s t).
  split; [by apply stopFeeder_run_feeding|]. done.
Qed.

Hypothesis emit_inv : forall name p, preserves gpio_inv (emit name p).

(** C5. The gpio invariant (feeding iff the gate is open and exactly one
    [stopFeeder] timer is pending) is preserved by [startFeeder] and
    [stopFeeder], whatever listeners run, provided they preserve it. *)
Theorem gpio_ops_preserve_inv :
  preserves gpio_inv (startFeeder emit) /\ preserves gpio_inv (stopFeeder emit).
Proof.
  split; intros w Hw.
  - destruct (feed_timer (gpio w)) as [t|] eqn:Ht.
    + by rewrite startFeeder_run_busy by (unfold feeding; by rewrite Ht).
    + destruct (servo_v (gpio w)) as [s|] eqn:Hs.
      * rewrite (startFeeder_run_idle _ _ _ Ht Hs). unfold st_of.
        pose proof (emit_inv "feedingStarted" (msg_payload "Feeding started" "success")
                      _ (gpio_inv_opened w s Hw Ht)) as He.
        unfold st_of in He. by destruct (emit _ _ _) as [[r w2] o].
      * by rewrite startFeeder_run_not_ready.
  - destruct (feed_timer (gpio w)) as [t|] eqn:Ht.
    + pose proof Hw as Hw'. unfold gpio_inv in Hw'. rewrite Ht in Hw'.
      destruct Hw' as [[pin Hs] _].
      rewrite (stopFeeder_run_feeding _ _ _ _ Ht Hs). unfold st_of.
      pose proof (emit_inv "feedingStopped" (msg_payload "Feeding stopped" "success")
                    _ (gpio_inv_closed w (mkServo pin servo_range_max) t Hw Ht)) as He.
      unfold st_of in He. by destruct (emit _ _ _) as [[r w2] o].
    + by rewrite stopFeeder_run_idle by (unfold feeding; by rewrite Ht).
Qed.
End GpioProps.

(** ** Concrete runs *)

(** The feeder after the board's [ready] event. *)
Definition w_ready : world := st_of (on_board_ready (init_world sample_config 0)).
Definition w_feeding : world := st_of (startFeeder no_listeners w_ready).

Lemma startFeeder_single_flight_witness :
  feeding w_feeding = true /\ startFeeder no_listeners w_feeding = (inr tt, w_feeding, []).
Proof. split; [reflexivity|]. apply startFeeder_single_flight. reflexivity. Defined.

Lemma startFeeder_opens_gate_witness :
  exists w1,
    startFeeder no_listeners w_ready =
      match no_listeners "feedingStarted" (msg_payload "Feeding started" "success") w1 with
      | (r, w2, o) => (r, w2, [EServoTo "GPIO12" servo_range_max; ELog LInfo "Feeding started"] ++ o)
      end /\
    servo_v (gpio w1) = Some (mkServo "GPIO12" servo_range_max) /\
    feed_timer (gpio w1) = Some 0 /\
    timers (node w1) = [mkTimeout 0 5000%Z StopFeederCb].
Proof.
  apply (startFeeder_opens_gate no_listeners w_ready (mkServo "GPIO12" 0)); reflexivity.
Defined.

Lemma startFeeder_board_not_ready_witness :
  startFeeder no_listeners (init_world sample_config 0) =
    (inl (TypeError "Cannot read properties of undefined (reading 'max')"), init_world sample_config 0, []).
Proof. apply startFeeder_board_not_ready; reflexivity. Defined.

Lemma stopFeeder_spec_witness :
  stopFeeder no_listeners w_ready = (inr tt, w_ready, []) /\
  exists w1,
    stopFeeder no_listeners w_feeding =
      match no_listeners "feedingStopped" (msg_payload "Feeding stopped" "success") w1 with
      | (r, w2, o) => (r, w2, [EServoTo "GPIO12" servo_range_min; ELog LInfo "Feeding stopped"] ++ o)
      end /\
    servo_v (gpio w1) = Some (mkServo "GPIO12" servo_range_min) /\
    feed_timer (gpio w1) = None /\
    timers (node w1) = [].
Proof.
  destruct (stopFeeder_spec no_listeners w_ready) as [H0 _].
  destruct (stopFeeder_spec no_listeners w_feeding) as [_ H1].
  split; [apply H0; reflexivity|].
  apply (H1 (mkServo "GPIO12" servo_range_max) 0); reflexivity.
Defined.

Lemma gpio_ops_preserve_inv_witness :
  gpio_inv w_ready /\ gpio_inv (st_of (startFeeder no_listeners w_ready)) /\
  gpio_inv (st_of (stopFeeder no_listeners w_feeding)).
Proof.
  assert (Hr : gpio_inv w_ready).
  { split; [intros s [= <-]; reflexivity | reflexivity]. }
  destruct (gpio_ops_preserve_inv no_listeners (fun _ _ => preserves_ret _ _)) as [H1 H2].
  split; [exact Hr|]. split; [exact (H1 w_ready Hr)|].
  apply H2. exact (H1 w_ready Hr).
Defined.
