(* ===== verification/JsString.v ===== *)
(** * JsString: the string built-ins speech.js applies to transcripts

    speech.js normalizes a transcript with [transcript.trim().toLowerCase()]
    (line 110) and matches it with [hotwords.includes(transcription)]
    (line 113).  Strings are sequences of Latin-1 code units (Rocq's
    [ascii] read as a byte), which covers the pt-PT transcripts the
    recognizer is configured for.  For these code units, ECMAScript's
    WhiteSpace and LineTerminator set is TAB, LF, VT, FF, CR, SPACE and
    NO-BREAK SPACE (0xA0), and [toLowerCase] maps A-Z and the Latin-1
    capitals 0xC0-0xDE (except 0xD7, the multiplication sign) 32 code points
    down. *)

From Stdlib Require Import String Ascii.
From stdpp Require Import base list.
From S2P Require Import Prelude.

Open Scope string_scope.

Open Scope list_scope.

(** ECMAScript WhiteSpace or LineTerminator, on Latin-1 code units. *)
Definition is_js_space (c : ascii) : bool :=
  let n := nat_of_ascii c in
  (Nat.eqb n 9 || Nat.eqb n 10 || Nat.eqb n 11 || Nat.eqb n 12 || Nat.eqb n 13 ||
   Nat.eqb n 32 || Nat.eqb n 160)%bool.

(** Code units [toLowerCase] changes. *)
Definition is_js_upper (c : ascii) : bool :=
  let n := nat_of_ascii c in
  ((Nat.leb 65 n && Nat.leb n 90) || (Nat.leb 192 n && Nat.leb n 222 && negb (Nat.eqb n 215)))%bool.

Definition js_lower_char (c : ascii) : ascii :=
  if is_js_upper c then ascii_of_nat (nat_of_ascii c + 32) else c.

Fixpoint drop_spaces (l : list ascii) : list ascii :=
  match l with
  | [] => []
  | c :: l' => if is_js_space c then drop_spaces l' else l
  end.

(** [String.prototype.trim] *)
Definition js_trim (s : string) : string :=
  string_of_list_ascii (rev (drop_spaces (rev (drop_spaces (list_ascii_of_string s))))).

(** [String.prototype.toLowerCase] *)
Definition js_toLowerCase (s : string) : string :=
  string_of_list_ascii (map js_lower_char (list_ascii_of_string s)).

(** [transcript.trim().toLowerCase()] *)
Definition normalize (s : string) : string := js_toLowerCase (js_trim s).

(** [hotwords.includes(t)] on an array of strings: SameValueZero, that is
    equality of the strings, element by element. *)
Definition js_includes (hotwords : list string) (t : string) : bool :=
  existsb (String.eqb t) hotwords.

(** ** Lemmas *)

Lemma drop_spaces_idem l : drop_spaces (drop_spaces l) = drop_spaces l.
Proof.
  induction l as [|c l IH]; simpl; [done|].
  destruct (is_js_space c) eqn:E; [done|]. simpl. by rewrite E.
Qed.

Lemma drop_spaces_head l c l' : drop_spaces l = c :: l' -> is_js_space c = false.
Proof.
  induction l as [|d l IH]; simpl; [done|].
  destruct (is_js_space d) eqn:E; [done|]. by intros [= <- _].
Qed.

Lemma lower_char_idem c : js_lower_char (js_lower_char c) = js_lower_char c.
Proof. destruct c as [[] [] [] [] [] [] [] []]; vm_compute; reflexivity. Qed.

Lemma lower_char_not_upper c : is_js_upper (js_lower_char c) = false.
Proof. destruct c as [[] [] [] [] [] [] [] []]; vm_compute; reflexivity. Qed.

Create Rewrite HintDb jsstring.
#[export] Hint Rewrite list_ascii_of_string_of_list drop_spaces_idem lower_char_idem : jsstring.

Lemma drop_spaces_snoc m c : is_js_space c = false -> drop_spaces (m ++ [c]) = drop_spaces m ++ [c].
Proof.
  intros Hc. induction m as [|d m IH]; simpl; [by rewrite Hc|].
  by destruct (is_js_space d).
Qed.

Lemma drop_spaces_rev_trim l :
  drop_spaces (rev (drop_spaces (rev (drop_spaces l)))) = rev (drop_spaces (rev (drop_spaces l))).
Proof.
  destruct (drop_spaces l) as [|c l'] eqn:E; [done|].
  pose proof (drop_spaces_head _ _ _ E) as Hc. simpl.
  rewrite drop_spaces_snoc by done. rewrite rev_app_distr. simpl. by rewrite Hc.
Qed.

Lemma normalize_no_upper s c : In c (list_ascii_of_string (normalize s)) -> is_js_upper c = false.
Proof.
  unfold normalize, js_toLowerCase. rewrite list_ascii_of_string_of_list.
  intros (d & <- & _)%in_map_iff. apply lower_char_not_upper.
Qed.

Lemma drop_spaces_split l :
  exists pre, l = pre ++ drop_spaces l /\ Forall (fun c => is_js_space c = true) pre.
Proof.
  induction l as [|c l (pre & Hl & Hp)]; simpl; [by exists []|].
  destruct (is_js_space c) eqn:E.
  - exists (c :: pre). split; [simpl; by rewrite <- Hl|by constructor].
  - by exists [].
Qed.

Lemma drop_spaces_length l : length (drop_spaces l) <= length l.
Proof. induction l as [|c l IH]; simpl; [done|]. destruct (is_js_space c); simpl; lia. Qed.

(** A list trimming leaves alone starts with a non-space. *)
Lemma drop_spaces_fixed_head l c :
  drop_spaces l = l -> hd_error l = Some c -> is_js_space c = false.
Proof.
  destruct l as [|d l]; simpl; [done|]. intros Hl [= <-].
  destruct (is_js_space d) eqn:E; [|done].
  pose proof (drop_spaces_length l). rewrite Hl in *. simpl in *. lia.
Qed.

Lemma last_rev_hd {A} (l : list A) : last (rev l) = hd_error l.
Proof. destruct l; simpl; [done|]. by rewrite last_snoc. Qed.

(** C6. [transcript.trim().toLowerCase()]: a transcript splits into
    leading white space, a core that starts and ends with a non-space, and
    trailing white space, and the normalized transcript is that core with
    every capital lowered. *)
Theorem normalize_spec s :
  exists pre core post,
    list_ascii_of_string s = pre ++ core ++ post /\
    Forall (fun c => is_js_space c = true) pre /\
    Forall (fun c => is_js_space c = true) post /\
    (forall c, hd_error core = Some c -> is_js_space c = false) /\
    (forall c, last core = Some c -> is_js_space c = false) /\
    list_ascii_of_string (normalize s) = map js_lower_char core.
Proof.
  set (l := list_ascii_of_string s).
  destruct (drop_spaces_split l) as (pre & Hl & Hpre).
  destruct (drop_spaces_split (rev (drop_spaces l))) as (post & Hr & Hpost).
  exists pre, (rev (drop_spaces (rev (drop_spaces l)))), (rev post).
  split_and!.
  - assert (E : drop_spaces l = rev (drop_spaces (rev (drop_spaces l))) ++ rev post)
      by (rewrite <- rev_app_distr, <- Hr; by rewrite rev_involutive).
    rewrite <- E. exact Hl.
  - done.
  - by apply Forall_rev.
  - intros c. apply drop_spaces_fixed_head, drop_spaces_rev_trim.
  - intros c. rewrite last_rev_hd. destruct (drop_spaces (rev (drop_spaces l))) eqn:E; [done|].
    intros [= <-]. by eapply drop_spaces_head.
  - unfold normalize, js_toLowerCase, js_trim. by autorewrite with jsstring.
Qed.

(** C7. A configured hotword containing a capital letter is never equal to
    a normalized transcript, so [hotwords.includes(transcription)] can never
    select it: the hotwords are not normalized by speech.js. *)
Theorem hotword_with_capital_never_matches hw s :
  (exists c, In c (list_ascii_of_string hw) /\ is_js_upper c = true) ->
  js_includes [hw] (normalize s) = false.
Proof.
  intros (c & Hin & Hc). unfold js_includes. simpl. rewrite orb_false_r.
  apply String.eqb_neq. intros Heq. rewrite <- Heq in Hin.
  by rewrite (normalize_no_upper _ _ Hin) in Hc.
Qed.

Lemma js_includes_spec hw t : js_includes hw t = true <-> In t hw.
Proof.
  unfold js_includes. rewrite existsb_exists. split.
  - intros (x & Hx & E). apply String.eqb_eq in E. by subst.
  - intros H. exists t. split; [done|]. apply String.eqb_refl.
Qed.

(** ** Concrete runs *)

Example normalize_run : normalize "  Dar Comida
" = "dar comida".
Proof. reflexivity. Qed.

Lemma hotword_with_capital_never_matches_witness :
  (exists c, In c (list_ascii_of_string "Comida") /\ is_js_upper c = true) /\
  js_includes ["Comida"] (normalize " Comida ") = false.
Proof.
  assert (H : exists c, In c (list_ascii_of_string "Comida") /\ is_js_upper c = true)
    by (exists "C"%char; split; [left; reflexivity | reflexivity]).
  split; [exact H|]. exact (hotword_with_capital_never_matches "Comida" " Comida " H).
Defined.
