(* ===== verification/Speech.v ===== *)
(** * Speech: speech recording and hotword recognition (src/raspi/speech.js)

    speech.js keeps [recording] (the node-record-lpcm16 recording, whose
    sox process captures the microphone) and [timer] (the [Timeout] that
    stops it).  [startSpeechRecording] opens a Google streaming-recognize
    stream, spawns a recording piped into it, arms a [stopSpeechRecording]
    timer of [raspi.speech.timer] ms and emits [speechRecordingStarted]; it
    has no [isRecording] guard.  Each recognize stream keeps its [data]
    handler, which normalizes the first alternative of the first result and
    emits [speechRecordingRecognized] when it is one of the hotwords.
    [stopSpeechRecording] stops [recording], clears [timer] and emits
    [speechRecordingStopped], guarded by [isRecording]. *)

From Stdlib Require Import String ZArith.
From stdpp Require Import base list strings.
From S2P Require Import Prelude Runtime Emitter JsString.

Open Scope string_scope.
Open Scope list_scope.

(** [request.config.sampleRateHertz] *)
Definition request_sampleRateHertz : Z := 16000.

(** A [data] event of the recognize stream: [data.results[i].alternatives[j].transcript]. *)
Record alternative := mkAlt { transcript : string }.
Record sresult := mkResult { alternatives : list alternative }.
Record sdata := mkData { results : list sresult }.

(** Updates of speech.js's closure. *)
Definition upd_speech (f : speech_st -> speech_st) (w : world) : world := set_speech (f (speech w)) w.
Definition with_timer (t : option nat) (sp : speech_st) : speech_st :=
  mkSpeech (recording_v sp) t (streams sp) (recorders sp).
Definition with_recording (r : option nat) (sp : speech_st) : speech_st :=
  mkSpeech r (speech_timer_v sp) (streams sp) (recorders sp).
Definition with_stream (sid : nat) (sp : speech_st) : speech_st :=
  mkSpeech (recording_v sp) (speech_timer_v sp) (streams sp ++ [sid]) (recorders sp).
Definition with_recorder (rid : nat) (sp : speech_st) : speech_st :=
  mkSpeech (recording_v sp) (speech_timer_v sp) (streams sp) (recorders sp ++ [rid]).
Definition without_recorder (rid : nat) (sp : speech_st) : speech_st :=
  mkSpeech (recording_v sp) (speech_timer_v sp) (streams sp) (filter (fun r => r ≠ rid) (recorders sp)).

(** [timer instanceof Timeout] *)
Definition recording (w : world) : bool :=
  match speech_timer_v (speech w) with Some _ => true | None => false end.

Section Speech.
Variable emit : string -> payload -> M unit.

(** [isRecording()] *)
Definition isRecording : M bool := sew_gets recording.

(** [recording.stop()]: kills the sox process; a [TypeError] while
    [recording] is still [undefined]. *)
Definition recording_stop : M unit :=
  w ← getw;
  match recording_v (speech w) with
  | None => sew_throw (TypeError "Cannot read properties of undefined (reading 'stop')")
  | Some rid => sew_modify (upd_speech (without_recorder rid));; sew_tell (ERecordStop rid)
  end.

(** [stopSpeechRecording()] *)
Definition stopSpeechRecording : M unit :=
  sew_if isRecording
    (recording_stop;;
     w ← getw;
     clearTimeout (speech_timer_v (speech w));;
     sew_modify (upd_speech (with_timer None));;
     log LInfo "Speech recording stopped";;
     emit "speechRecordingStopped" (msg_payload "Speech recording stopped" "success"))
    (mret tt).

(** The [data] handler of a recognize stream. *)
Definition on_recognize_data (d : sdata) : M unit :=
  match head (results d) ≫= fun r => head (alternatives r) with
  | Some a =>
      let transcription := normalize (transcript a) in
      log LInfo ("Speech recording transcription: " ++ transcription)%string;;
      w ← getw;
      if js_includes (speech_hotwords (cfg w)) transcription
      then emit "speechRecordingRecognized" (msg_payload "Speech recording recognized" "success")
      else mret tt
  | None => log LError "Speech recording error: Reached transcription time limit"
  end.

(** The [error] handlers of the recognize stream and of the recording stream. *)
Definition on_stream_error (err : string) : M unit :=
  log LError ("Speech recording error: " ++ err)%string.

(** [startSpeechRecording()] *)
Definition startSpeechRecording : M unit :=
  sid ← fresh_handle;
  sew_modify (upd_speech (with_stream sid));;
  rid ← fresh_handle;
  w ← getw;
  sew_modify (upd_speech (with_recorder rid));;
  sew_tell (ERecordStart rid (speech_device (cfg w)) request_sampleRateHertz);;
  sew_modify (upd_speech (with_recording (Some rid)));;
  t ← setTimeout StopSpeechCb (speech_timer (cfg w));
  sew_modify (upd_speech (with_timer (Some t)));;
  log LInfo "Speech recording started";;
  emit "speechRecordingStarted" (msg_payload "Speech recording started" "success").
End Speech.

(** ** The states the handlers hand to the emitter *)

(** After [recording.stop()] on [r], [clearTimeout(t)], [timer = null]. *)
Definition rec_stopped (w : world) (r t : nat) : world :=
  upd_speech (with_timer None)
    (set_node (remove_timer t (node w)) (upd_speech (without_recorder r) w)).

(** After [startSpeechRecording]'s stream [sid], recording [sid+1], timer [sid+2]. *)
Definition rec_started (w : world) : world :=
  let sid := next_id (node w) in
  let n1 := mkNode (now (node w)) (timers (node w)) (S (S (next_id (node w)))) (files (node w)) (fs_pending (node w)) in
  upd_speech (with_timer (Some (S (S sid))))
    (set_node (add_timer (mkTimeout (S (S sid)) (now (node w) + timer_delay (speech_timer (cfg w)))%Z StopSpeechCb) (bump n1))
      (upd_speech (with_recording (Some (S sid)))
        (upd_speech (with_recorder (S sid))
          (set_node n1 (upd_speech (with_stream sid) w))))).

Section SpeechRuns.
Variable emit : string -> payload -> M unit.

Lemma stopSpeechRecording_run_idle w :
  recording w = false -> stopSpeechRecording emit w = (inr tt, w, []).
Proof. intros H. unfold stopSpeechRecording, sew_if, isRecording. sew_run. by rewrite H. Qed.

Lemma stopSpeechRecording_run w r t :
  speech_timer_v (speech w) = Some t -> recording_v (speech w) = Some r ->
  stopSpeechRecording emit w =
    match emit "speechRecordingStopped" (msg_payload "Speech recording stopped" "success") (rec_stopped w r t) with
    | (res, w2, o) => (res, w2, [ERecordStop r; ELog LInfo "Speech recording stopped"] ++ o)
    end.
Proof.
  intros H1 H2. unfold stopSpeechRecording, sew_if, isRecording, recording_stop, recording, log.
  sew_run. rewrite H1; simpl. rewrite H2; simpl. rewrite H1; simpl.
  by destruct (emit _ _ _) as [[res w2] o].
Qed.

Lemma startSpeechRecording_run w :
  startSpeechRecording emit w =
    match emit "speechRecordingStarted" (msg_payload "Speech recording started" "success") (rec_started w) with
    | (res, w2, o) =>
        (res, w2, [ERecordStart (S (next_id (node w))) (speech_device (cfg w)) request_sampleRateHertz;
                   ELog LInfo "Speech recording started"] ++ o)
    end.
Proof.
  unfold startSpeechRecording, log. sew_run.
  by destruct (emit _ _ _) as [[res w2] o].
Qed.

Lemma on_recognize_data_run d a w :
  head (results d) ≫= (fun r => head (alternatives r)) = Some a ->
  on_recognize_data emit d w =
    if js_includes (speech_hotwords (cfg w)) (normalize (transcript a)) then
      match emit "speechRecordingRecognized" (msg_payload "Speech recording recognized" "success") w with
      | (res, w2, o) => (res, w2, ELog LInfo ("Speech recording transcription: " ++ normalize (transcript a))%string :: o)
      end
    else (inr tt, w, [ELog LInfo ("Speech recording transcription: " ++ normalize (transcript a))%string]).
Proof.
  intros H. unfold on_recognize_data, log. rewrite H. sew_run.
  destruct (js_includes _ _); [|done]. by destruct (emit _ _ _) as [[res w2] o].
Qed.
End SpeechRuns.

(** ** Properties of the speech controller *)

Section SpeechProps.
Variable emit : string -> payload -> M unit.

(** C8. A [data] event whose first result has a first alternative logs the
    normalized transcription and emits [speechRecordingRecognized] exactly
    when the normalized transcription is one of the configured hotwords
    (whole-string equality); an event without one only logs the
    transcription-time-limit error and emits nothing. *)
Theorem on_recognize_data_spec d w :
  (forall a, head (results d) ≫= (fun r => head (alternatives r)) = Some a ->
     (In (normalize (transcript a)) (speech_hotwords (cfg w)) ->
        on_recognize_data emit d w =
          match emit "speechRecordingRecognized" (msg_payload "Speech recording recognized" "success") w with
          | (res, w2, o) => (res, w2, ELog LInfo ("Speech recording transcription: " ++ normalize (transcript a))%string :: o)
          end) /\
     (~ In (normalize (transcript a)) (speech_hotwords (cfg w)) ->
        on_recognize_data emit d w =
          (inr tt, w, [ELog LInfo ("Speech recording transcription: " ++ normalize (transcript a))%string]))) /\
  (head (results d) ≫= (fun r => head (alternatives r)) = None ->
     on_recognize_data emit d w =
       (inr tt, w, [ELog LError "Speech recording error: Reached transcription time limit"])).
Proof.
  split.
  - intros a Ha. rewrite (on_recognize_data_run emit d a w Ha). split; intros Hin.
    + by rewrite (proj2 (js_includes_spec _ _) Hin).
    + destruct (js_includes _ _) eqn:E; [|done]. by apply js_includes_spec in E.
  - intros Hn. unfold on_recognize_data. by rewrite Hn.
Qed.

(** C9. [startSpeechRecording] has no [isRecording] guard: called while a
    recording runs, it spawns a second sox process and arms a second timer,
    and the running process and its pending timer are left in place. *)
Theorem startSpeechRecording_unguarded w :
  recording w = true ->
  exists w1,
    startSpeechRecording emit w =
      match emit "speechRecordingStarted" (msg_payload "Speech recording started" "success") w1 with
      | (res, w2, o) =>
          (res, w2, [ERecordStart (S (next_id (node w))) (speech_device (cfg w)) request_sampleRateHertz;
                     ELog LInfo "Speech recording started"] ++ o)
      end /\
    recorders (speech w1) = recorders (speech w) ++ [S (next_id (node w))] /\
    timers (node w1) =
      timers (node w) ++
        [mkTimeout (S (S (next_id (node w)))) (now (node w) + timer_delay (speech_timer (cfg w)))%Z StopSpeechCb] /\
    speech_timer_v (speech w1) = Some (S (S (next_id (node w)))).
Proof.
  intros _. exists (rec_started w). split; [apply startSpeechRecording_run|]. done.
Qed.

(** C10. [stopSpeechRecording] is a no-op when not recording; while
    recording it stops the process held in [recording], clears [timer],
    resets it and then emits [speechRecordingStopped]. *)
Theorem stopSpeechRecording_spec w :
  (recording w = false -> stopSpeechRecording emit w = (inr tt, w, [])) /\
  (forall r t, speech_timer_v (speech w) = Some t -> recording_v (speech w) = Some r ->
    exists w1,
      stopSpeechRecording emit w =
        match emit "speechRecordingStopped" (msg_payload "Speech recording stopped" "success") w1 with
        | (res, w2, o) => (res, w2, [ERecordStop r; ELog LInfo "Speech recording stopped"] ++ o)
        end /\
      recorders (speech w1) = filter (fun x => x ≠ r) (recorders (speech w)) /\
      speech_timer_v (speech w1) = None /\
      timers (node w1) = filter (fun x => t_id x ≠ t) (timers (node w))).
Proof.
  split; [apply stopSpeechRecording_run_idle|].
  intros r t H1 H2. exists (rec_stopped w r t).
  split; [by apply stopSpeechRecording_run|]. done.
Qed.
End SpeechProps.

(** ** Concrete runs *)

Definition w_rec : world := st_of (startSpeechRecording no_listeners (init_world sample_config 0)).

Definition sample_data (t : string) : sdata := mkData [mkResult [mkAlt t]].

Lemma on_recognize_data_spec_witness :
  on_recognize_data no_listeners (sample_data " Comida") w_rec =
    (inr tt, w_rec, [ELog LInfo "Speech recording transcription: comida"]) /\
  on_recognize_data no_listeners (sample_data "agua") w_rec =
    (inr tt, w_rec, [ELog LInfo "Speech recording transcription: agua"]) /\
  on_recognize_data no_listeners (mkData []) w_rec =
    (inr tt, w_rec, [ELog LError "Speech recording error: Reached transcription time limit"]).
Proof.
  destruct (on_recognize_data_spec no_listeners (sample_data " Comida") w_rec) as [H1 _].
  destruct (on_recognize_data_spec no_listeners (sample_data "agua") w_rec) as [H2 _].
  destruct (on_recognize_data_spec no_listeners (mkData []) w_rec) as [_ H3].
  split; [apply (proj1 (H1 (mkAlt " Comida") eq_refl)); right; left; reflexivity|].
  split; [apply (proj2 (H2 (mkAlt "agua") eq_refl)); vm_compute; intuition discriminate|].
  apply H3. reflexivity.
Defined.

Lemma startSpeechRecording_unguarded_witness :
  recording w_rec = true /\
  exists w1,
    startSpeechRecording no_listeners w_rec =
      match no_listeners "speechRecordingStarted" (msg_payload "Speech recording started" "success") w1 with
      | (res, w2, o) => (res, w2, [ERecordStart 4 "plughw:1,0" request_sampleRateHertz;
                                   ELog LInfo "Speech recording started"] ++ o)
      end /\
    recorders (speech w1) = [1; 4] /\
    timers (node w1) = [mkTimeout 2 10000 StopSpeechCb; mkTimeout 5 10000 StopSpeechCb] /\
    speech_timer_v (speech w1) = Some 5.
Proof.
  assert (H : recording w_rec = true) by reflexivity.
  split; [exact H|]. exact (startSpeechRecording_unguarded no_listeners w_rec H).
Defined.

Lemma stopSpeechRecording_spec_witness :
  stopSpeechRecording no_listeners (init_world sample_config 0) = (inr tt, init_world sample_config 0, []) /\
  exists w1,
    stopSpeechRecording no_listeners w_rec =
      match no_listeners "speechRecordingStopped" (msg_payload "Speech recording stopped" "success") w1 with
      | (res, w2, o) => (res, w2, [ERecordStop 1; ELog LInfo "Speech recording stopped"] ++ o)
      end /\
    recorders (speech w1) = [] /\ speech_timer_v (speech w1) = None /\ timers (node w1) = [].
Proof.
  split; [apply (proj1 (stopSpeechRecording_spec no_listeners _)); reflexivity|].
  apply (proj2 (stopSpeechRecording_spec no_listeners w_rec) 1 2); reflexivity.
Defined.
