(* ===== verification/Base64.v ===== *)
(** * Base64: [Buffer.from(data).toString("base64")] (camera.js line 79)

    Every frame read by camera.js is sent to the browsers as standard base64
    (RFC 4648 alphabet, [=] padding), which main.js puts in a
    [data:image/jpeg;base64,...] URL.  [b64_encode] follows Node's encoder:
    each group of three bytes is packed into a 24-bit integer and cut into
    four 6-bit indices with shifts and masks; a final group of one or two
    bytes is padded with zero bits and [=].  [b64_decode] is the browser's
    side; the round trip [b64_decode (b64_encode bs) = Some bs] says the
    image bytes reach the page unchanged. *)

From Stdlib Require Import String Ascii ZArith Lia.
From stdpp Require Import base list.
From S2P Require Import Prelude.

Open Scope list_scope.

Definition b64_table : list ascii :=
  list_ascii_of_string
    "ABCDEFGHIJKLMNOPQRSTUVWXYZabcdefghijklmnopqrstuvwxyz0123456789+/"%string.

Definition b64_pad : ascii := "="%char.

(** The character of a 6-bit index. *)
Definition enc6 (n : Z) : ascii := nth (Z.to_nat n) b64_table b64_pad.

Definition byte_val (b : Byte.byte) : Z := Z.of_N (Byte.to_N b).

(** Index [k] (from the left, [k] in 0..3) of a 24-bit group. *)
Definition sextet (n : Z) (k : Z) : Z := Z.land (Z.shiftr n (18 - 6 * k)) 63.

Definition group24 (a b c : Z) : Z := a * 65536 + b * 256 + c.

Fixpoint b64_encode_list (l : list Byte.byte) : list ascii :=
  match l with
  | [] => []
  | [a] =>
      let n := group24 (byte_val a) 0 0 in
      [enc6 (sextet n 0); enc6 (sextet n 1); b64_pad; b64_pad]
  | [a; b] =>
      let n := group24 (byte_val a) (byte_val b) 0 in
      [enc6 (sextet n 0); enc6 (sextet n 1); enc6 (sextet n 2); b64_pad]
  | a :: b :: c :: r =>
      let n := group24 (byte_val a) (byte_val b) (byte_val c) in
      [enc6 (sextet n 0); enc6 (sextet n 1); enc6 (sextet n 2); enc6 (sextet n 3)] ++
      b64_encode_list r
  end.

(** [Buffer.from(data).toString("base64")] *)
Definition b64_encode (l : list Byte.byte) : string := string_of_list_ascii (b64_encode_list l).

(** ** Decoding *)

Fixpoint index_of (c : ascii) (t : list ascii) : option Z :=
  match t with
  | [] => None
  | d :: t' => if ascii_dec c d then Some 0%Z else Z.succ <$> index_of c t'
  end.

Definition dec6 (c : ascii) : option Z := index_of c b64_table.

Definition byte_of (z : Z) : option Byte.byte := Byte.of_N (Z.to_N z).

Fixpoint b64_decode_list (l : list ascii) : option (list Byte.byte) :=
  match l with
  | [] => Some []
  | c0 :: c1 :: c2 :: c3 :: r =>
      s0 ← dec6 c0; s1 ← dec6 c1;
      if ascii_dec c2 b64_pad then
        if ascii_dec c3 b64_pad then
          match r with
          | [] => a ← byte_of (s0 * 4 + s1 / 16); Some [a]
          | _ => None
          end
        else None
      else
        s2 ← dec6 c2;
        if ascii_dec c3 b64_pad then
          match r with
          | [] =>
              a ← byte_of (s0 * 4 + s1 / 16);
              b ← byte_of ((s1 mod 16) * 16 + s2 / 4); Some [a; b]
          | _ => None
          end
        else
          s3 ← dec6 c3;
          a ← byte_of (s0 * 4 + s1 / 16);
          b ← byte_of ((s1 mod 16) * 16 + s2 / 4);
          c ← byte_of ((s2 mod 4) * 64 + s3);
          rest ← b64_decode_list r; Some (a :: b :: c :: rest)
  | _ => None
  end.

Definition b64_decode (s : string) : option (list Byte.byte) :=
  b64_decode_list (list_ascii_of_string s).

(** ** The round trip *)

Lemma byte_val_bounds b : (0 <= byte_val b < 256)%Z.
Proof. unfold byte_val. pose proof (Byte.to_N_bounded b). lia. Qed.

Lemma byte_of_val b : byte_of (byte_val b) = Some b.
Proof. unfold byte_of, byte_val. rewrite N2Z.id. apply Byte.of_to_N. Qed.

(** The table checked over its 64 entries. *)
Lemma table_check :
  forallb (fun k => match dec6 (nth k b64_table b64_pad) with
                    | Some z => Z.eqb z (Z.of_nat k) && negb (if ascii_dec (nth k b64_table b64_pad) b64_pad then true else false)
                    | None => false end) (seq 0 64) = true.
Proof. vm_compute. reflexivity. Qed.

Lemma dec_enc6 s : (0 <= s < 64)%Z -> dec6 (enc6 s) = Some s /\ enc6 s <> b64_pad.
Proof.
  intros Hs. pose proof table_check as H. rewrite forallb_forall in H.
  specialize (H (Z.to_nat s)). rewrite in_seq in H. specialize (H ltac:(lia)).
  unfold enc6. destruct (dec6 _) as [z|]; [|done].
  apply andb_true_iff in H as [H1 H2]. apply Z.eqb_eq in H1. rewrite Z2Nat.id in H1 by lia. subst z.
  split; [done|]. by destruct (ascii_dec _ _).
Qed.

Lemma sextet_spec n k :
  (0 <= n)%Z -> (0 <= k <= 3)%Z -> sextet n k = ((n / 2 ^ (18 - 6 * k)) mod 64)%Z.
Proof.
  intros Hn Hk. unfold sextet. rewrite Z.shiftr_div_pow2 by lia.
  change 63%Z with (Z.ones 6). rewrite Z.land_ones by lia. reflexivity.
Qed.

Lemma sextet_bounds n k : (0 <= n)%Z -> (0 <= k <= 3)%Z -> (0 <= sextet n k < 64)%Z.
Proof. intros Hn Hk. rewrite sextet_spec by done. apply Z.mod_pos_bound. lia. Qed.

(** The arithmetic of one group: the decoder's formulas give back the bytes. *)
Lemma group_arith a b c :
  (0 <= a < 256)%Z -> (0 <= b < 256)%Z -> (0 <= c < 256)%Z ->
  let n := (a * 65536 + b * 256 + c)%Z in
  let s0 := ((n / 262144) mod 64)%Z in let s1 := ((n / 4096) mod 64)%Z in
  let s2 := ((n / 64) mod 64)%Z in let s3 := (n mod 64)%Z in
  (s0 * 4 + s1 / 16 = a /\ (s1 mod 16) * 16 + s2 / 4 = b /\ (s2 mod 4) * 64 + s3 = c)%Z.
Proof.
  intros Ha Hb Hc n s0 s1 s2 s3.
  pose proof (Z.div_mod a 4 ltac:(lia)) as Da. pose proof (Z.mod_pos_bound a 4 ltac:(lia)) as Ma.
  pose proof (Z.div_mod b 16 ltac:(lia)) as Db. pose proof (Z.mod_pos_bound b 16 ltac:(lia)) as Mb.
  pose proof (Z.div_mod c 64 ltac:(lia)) as Dc. pose proof (Z.mod_pos_bound c 64 ltac:(lia)) as Mc.
  remember (a / 4)%Z as a1. remember (a mod 4)%Z as a0. remember (b / 16)%Z as b1.
  remember (b mod 16)%Z as b0. remember (c / 64)%Z as c1. remember (c mod 64)%Z as c0.
  assert (Hs0 : s0 = a1).
  { unfold s0. destruct (div_exact n a1 262144 (a0 * 65536 + b * 256 + c)) as [-> _];
      [lia|lia|unfold n; lia|].
    destruct (div_exact a1 0 64 a1) as [_ ->]; lia. }
  assert (Hs1 : s1 = (a0 * 16 + b1)%Z).
  { unfold s1. destruct (div_exact n (a1 * 64 + a0 * 16 + b1) 4096 (b0 * 256 + c)) as [-> _];
      [lia|lia|unfold n; lia|].
    destruct (div_exact (a1 * 64 + a0 * 16 + b1) a1 64 (a0 * 16 + b1)) as [_ ->]; lia. }
  assert (Hs2 : s2 = (b0 * 4 + c1)%Z).
  { unfold s2. destruct (div_exact n (a * 1024 + b1 * 64 + b0 * 4 + c1) 64 c0) as [-> _];
      [lia|lia|unfold n; lia|].
    destruct (div_exact (a * 1024 + b1 * 64 + b0 * 4 + c1) (a * 16 + b1) 64 (b0 * 4 + c1)) as [_ ->]; lia. }
  assert (Hs3 : s3 = c0).
  { unfold s3. destruct (div_exact n (a * 1024 + b * 4 + c1) 64 c0) as [_ ->];
      [lia|lia|unfold n; lia|reflexivity]. }
  rewrite Hs0, Hs1, Hs2, Hs3.
  destruct (div_exact (a0 * 16 + b1) a0 16 b1) as [-> ->]; [lia|lia|lia|].
  destruct (div_exact (b0 * 4 + c1) b0 4 c1) as [-> ->]; [lia|lia|lia|].
  lia.
Qed.

Lemma group24_nonneg a b c : (0 <= group24 (byte_val a) (byte_val b) (byte_val c))%Z.
Proof. unfold group24. pose proof (byte_val_bounds a). pose proof (byte_val_bounds b). pose proof (byte_val_bounds c). lia. Qed.

(** The four characters of a group decode to their indices and are not padding. *)
Ltac dec_sextet n k :=
  let H := fresh "H" in
  destruct (dec_enc6 (sextet n k)) as [H ?];
  [apply sextet_bounds; [try (unfold group24); lia | lia] | rewrite H; clear H].

Lemma sextet_group a b c :
  (0 <= a < 256)%Z -> (0 <= b < 256)%Z -> (0 <= c < 256)%Z ->
  let n := (a * 65536 + b * 256 + c)%Z in
  sextet (group24 a b c) 0 = ((n / 262144) mod 64)%Z /\ sextet (group24 a b c) 1 = ((n / 4096) mod 64)%Z /\
  sextet (group24 a b c) 2 = ((n / 64) mod 64)%Z /\ sextet (group24 a b c) 3 = (n mod 64)%Z.
Proof.
  intros Ha Hb Hc n. unfold group24.
  repeat split; rewrite sextet_spec by lia; try reflexivity.
  change (2 ^ (18 - 6 * 3))%Z with 1%Z. by rewrite Z.div_1_r.
Qed.

Lemma if_ascii_neq {A} (c d : ascii) (x y : A) : c <> d -> (if ascii_dec c d then x else y) = y.
Proof. intros H. by destruct (ascii_dec c d). Qed.

(** C11. Base64 round trip: decoding the string camera.js broadcasts for
    the bytes [bs] of a frame gives back exactly [bs]. *)
Theorem b64_roundtrip bs : b64_decode (b64_encode bs) = Some bs.
Proof.
  unfold b64_decode, b64_encode. rewrite list_ascii_of_string_of_list.
  revert bs. fix IH 1. intros [|a [|b [|c r]]]; [reflexivity| | |].
  all: pose proof (byte_val_bounds a) as Ba.
  - pose proof (group_arith (byte_val a) 0 0 Ba ltac:(lia) ltac:(lia)) as (Ga & _ & _).
    destruct (sextet_group (byte_val a) 0 0 Ba ltac:(lia) ltac:(lia)) as (E0 & E1 & _ & _).
    simpl b64_encode_list. cbn [b64_decode_list].
    dec_sextet (group24 (byte_val a) 0 0) 0%Z. dec_sextet (group24 (byte_val a) 0 0) 1%Z. cbn -[enc6 dec6].
    rewrite E0, E1, Ga. by rewrite byte_of_val.
  - pose proof (byte_val_bounds b) as Bb.
    pose proof (group_arith (byte_val a) (byte_val b) 0 Ba Bb ltac:(lia)) as (Ga & Gb & _).
    destruct (sextet_group (byte_val a) (byte_val b) 0 Ba Bb ltac:(lia)) as (E0 & E1 & E2 & _).
    simpl b64_encode_list. cbn [b64_decode_list].
    dec_sextet (group24 (byte_val a) (byte_val b) 0) 0%Z.
    dec_sextet (group24 (byte_val a) (byte_val b) 0) 1%Z. cbn -[enc6 dec6].
    rewrite if_ascii_neq by (apply dec_enc6, sextet_bounds; unfold group24; lia).
    dec_sextet (group24 (byte_val a) (byte_val b) 0) 2%Z. cbn -[enc6 dec6].
    rewrite E0, E1, E2, Ga, Gb. by rewrite !byte_of_val.
  - pose proof (byte_val_bounds b) as Bb. pose proof (byte_val_bounds c) as Bc.
    pose proof (group_arith (byte_val a) (byte_val b) (byte_val c) Ba Bb Bc) as (Ga & Gb & Gc).
    destruct (sextet_group (byte_val a) (byte_val b) (byte_val c) Ba Bb Bc) as (E0 & E1 & E2 & E3).
    simpl b64_encode_list. cbn [b64_decode_list app].
    set (n := group24 (byte_val a) (byte_val b) (byte_val c)).
    assert (Hn : (0 <= n)%Z) by (unfold n, group24; lia).
    dec_sextet n 0%Z. dec_sextet n 1%Z. cbn -[enc6 dec6].
    rewrite if_ascii_neq by (apply dec_enc6, sextet_bounds; lia).
    dec_sextet n 2%Z. cbn -[enc6 dec6].
    rewrite if_ascii_neq by (apply dec_enc6, sextet_bounds; lia).
    dec_sextet n 3%Z. cbn -[enc6 dec6].
    unfold n. rewrite E0, E1, E2, E3, Ga, Gb, Gc, !byte_of_val. cbn -[enc6 dec6]. by rewrite IH.
Qed.

(** C12. Size of a frame message: the base64 text of [n] bytes has
    [4 * ceil(n / 3)] characters. *)
Theorem b64_encode_length bs :
  String.length (b64_encode bs) = 4 * ((length bs + 2) / 3).
Proof.
  unfold b64_encode. rewrite length_string_of_list_ascii.
  induction bs as [n IH] using (induction_ltof1 _ (@length Byte.byte)); unfold ltof in IH.
  destruct n as [|a [|b [|c r]]]; [reflexivity..|].
  simpl b64_encode_list. simpl length. rewrite IH by (simpl; lia).
  replace (S (S (S (length r))) + 2) with (length r + 2 + 1 * 3) by lia.
  rewrite Nat.div_add by lia. lia.
Qed.

(** ** Concrete runs (RFC 4648 test vectors) *)

Example b64_encode_vectors :
  b64_encode (list_byte_of_string "Man") = "TWFu"%string /\
  b64_encode (list_byte_of_string "Ma") = "TWE="%string /\
  b64_encode (list_byte_of_string "M") = "TQ=="%string.
Proof. repeat split; reflexivity. Qed.
