(* ===== verification/Camera.v ===== *)
(** * Camera: the timelapse relay (src/raspi/camera.js)

    camera.js starts a raspicam timelapse writing [image_%06d.jpg] into
    [raspi.camera.outputDirectory].  On each [read] event it asks
    [fs.readFile] for the file; when the read succeeds it emits
    [frameLoaded] with the base64 of the bytes and asks [fs.unlink] for the
    file, logging an error if the unlink fails; when the read fails it does
    nothing.  fs calls are asynchronous: a call records a pending request in
    the runtime, and System.v completes it later with the file system's
    answer. *)

From Stdlib Require Import String Ascii ZArith.
From stdpp Require Import base list strings gmap.
From S2P Require Import Prelude Runtime Emitter Base64.

Open Scope string_scope.
Open Scope list_scope.

(** [path.join(dir, f)] for a directory and a bare file name: one [/]
    between them ([.] and [..] segments are not normalized here). *)
Definition path_join (dir f : string) : string :=
  match String.get (String.length dir - 1) dir with
  | Some "/"%char => dir ++ f
  | _ => dir ++ "/" ++ f
  end.

(** Record a pending fs request and return its handle. *)
Definition fs_request (op : fs_op) : M nat :=
  req ← fresh_handle;
  sew_modify (fun w' => let n := node w' in
                        set_node (mkNode (now n) (timers n) (next_id n) (files n) (fs_pending n ++ [(req, op)])) w');;
  mret req.

(** [fs.readFile(filePath, cb)] *)
Definition fs_readFile (path : string) : M unit :=
  req ← fs_request (ReadOp path); sew_tell (EFsRead req path).

(** [fs.unlink(filePath, cb)] *)
Definition fs_unlink (path : string) : M unit :=
  req ← fs_request (UnlinkOp path); sew_tell (EFsUnlink req path).

(** [camera.start()] of the object returned as [startTimelapse]. *)
Definition startTimelapse : M unit :=
  sew_modify (set_camera_started true);; sew_tell ECameraStart.

(** The [start], [exit] and [stop] events of the camera. *)
Definition on_camera_start : M unit := log LInfo "Raspi camera started".
Definition on_camera_exit : M unit := log LInfo "Raspi camera exitted".
Definition on_camera_stop : M unit := log LInfo "Raspi camera stopped".

Section Camera.
Variable emit : string -> payload -> M unit.

(** [camera.on("read", (error, timestamp, filename) => ...)]: [error] and
    [timestamp] are ignored by the handler. *)
Definition on_camera_read (filename : string) : M unit :=
  w ← getw;
  fs_readFile (path_join (camera_outputDirectory (cfg w)) filename).

(** The [fs.readFile] callback; [None] is [errReadFile]. *)
Definition on_readFile (path : string) (r : option (list Byte.byte)) : M unit :=
  match r with
  | None => mret tt
  | Some data =>
      emit "frameLoaded" (mkPayload (Some (b64_encode data)) "New frame received" "success");;
      fs_unlink path
  end.

(** The [fs.unlink] callback; [false] is [errUnlink]. *)
Definition on_unlink (path : string) (ok : bool) : M unit :=
  if ok then mret tt else log LError ("Unable to delete file " ++ path).
End Camera.

(** ** Runs *)

(** The process after request [next_id] for [op] is recorded. *)
Definition with_request (op : fs_op) (w : world) : world :=
  let n := node w in
  set_node (mkNode (now n) (timers n) (S (next_id n)) (files n) (fs_pending n ++ [(next_id n, op)])) w.

Lemma fs_unlink_run path w :
  fs_unlink path w = (inr tt, with_request (UnlinkOp path) w, [EFsUnlink (next_id (node w)) path]).
Proof. reflexivity. Qed.

Lemma fs_readFile_run path w :
  fs_readFile path w = (inr tt, with_request (ReadOp path) w, [EFsRead (next_id (node w)) path]).
Proof. reflexivity. Qed.

Section CameraProps.
Variable emit : string -> payload -> M unit.

(** C13. The [readFile] callback: a successful read of [data] emits one
    [frameLoaded] whose [cameraImage] is the base64 of [data], then (if no
    listener threw) requests the deletion of that same file; a failed read
    emits nothing and requests no deletion, so the frame's file stays in
    the camera directory. *)
Theorem on_readFile_spec path data w :
  on_readFile emit path (Some data) w =
    match emit "frameLoaded" (mkPayload (Some (b64_encode data)) "New frame received" "success") w with
    | (inl e, w1, o) => (inl e, w1, o)
    | (inr _, w1, o) => (inr tt, with_request (UnlinkOp path) w1, o ++ [EFsUnlink (next_id (node w1)) path])
    end /\
  on_readFile emit path None w = (inr tt, w, []).
Proof.
  split; [|reflexivity]. unfold on_readFile. rewrite run_bind.
  destruct (emit _ _ _) as [[[e|[]] w1] o]; [done|]. by rewrite fs_unlink_run.
Qed.
End CameraProps.

(** ** Concrete runs *)

Lemma on_readFile_spec_witness :
  on_readFile no_listeners "/home/pi/images/image_000001.jpg" (Some [Byte.x41; Byte.x42]) (init_world sample_config 0) =
    (inr tt, with_request (UnlinkOp "/home/pi/images/image_000001.jpg") (init_world sample_config 0),
     [EFsUnlink 0 "/home/pi/images/image_000001.jpg"]).
Proof.
  rewrite (proj1 (on_readFile_spec no_listeners "/home/pi/images/image_000001.jpg" [Byte.x41; Byte.x42]
                    (init_world sample_config 0))).
  reflexivity.
Defined.
