(* ===== verification/Raspi.v ===== *)
(** * Raspi: the hardware facade (src/raspi/index.js)

    raspi/index.js builds the emitter, the camera, gpio and speech modules
    around it, and exports a function that starts the timelapse and returns
    [{ emitter, isFeeding, isRecording, startFeeder, startSpeechRecording }].
    io.js only uses that object: [RaspiApi] is its interface, [RaspiLaws]
    what io.js's behaviour relies on (the status queries read the state and
    change nothing, [startFeeder] is single-flight), and [raspi_api] the
    implementation by gpio.js and speech.js, for a given emitter. *)

From Stdlib Require Import String ZArith.
From stdpp Require Import base list strings.
From S2P Require Import Prelude Runtime Emitter Gpio Speech Camera.

Open Scope string_scope.
Open Scope list_scope.

Class RaspiApi := {
  api_feeding : world -> bool;
  api_recording : world -> bool;
  api_startFeeder : M unit;
  api_startSpeechRecording : M unit;
}.

(** [raspi.isFeeding()] and [raspi.isRecording()] as io.js calls them. *)
Definition api_isFeeding `{RaspiApi} : M bool := sew_gets api_feeding.
Definition api_isRecording `{RaspiApi} : M bool := sew_gets api_recording.

Class RaspiLaws (R : RaspiApi) := {
  api_startFeeder_busy : forall w, api_feeding w = true -> api_startFeeder w = (inr tt, w, []);
}.

(** The object returned by raspi/index.js, for the emitter [em]. *)
Definition raspi_api (em : string -> payload -> M unit) : RaspiApi := {|
  api_feeding := feeding;
  api_recording := recording;
  api_startFeeder := startFeeder em;
  api_startSpeechRecording := startSpeechRecording em;
|}.

#[export] Instance raspi_api_laws em : RaspiLaws (raspi_api em).
Proof. constructor. intros w H. by apply startFeeder_run_busy. Qed.

(** [module.exports = () => { camera.startTimelapse(); ... }] *)
Definition raspi_init : M unit := startTimelapse.
