(* ===== verification/Io.v ===== *)
(** * Io: the Socket.IO gateway (src/io.js)

    io.js loads the raspi facade once and, for every new socket connection,
    broadcasts the status ([updateInfo]), installs the socket's
    [startFeeding] / [startSpeechRecording] handlers, and registers six
    listeners on the raspi emitter: four relays that broadcast the event and
    then the status, the [frameLoaded] relay that broadcasts the image, and
    the [speechRecordingRecognized] listener that starts feeding.  The
    registrations are never removed.  All broadcasts go to every connected
    socket ([io.emit]).  The Section is written against the [RaspiApi]
    interface; [sys_emit] at the end instantiates it with raspi/index.js's
    object built on the emitter itself. *)

From Stdlib Require Import String ZArith.
From stdpp Require Import base list strings.
From S2P Require Import Prelude Runtime Emitter Gpio Speech Camera Raspi.

Open Scope string_scope.
Open Scope list_scope.

(** [io.emit(tag, body)] *)
Definition io_emit (tag : string) (body : wire_body) : M unit :=
  w ← getw; sew_tell (EBroadcast (sockets w) tag body).

(** The listeners [onSocketConnected] registers, in its order. *)
Definition io_listeners : list (string * listener) := [
  ("feedingStarted", RelayEvent "feedingStarted");
  ("feedingStopped", RelayEvent "feedingStopped");
  ("frameLoaded", RelayImage);
  ("speechRecordingStarted", RelayEvent "speechRecordingStarted");
  ("speechRecordingStopped", RelayEvent "speechRecordingStopped");
  ("speechRecordingRecognized", OnRecognized)
].

Section Io.
Context `{R : RaspiApi}.

(** [updateInfo()] *)
Definition updateInfo : M unit :=
  d ← Date_now;
  f ← api_isFeeding;
  r ← api_isRecording;
  io_emit "info" (InfoBody d (negb f) (negb r)).

(** [({ message, status }) => { io.emit(tag, { date: Date.now(), message, status }); updateInfo(); }] *)
Definition relay (tag : string) (p : payload) : M unit :=
  d ← Date_now;
  io_emit tag (EventBody d (p_message p) (p_status p));;
  updateInfo.

(** [({ cameraImage, message, status }) => { io.emit("image", ...); updateInfo(); }] *)
Definition relay_image (p : payload) : M unit :=
  d ← Date_now;
  io_emit "image" (ImageBody d (p_cameraImage p) (p_message p) (p_status p));;
  updateInfo.

(** What a registered listener does when called. *)
Definition call_listener (l : listener) (p : payload) : M unit :=
  match l with
  | RelayEvent tag => relay tag p
  | RelayImage => relay_image p
  | OnRecognized => api_startFeeder
  end.

(** [onSocketConnected(socket)]; the socket's own handlers are the two
    commands below, installed for every connected socket. *)
Definition onSocketConnected (addr : string) : M unit :=
  log LInfo ("Connection from " ++ addr)%string;;
  updateInfo;;
  for_each (fun nl => on nl.1 nl.2) io_listeners.

(** [socket.on("startFeeding", () => raspi.startFeeder())] *)
Definition on_startFeeding : M unit := api_startFeeder.

(** [socket.on("startSpeechRecording", () => raspi.startSpeechRecording())] *)
Definition on_startSpeechRecording : M unit := api_startSpeechRecording.
End Io.

(** ** The process's emitter

    The listeners call back into raspi/index.js's object, whose handlers
    emit on the same emitter: [sys_emit fuel] is [emitter.emit] with the
    listeners of io.js, each running against [raspi_api] built on
    [sys_emit] with one frame less. *)
Definition sys_emit : nat -> string -> payload -> M unit :=
  emit (fun em l p => @call_listener (raspi_api em) l p).

(** The call depth the system runs the emitter with: a [speechRecordingRecognized]
    listener emits [feedingStarted], whose listeners emit nothing. *)
Definition emit_depth : nat := 2.

(** The raspi object io.js works with. *)
Definition sys_raspi : RaspiApi := raspi_api (sys_emit emit_depth).

(** ** Runs *)

Lemma updateInfo_run `{R : RaspiApi} w :
  updateInfo w =
    (inr tt, w, [EBroadcast (sockets w) "info" (InfoBody (now (node w)) (negb (api_feeding w)) (negb (api_recording w)))]).
Proof. reflexivity. Qed.
