(* ===== verification/System.v ===== *)
(** * System: the process and its event loop

    The environment drives the process through [input]s: the johnny-five
    board becoming ready, Socket.IO connections, disconnections and client
    messages, the passing of time (which runs the due timers in order of
    due time, then creation), recognize-stream data and errors, recording
    stream errors, raspicam events and files, and the answers of the file
    system to pending requests.  Each input runs one handler to completion
    (Node's run-to-completion); an exception that escapes a handler is
    uncaught and terminates the process ([Crashed]).  [run] folds [step]
    over a list of inputs and collects the effects; [reachable] is the set
    of process states reachable from start-up. *)

From Stdlib Require Import String ZArith.
From stdpp Require Import base list strings gmap.
From S2P Require Import Prelude Runtime Emitter Gpio JsString Speech Base64 Camera Raspi Io.

Open Scope string_scope.
Open Scope list_scope.

Inductive input :=
| BoardReady
| Connect (sid : nat) (addr : string)
| Disconnect (sid : nat)
| ClientEmit (sid : nat) (name : string)
| Elapse (ms : Z)
| SpeechData (stream : nat) (d : sdata)
| SpeechError (stream : nat) (err : string)
| RecorderError (rid : nat) (err : string)
| CameraStarted
| CameraExited
| CameraStopped
| CameraRead (filename : string)
| FrameWritten (filename : string) (data : list Byte.byte)
| FsComplete (req : nat)
| FsFail (req : nat).

(** ** Timers *)

(** The earliest pending timer; the first created among equal due times. *)
Fixpoint earliest (ts : list timeout) : option timeout :=
  match ts with
  | [] => None
  | t :: ts' =>
      match earliest ts' with
      | Some t' => if (t_due t' <? t_due t)%Z then Some t' else Some t
      | None => Some t
      end
  end.

Definition next_due (target : Z) (w : world) : option timeout :=
  match earliest (timers (node w)) with
  | Some t => if (t_due t <=? target)%Z then Some t else None
  | None => None
  end.

Definition set_now (t : Z) (n : node_st) : node_st :=
  mkNode t (timers n) (next_id n) (files n) (fs_pending n).

(** A timer's callback. *)
Definition run_callback (cb : callback) : M unit :=
  match cb with
  | StopFeederCb => stopFeeder (sys_emit emit_depth)
  | StopSpeechCb => stopSpeechRecording (sys_emit emit_depth)
  end.

(** Run the timers due by [target], one per iteration, the clock set to
    each one's due time. *)
Fixpoint fire_timers (fuel : nat) (target : Z) : M unit :=
  match fuel with
  | O => mret tt
  | S f =>
      w ← getw;
      match next_due target w with
      | None => mret tt
      | Some t =>
          sew_modify (set_node (remove_timer (t_id t) (set_now (Z.max (now (node w)) (t_due t)) (node w))));;
          run_callback (t_cb t);;
          fire_timers f target
      end
  end.

(** [ms] milliseconds pass. *)
Definition elapse (ms : Z) : M unit :=
  w ← getw;
  let target := (now (node w) + Z.max 0 ms)%Z in
  fire_timers (S (length (timers (node w)))) target;;
  sew_modify (fun w' => set_node (set_now target (node w')) w').

(** ** The file system's answers *)

Fixpoint find_req (req : nat) (ps : list (nat * fs_op)) : option fs_op :=
  match ps with
  | [] => None
  | (r, op) :: ps' => if decide (r = req) then Some op else find_req req ps'
  end.

Definition drop_req (req : nat) (n : node_st) : node_st :=
  mkNode (now n) (timers n) (next_id n) (files n) (filter (fun p => p.1 ≠ req) (fs_pending n)).

Definition delete_file (path : string) (n : node_st) : node_st :=
  mkNode (now n) (timers n) (next_id n) (delete path (files n)) (fs_pending n).

Definition write_file (path : string) (data : list Byte.byte) (n : node_st) : node_st :=
  mkNode (now n) (timers n) (next_id n) (<[path := data]> (files n)) (fs_pending n).

(** Request [req] completes; [ok = false] is an I/O error (EACCES, EIO, ...). *)
Definition fs_complete (req : nat) (ok : bool) : M unit :=
  w ← getw;
  match find_req req (fs_pending (node w)) with
  | None => mret tt
  | Some op =>
      sew_modify (fun w' => set_node (drop_req req (node w')) w');;
      match op with
      | ReadOp path =>
          on_readFile (sys_emit emit_depth) path (if ok then files (node w) !! path else None)
      | UnlinkOp path =>
          match ok, files (node w) !! path with
          | true, Some _ => sew_modify (fun w' => set_node (delete_file path (node w')) w');; on_unlink path true
          | _, _ => on_unlink path false
          end
      end
  end.

(** ** Handlers of the inputs *)

Definition handle (i : input) : M unit :=
  match i with
  | BoardReady =>
      w ← getw;
      match servo_v (gpio w) with None => on_board_ready | Some _ => mret tt end
  | Connect sid addr =>
      w ← getw;
      if decide (sid ∈ sockets w) then mret tt
      else sew_modify (set_sockets (sockets w ++ [sid]));; @onSocketConnected sys_raspi addr
  | Disconnect sid =>
      sew_modify (fun w => set_sockets (filter (fun s => s ≠ sid) (sockets w)) w)
  | ClientEmit sid name =>
      w ← getw;
      if decide (sid ∈ sockets w) then
        if String.eqb name "startFeeding" then @on_startFeeding sys_raspi
        else if String.eqb name "startSpeechRecording" then @on_startSpeechRecording sys_raspi
        else mret tt
      else mret tt
  | Elapse ms => elapse ms
  | SpeechData sid d =>
      w ← getw;
      if decide (sid ∈ streams (speech w)) then on_recognize_data (sys_emit emit_depth) d else mret tt
  | SpeechError sid err =>
      w ← getw;
      if decide (sid ∈ streams (speech w)) then on_stream_error err else mret tt
  | RecorderError rid err =>
      w ← getw;
      if decide (rid ∈ recorders (speech w)) then on_stream_error err else mret tt
  | CameraStarted => w ← getw; if camera_started w then on_camera_start else mret tt
  | CameraExited => w ← getw; if camera_started w then on_camera_exit else mret tt
  | CameraStopped => w ← getw; if camera_started w then on_camera_stop else mret tt
  | CameraRead filename =>
      w ← getw; if camera_started w then on_camera_read filename else mret tt
  | FrameWritten filename data =>
      w ← getw;
      if camera_started w then
        sew_modify (fun w' => set_node (write_file (path_join (camera_outputDirectory (cfg w)) filename) data (node w')) w')
      else mret tt
  | FsComplete req => fs_complete req true
  | FsFail req => fs_complete req false
  end.

(** ** The process *)

Inductive proc := Running (w : world) | Crashed (e : exn) (w : world).

Definition step (p : proc) (i : input) : proc * list effect :=
  match p with
  | Crashed _ _ => (p, [])
  | Running w =>
      match handle i w with
      | (inl e, w', o) => (Crashed e w', o)
      | (inr _, w', o) => (Running w', o)
      end
  end.

Fixpoint run (p : proc) (ins : list input) : proc * list effect :=
  match ins with
  | [] => (p, [])
  | i :: ins' =>
      let '(p1, o1) := step p i in
      let '(p2, o2) := run p1 ins' in
      (p2, o1 ++ o2)
  end.

(** Start-up: the modules are loaded and io.js calls [require("./raspi")()],
    which starts the timelapse. *)
Definition boot (c : config) (t0 : Z) : proc := Running (st_of (raspi_init (init_world c t0))).

Inductive reachable (c : config) (t0 : Z) : proc -> Prop :=
| reach_boot : reachable c t0 (boot c t0)
| reach_step p i : reachable c t0 p -> reachable c t0 (fst (step p i)).

(** The messages socket [sid] receives among effects [o], in order. *)
Definition received (sid : nat) (o : list effect) : list (string * wire_body) :=
  omap (fun e => match e with
                 | EBroadcast to tag body => if decide (sid ∈ to) then Some (tag, body) else None
                 | _ => None
                 end) o.

(** ** Lemmas on the emitter as io.js populates it *)

Lemma listeners_of_app name r1 r2 :
  listeners_of name (r1 ++ r2) = listeners_of name r1 ++ listeners_of name r2.
Proof. unfold listeners_of. by rewrite filter_app, map_app. Qed.

Lemma listeners_of_connections name k :
  listeners_of name (concat (replicate k io_listeners)) =
    concat (replicate k (listeners_of name io_listeners)).
Proof.
  induction k as [|k IH]; [done|].
  change (concat (replicate (S k) io_listeners)) with (io_listeners ++ concat (replicate k io_listeners)).
  rewrite listeners_of_app, IH. reflexivity.
Qed.

(** The [frameLoaded] relay leaves the state unchanged and broadcasts the
    image, then the status. *)
Lemma relay_image_run em p w :
  @relay_image (raspi_api em) p w =
    (inr tt, w, [EBroadcast (sockets w) "image" (ImageBody (now (node w)) (p_cameraImage p) (p_message p) (p_status p));
                 EBroadcast (sockets w) "info" (InfoBody (now (node w)) (negb (feeding w)) (negb (recording w)))]).
Proof. reflexivity. Qed.

Lemma for_each_relay_image em p k w :
  for_each (fun l => @call_listener (raspi_api em) l p) (replicate k RelayImage) w =
    (inr tt, w, concat (replicate k
      [EBroadcast (sockets w) "image" (ImageBody (now (node w)) (p_cameraImage p) (p_message p) (p_status p));
       EBroadcast (sockets w) "info" (InfoBody (now (node w)) (negb (feeding w)) (negb (recording w)))])).
Proof.
  induction k as [|k IH]; [reflexivity|]. cbn [replicate for_each].
  rewrite run_bind. cbn [call_listener]. rewrite relay_image_run. cbn iota beta. rewrite IH. reflexivity.
Qed.

(** ** What a socket receives *)

Lemma received_app sid o1 o2 : received sid (o1 ++ o2) = received sid o1 ++ received sid o2.
Proof. unfold received. apply omap_app. Qed.

Lemma received_map sid to (ms : list (string * wire_body)) :
  sid ∈ to -> received sid (map (fun m => EBroadcast to m.1 m.2) ms) = ms.
Proof.
  intros Hin. induction ms as [|[tag b] ms IH]; [done|].
  unfold received in *. cbn. rewrite decide_True by done. by f_equal.
Qed.

Lemma received_replicate sid to k (ms : list (string * wire_body)) :
  sid ∈ to ->
  received sid (concat (replicate k (map (fun m => EBroadcast to m.1 m.2) ms))) = concat (replicate k ms).
Proof.
  intros Hin. induction k as [|k IH]; [done|]. cbn [replicate concat].
  by rewrite received_app, IH, received_map.
Qed.

(** Each of [k] rounds broadcasting an event and the status reaches [sid]. *)
Lemma received_pairs sid to k t1 b1 t2 b2 :
  sid ∈ to ->
  received sid (concat (replicate k [EBroadcast to t1 b1; EBroadcast to t2 b2])) = concat (replicate k [(t1, b1); (t2, b2)]).
Proof. intros Hin. exact (received_replicate sid to k [(t1, b1); (t2, b2)] Hin). Qed.

(** ** Properties of the whole process *)

(** C14. A [startFeeding] message from a connected client before the
    board's [ready] event makes [startFeeder] throw at [servo.max()]; the
    exception is uncaught and the process terminates. *)
Theorem startFeeding_before_ready_crashes w sid :
  servo_v (gpio w) = None -> feed_timer (gpio w) = None -> sid ∈ sockets w ->
  step (Running w) (ClientEmit sid "startFeeding") =
    (Crashed (TypeError "Cannot read properties of undefined (reading 'max')") w, []).
Proof.
  intros Hs Ht Hin. unfold step, handle. sew_run.
  rewrite decide_True by done. simpl. unfold on_startFeeding. simpl.
  by rewrite startFeeder_run_not_ready.
Qed.

(** C15. io.js registers its listeners once per connection and never
    removes them: with [k] connections made so far, one [frameLoaded]
    event broadcasts the image [k] times (and the status [k] times) to every
    connected socket, instead of once. *)
Theorem frame_broadcast_per_connection k p w f :
  registry (emitter w) = concat (replicate k io_listeners) ->
  exists o, sys_emit (S f) "frameLoaded" p w = (inr tt, w, o) /\
    forall sid, sid ∈ sockets w ->
      received sid o = concat (replicate k
        [("image", ImageBody (now (node w)) (p_cameraImage p) (p_message p) (p_status p));
         ("info", InfoBody (now (node w)) (negb (feeding w)) (negb (recording w)))]).
Proof.
  intros Hr. unfold sys_emit. cbn [emit]. rewrite run_bind. cbn [getw sew_get].
  rewrite Hr, listeners_of_connections.
  change (listeners_of "frameLoaded" io_listeners) with [RelayImage].
  rewrite concat_replicate_single, for_each_relay_image.
  eexists. split; [reflexivity|]. intros sid Hin. by apply received_pairs.
Qed.

(** ** Concrete runs *)

Definition w_connected : world :=
  match fst (run (boot sample_config 0) [Connect 1 "10.0.0.2"]) with
  | Running w => w | Crashed _ w => w
  end.

Lemma startFeeding_before_ready_crashes_witness :
  step (Running w_connected) (ClientEmit 1 "startFeeding") =
    (Crashed (TypeError "Cannot read properties of undefined (reading 'max')") w_connected, []).
Proof. apply startFeeding_before_ready_crashes; [reflexivity | reflexivity | vm_compute; left]. Defined.

Definition w_two_clients : world :=
  match fst (run (boot sample_config 0) [Connect 1 "10.0.0.2"; Connect 2 "10.0.0.3"; Disconnect 1]) with
  | Running w => w | Crashed _ w => w
  end.

Lemma frame_broadcast_per_connection_witness :
  exists o, sys_emit 2 "frameLoaded" (mkPayload (Some "QUI=") "New frame received" "success") w_two_clients =
    (inr tt, w_two_clients, o) /\
    received 2 o =
      [("image", ImageBody 0 (Some "QUI=") "New frame received" "success"); ("info", InfoBody 0 true true);
       ("image", ImageBody 0 (Some "QUI=") "New frame received" "success"); ("info", InfoBody 0 true true)].
Proof.
  destruct (frame_broadcast_per_connection 2 (mkPayload (Some "QUI=") "New frame received" "success") w_two_clients 1)
    as (o & E & H); [vm_compute; reflexivity|].
  exists o. split; [exact E|]. rewrite (H 2); [vm_compute; reflexivity|].
  apply (bool_decide_unpack _). vm_compute. reflexivity.
Defined.
