(* ===== verification/Invariant.v ===== *)
(** * Invariant: what holds in every reachable state of the process

    [sys_inv] gathers: the emitter's registry is [k] copies of io.js's six
    registrations ([k] connections so far); the gpio invariant of Gpio.v;
    timer and handle ids are unique and below the handle counter; and the
    speech timer, when set, belongs to a recording and names no pending
    timer other than a [stopSpeechRecording] one; a pending [stopFeeder]
    timer is due within the feeder's delay from now; pending fs requests
    have handles below the counter.  Each handler preserves it, so it holds
    in every reachable running state.  The file also runs the timer loop
    ([fire_timers_run]: its fuel drains every due timer, callbacks only
    remove timers) and shows which events only reach relays. *)

From Stdlib Require Import String ZArith.
From stdpp Require Import base list strings gmap.
From S2P Require Import Prelude Runtime Emitter Gpio JsString Speech Base64 Camera Raspi Io System.

Open Scope string_scope.
Open Scope list_scope.

Definition registry_inv (w : world) : Prop :=
  exists k, registry (emitter w) = concat (replicate k io_listeners).

Definition ids_fresh (w : world) : Prop :=
  NoDup (map t_id (timers (node w))) /\
  Forall (fun x => t_id x < next_id (node w)) (timers (node w)) /\
  (forall t, speech_timer_v (speech w) = Some t -> t < next_id (node w)) /\
  (forall t, feed_timer (gpio w) = Some t -> t < next_id (node w)).

Definition speech_inv (w : world) : Prop :=
  forall t, speech_timer_v (speech w) = Some t ->
    (exists r, recording_v (speech w) = Some r) /\
    Forall (fun x => t_id x = t -> t_cb x = StopSpeechCb) (timers (node w)).

(** A pending [stopFeeder] timer is due at most [raspi.feeder.timer] ms
    (as [setTimeout] clamps it) from now: it was armed in the past. *)
Definition due_ok (w : world) : Prop :=
  Forall (fun x => t_cb x = StopFeederCb -> (t_due x <= now (node w) + timer_delay (feeder_timer (cfg w)))%Z)
    (timers (node w)).

(** Pending fs requests have handles below the counter, so a new request's
    handle names it alone. *)
Definition fs_fresh (w : world) : Prop :=
  Forall (fun p => p.1 < next_id (node w)) (fs_pending (node w)).

Record sys_inv (w : world) : Prop := {
  inv_registry : registry_inv w;
  inv_gpio : gpio_inv w;
  inv_ids : ids_fresh w;
  inv_speech : speech_inv w;
  inv_due : due_ok w;
  inv_fs : fs_fresh w;
}.

(** ** State lemmas *)

(** Fewer timers, a later clock and the same configuration keep [due_ok]. *)
Lemma due_ok_mono w w' :
  (forall y, y ∈ timers (node w') -> y ∈ timers (node w)) ->
  (now (node w) <= now (node w'))%Z -> cfg w' = cfg w -> due_ok w -> due_ok w'.
Proof.
  intros Hsub Hle Ec Hd. unfold due_ok in *. rewrite Ec. apply Forall_forall. intros y Hy Hc.
  rewrite Forall_forall in Hd. specialize (Hd y (Hsub y Hy) Hc). lia.
Qed.

Lemma due_ok_filter w w' (P : timeout -> Prop) `{forall x, Decision (P x)} :
  timers (node w') = filter P (timers (node w)) ->
  (now (node w) <= now (node w'))%Z -> cfg w' = cfg w -> due_ok w -> due_ok w'.
Proof.
  intros Et. apply due_ok_mono. rewrite Et. intros y Hy. by apply list_elem_of_filter in Hy as [_ ?].
Qed.

(** A state that agrees with an invariant one on everything but the fs
    requests, with a handle counter that has not gone down, and fresh fs
    requests. *)
Lemma sys_inv_frame_fs w w' :
  sys_inv w ->
  registry (emitter w') = registry (emitter w) -> gpio w' = gpio w -> speech w' = speech w ->
  timers (node w') = timers (node w) -> next_id (node w) <= next_id (node w') ->
  now (node w') = now (node w) -> cfg w' = cfg w -> fs_fresh w' ->
  sys_inv w'.
Proof.
  intros [[k Hk] Hg [Hnd [Hlt [Hs Hf]]] Hsp Hd Hfs] Er Eg Es Et En Enow Ec Hfs'.
  split; [| | | | |exact Hfs'].
  - exists k. by rewrite Er.
  - unfold gpio_inv, pending_with in *. by rewrite Eg, Et.
  - unfold ids_fresh. rewrite Et, Es, Eg. split; [done|]. split; [|split].
    + eapply Forall_impl; [exact Hlt|]. simpl. lia.
    + intros t Ht. specialize (Hs t Ht). lia.
    + intros t Ht. specialize (Hf t Ht). lia.
  - unfold speech_inv. intros t Ht. rewrite Et. rewrite Es in Ht. rewrite Es. by apply Hsp.
  - apply (due_ok_mono w); [by rewrite Et|lia|done|done].
Qed.

(** A state that agrees with an invariant one on everything the invariant
    reads, with a handle counter that has not gone down. *)
Lemma sys_inv_frame w w' :
  sys_inv w ->
  registry (emitter w') = registry (emitter w) -> gpio w' = gpio w -> speech w' = speech w ->
  timers (node w') = timers (node w) -> next_id (node w) <= next_id (node w') ->
  now (node w') = now (node w) -> cfg w' = cfg w -> fs_pending (node w') = fs_pending (node w) ->
  sys_inv w'.
Proof.
  intros Hw Er Eg Es Et En Enow Ec Ep. apply (sys_inv_frame_fs w); try done.
  unfold fs_fresh. rewrite Ep. eapply Forall_impl; [apply (inv_fs w Hw)|]. simpl. lia.
Qed.

Lemma NoDup_snoc_fresh (l : list nat) n : NoDup l -> Forall (fun x => x < n) l -> NoDup (l ++ [n]).
Proof.
  intros Hnd Hlt. apply NoDup_app. split; [done|]. split; [|apply NoDup_singleton].
  intros x Hx ->%list_elem_of_singleton. rewrite Forall_forall in Hlt.
  specialize (Hlt _ Hx). lia.
Qed.

(** Adding a timer with a fresh id keeps the ids unique and below the counter. *)
Lemma ids_add_fresh (ts : list timeout) n x :
  NoDup (map t_id ts) -> Forall (fun y => t_id y < n) ts -> t_id x = n ->
  NoDup (map t_id (ts ++ [x])) /\ Forall (fun y => t_id y < S n) (ts ++ [x]).
Proof.
  intros Hnd Hlt Hx. split.
  - rewrite map_app. simpl. rewrite Hx. apply NoDup_snoc_fresh; [done|].
    by apply Forall_map.
  - apply Forall_app. split; [eapply Forall_impl; [exact Hlt|]; simpl; lia|].
    constructor; [lia|done].
Qed.

(** Removing timers keeps the ids unique and below the counter. *)
Lemma ids_filter (ts : list timeout) n (P : timeout -> Prop) `{forall x, Decision (P x)} :
  NoDup (map t_id ts) -> Forall (fun y => t_id y < n) ts ->
  NoDup (map t_id (filter P ts)) /\ Forall (fun y => t_id y < n) (filter P ts).
Proof.
  intros Hnd Hlt. split.
  - induction ts as [|y ts IH]; [constructor|]. simpl in Hnd. apply NoDup_cons in Hnd as [Hy Hnd].
    apply Forall_cons in Hlt as [_ Hlt]. rewrite filter_cons.
    destruct (decide (P y)); [|by apply IH]. simpl. constructor; [|by apply IH].
    intros Hin. apply Hy. apply list_elem_of_In in Hin. apply list_elem_of_In.
    apply in_map_iff in Hin as (z & Hz & Hin). apply in_map_iff. exists z. split; [done|].
    apply list_elem_of_In in Hin. apply list_elem_of_In. by apply list_elem_of_filter in Hin as [_ ?].
  - apply Forall_forall. intros y Hy. apply list_elem_of_filter in Hy as [_ Hy].
    rewrite Forall_forall in Hlt. by apply Hlt.
Qed.

Lemma pending_feeder_snoc_speech w x :
  t_cb x = StopSpeechCb ->
  filter (fun t => t_cb t = StopFeederCb) (timers (node w) ++ [x]) = pending_with StopFeederCb w.
Proof.
  intros Hx. unfold pending_with. rewrite filter_app, filter_cons_False by (by rewrite Hx).
  by rewrite app_nil_r.
Qed.

Lemma filter_feeder_not_speech (ts : list timeout) t :
  Forall (fun x => t_id x = t -> t_cb x = StopSpeechCb) ts ->
  filter (fun x => t_id x ≠ t) (filter (fun x => t_cb x = StopFeederCb) ts) =
    filter (fun x => t_cb x = StopFeederCb) ts.
Proof.
  induction ts as [|y ts IH]; intros Hf; [done|]. apply Forall_cons in Hf as [Hy Hf].
  rewrite !filter_cons. destruct (decide (t_cb y = StopFeederCb)) as [Hc|Hc]; [|by apply IH].
  rewrite filter_cons_True; [by rewrite IH|].
  intros Hid. specialize (Hy Hid). congruence.
Qed.

Lemma Forall_filter_keep {A} (P : A -> Prop) (Q : A -> Prop) `{forall x, Decision (Q x)} l :
  Forall P l -> Forall P (filter Q l).
Proof.
  intros Hl. apply Forall_forall. intros y Hy. apply list_elem_of_filter in Hy as [_ Hy].
  rewrite Forall_forall in Hl. by apply Hl.
Qed.

Lemma inv_opened w s :
  sys_inv w -> feed_timer (gpio w) = None -> sys_inv (opened w s).
Proof.
  intros [Hr Hg [Hnd [Hlt [Hs Hf]]] Hsp Hd Hfs] Hn.
  destruct (ids_add_fresh (timers (node w)) (next_id (node w))
              (mkTimeout (next_id (node w)) (now (node w) + timer_delay (feeder_timer (cfg w)))%Z StopFeederCb)
              Hnd Hlt eq_refl) as [Hnd' Hlt'].
  split.
  - exact Hr.
  - by apply gpio_inv_opened.
  - split; [exact Hnd'|]. split; [exact Hlt'|]. simpl. split.
    + intros t Ht. specialize (Hs t Ht). lia.
    + intros t [= <-]. lia.
  - intros t Ht. simpl in Ht. destruct (Hsp t Ht) as [Hrec Hall]. split; [exact Hrec|].
    simpl. apply Forall_app. split; [exact Hall|]. constructor; [|done].
    simpl. intros <-. specialize (Hs _ Ht). lia.
  - unfold due_ok in *. simpl. apply Forall_app. split; [exact Hd|]. constructor; [simpl; lia|done].
  - unfold fs_fresh in *. simpl. eapply Forall_impl; [exact Hfs|]. simpl. lia.
Qed.

Lemma inv_closed w s t :
  sys_inv w -> feed_timer (gpio w) = Some t -> sys_inv (closed w s t).
Proof.
  intros [Hr Hg [Hnd [Hlt [Hs Hf]]] Hsp Hd Hfs] Ht.
  destruct (ids_filter (timers (node w)) (next_id (node w)) (fun x => t_id x ≠ t) Hnd Hlt) as [Hnd' Hlt'].
  split.
  - exact Hr.
  - by apply gpio_inv_closed.
  - split; [exact Hnd'|]. split; [exact Hlt'|]. simpl. split; [exact Hs|]. done.
  - intros t' Ht'. simpl in Ht'. destruct (Hsp t' Ht') as [Hrec Hall]. split; [exact Hrec|].
    by apply Forall_filter_keep.
  - by apply (due_ok_filter w _ (fun x => t_id x ≠ t)).
  - exact Hfs.
Qed.

Lemma inv_rec_started w : sys_inv w -> sys_inv (rec_started w).
Proof.
  intros [Hr Hg [Hnd [Hlt [Hs Hf]]] Hsp Hd Hfs].
  set (x := mkTimeout (S (S (next_id (node w)))) (now (node w) + timer_delay (speech_timer (cfg w)))%Z StopSpeechCb).
  assert (Hlt2 : Forall (fun y => t_id y < S (S (next_id (node w)))) (timers (node w))).
  { eapply Forall_impl; [exact Hlt|]. simpl. lia. }
  destruct (ids_add_fresh (timers (node w)) (S (S (next_id (node w)))) x Hnd Hlt2 eq_refl) as [Hnd' Hlt'].
  split.
  - exact Hr.
  - unfold gpio_inv in *. simpl.
    change (pending_with StopFeederCb (rec_started w)) with
      (filter (fun t => t_cb t = StopFeederCb) (timers (node w) ++ [x])).
    rewrite (pending_feeder_snoc_speech w x eq_refl). exact Hg.
  - split; [exact Hnd'|]. split; [exact Hlt'|]. simpl. split.
    + intros t [= <-]. lia.
    + intros t Ht. specialize (Hf t Ht). lia.
  - intros t Ht. simpl in Ht. injection Ht as <-. split; [by eexists|].
    simpl. apply Forall_app. split; [|constructor; [done|constructor]].
    eapply Forall_impl; [exact Hlt|]. simpl. intros y Hy Heq. lia.
  - unfold due_ok in *. simpl. apply Forall_app. split; [exact Hd|]. by constructor.
  - unfold fs_fresh in *. simpl. eapply Forall_impl; [exact Hfs|]. simpl. lia.
Qed.

Lemma inv_rec_stopped w r t :
  sys_inv w -> speech_timer_v (speech w) = Some t -> sys_inv (rec_stopped w r t).
Proof.
  intros [Hr Hg [Hnd [Hlt [Hs Hf]]] Hsp Hd Hfs] Ht.
  destruct (Hsp t Ht) as [_ Hall].
  destruct (ids_filter (timers (node w)) (next_id (node w)) (fun x => t_id x ≠ t) Hnd Hlt) as [Hnd' Hlt'].
  split.
  - exact Hr.
  - assert (Ep : pending_with StopFeederCb (rec_stopped w r t) = pending_with StopFeederCb w).
    { change (pending_with StopFeederCb (rec_stopped w r t)) with
        (filter (fun x => t_cb x = StopFeederCb) (filter (fun x => t_id x ≠ t) (timers (node w)))).
      unfold pending_with. rewrite <- (filter_feeder_not_speech _ _ Hall), !list_filter_filter.
      apply list_filter_iff. intros; tauto. }
    unfold gpio_inv. rewrite Ep. change (gpio (rec_stopped w r t)) with (gpio w). exact Hg.
  - split; [exact Hnd'|]. split; [exact Hlt'|]. simpl. split; [done|exact Hf].
  - intros t' Ht'. discriminate.
  - by apply (due_ok_filter w _ (fun x => t_id x ≠ t)).
  - exact Hfs.
Qed.

(** ** The handlers preserve the invariant, given an emitter that does *)

Section Handlers.
Variable em : string -> payload -> M unit.
Hypothesis em_inv : forall n p, preserves sys_inv (em n p).

Lemma startFeeder_inv : preserves sys_inv (startFeeder em).
Proof.
  intros w Hw. destruct (feed_timer (gpio w)) as [t|] eqn:Ht.
  - by rewrite startFeeder_run_busy by (unfold feeding; by rewrite Ht).
  - destruct (servo_v (gpio w)) as [s|] eqn:Hs; [|by rewrite startFeeder_run_not_ready].
    rewrite (st_of_tail _ _ _ _ _ (startFeeder_run_idle em w s Ht Hs)).
    apply em_inv. by apply inv_opened.
Qed.

Lemma stopFeeder_inv : preserves sys_inv (stopFeeder em).
Proof.
  intros w Hw. destruct (feed_timer (gpio w)) as [t|] eqn:Ht.
  - pose proof (inv_gpio w Hw) as Hg. unfold gpio_inv in Hg. rewrite Ht in Hg.
    destruct Hg as [[pin Hs] _].
    rewrite (st_of_tail _ _ _ _ _ (stopFeeder_run_feeding em w _ t Ht Hs)).
    apply em_inv. by apply inv_closed.
  - by rewrite stopFeeder_run_idle by (unfold feeding; by rewrite Ht).
Qed.

Lemma startSpeechRecording_inv : preserves sys_inv (startSpeechRecording em).
Proof.
  intros w Hw. rewrite (st_of_tail _ _ _ _ _ (startSpeechRecording_run em w)).
  apply em_inv. by apply inv_rec_started.
Qed.

Lemma stopSpeechRecording_inv : preserves sys_inv (stopSpeechRecording em).
Proof.
  intros w Hw. destruct (speech_timer_v (speech w)) as [t|] eqn:Ht.
  - destruct (inv_speech w Hw t Ht) as [[r Hr] _].
    rewrite (st_of_tail _ _ _ _ _ (stopSpeechRecording_run em w r t Ht Hr)).
    apply em_inv. by apply inv_rec_stopped.
  - by rewrite stopSpeechRecording_run_idle by (unfold recording; by rewrite Ht).
Qed.

Lemma on_recognize_data_inv d : preserves sys_inv (on_recognize_data em d).
Proof.
  intros w Hw. destruct (head (results d) ≫= (fun r => head (alternatives r))) as [a|] eqn:Ha.
  - rewrite (on_recognize_data_run em d a w Ha).
    destruct (js_includes _ _); [|done].
    unfold st_of. pose proof (em_inv "speechRecordingRecognized" (msg_payload "Speech recording recognized" "success") w Hw) as He.
    unfold st_of in He. by destruct (em _ _ _) as [[r w2] o].
  - unfold on_recognize_data. rewrite Ha. done.
Qed.
End Handlers.

(** ** The emitter, connections, timers and the file system *)

Lemma sys_emit_inv f : forall n p, preserves sys_inv (sys_emit f n p).
Proof.
  induction f as [|f IH]; intros n p; [apply preserves_throw|].
  unfold sys_emit. cbn [emit]. apply preserves_bind; [apply preserves_get|]. intros w.
  apply preserves_for_each. intros l _. destruct l as [tag| |]; cbn [call_listener].
  - apply preserves_id. intros w'. reflexivity.
  - apply preserves_id. intros w'. reflexivity.
  - apply startFeeder_inv. exact IH.
Qed.

Lemma on_run name l w :
  exists ws o, on name l w = (inr tt, set_emitter (mkEmitter (registry (emitter w) ++ [(name, l)]) ws) w, o).
Proof. unfold on. sew_run. destruct (decide _); eexists _, _; reflexivity. Qed.

Lemma for_each_on_run L w :
  exists ws o, for_each (fun nl => on nl.1 nl.2) L w =
    (inr tt, set_emitter (mkEmitter (registry (emitter w) ++ L) ws) w, o).
Proof.
  revert w. induction L as [|[n l] L IH]; intros w.
  - exists (warned (emitter w)), []. rewrite app_nil_r. by destruct w as [? ? ? ? ? [] ?].
  - cbn [for_each fst snd]. rewrite run_bind. destruct (on_run n l w) as (ws & o & ->).
    destruct (IH (set_emitter (mkEmitter (registry (emitter w) ++ [(n, l)]) ws) w)) as (ws' & o' & E).
    rewrite E. exists ws', (o ++ o'). simpl. by rewrite <- app_assoc.
Qed.

Lemma concat_replicate_snoc {A} (l : list A) k : concat (replicate k l) ++ l = concat (replicate (S k) l).
Proof.
  induction k as [|k IH]; simpl; [by rewrite app_nil_r|]. by rewrite <- app_assoc, IH.
Qed.

(** [onSocketConnected] returns normally and adds one copy of the listeners. *)
Lemma onSocketConnected_run addr w :
  exists ws o, @onSocketConnected sys_raspi addr w =
    (inr tt, set_emitter (mkEmitter (registry (emitter w) ++ io_listeners) ws) w, o).
Proof.
  unfold onSocketConnected. rewrite run_bind. cbn [log sew_tell].
  rewrite run_bind, updateInfo_run. cbn iota beta.
  destruct (for_each_on_run io_listeners w) as (ws & o & ->). by eexists _, _.
Qed.

Lemma registry_inv_connected w ws :
  registry_inv w -> registry_inv (set_emitter (mkEmitter (registry (emitter w) ++ io_listeners) ws) w).
Proof. intros [k Hk]. exists (S k). simpl. by rewrite Hk, concat_replicate_snoc. Qed.

Lemma onSocketConnected_inv addr : preserves sys_inv (@onSocketConnected sys_raspi addr).
Proof.
  intros w Hw. destruct (onSocketConnected_run addr w) as (ws & o & ->). unfold st_of. simpl.
  destruct Hw as [Hk Hg Hi Hs Hd Hfs]. split; try done. by apply registry_inv_connected.
Qed.

Lemma earliest_in ts x : earliest ts = Some x -> x ∈ ts.
Proof.
  induction ts as [|t ts IH]; simpl; [done|].
  destruct (earliest ts) as [t'|]; [|intros [= ->]; constructor].
  destruct (t_due t' <? t_due t)%Z; intros [= ->]; [constructor; by apply IH | constructor].
Qed.

Lemma next_due_in target w x : next_due target w = Some x -> x ∈ timers (node w).
Proof.
  unfold next_due. destruct (earliest _) as [t|] eqn:E; [|done].
  destruct (_ <=? _)%Z; intros [= <-]. by apply earliest_in.
Qed.

Lemma next_due_le target w x : next_due target w = Some x -> (t_due x <= target)%Z.
Proof.
  unfold next_due. destruct (earliest _) as [t|]; [|done].
  destruct (_ <=? _)%Z eqn:E; intros [= <-]. by apply Z.leb_le.
Qed.

(** [earliest] finds a timer due no later than any pending one. *)
Lemma earliest_min ts y : y ∈ ts -> exists e, earliest ts = Some e /\ (t_due e <= t_due y)%Z.
Proof.
  induction ts as [|t ts IH]; intros Hy; [by apply elem_of_nil in Hy|]. cbn [earliest].
  apply elem_of_cons in Hy as [->|Hy].
  - destruct (earliest ts) as [t'|]; [|eexists; split; [done|lia]].
    destruct (t_due t' <? t_due t)%Z eqn:E; [apply Z.ltb_lt in E|]; eexists; split; try done; lia.
  - destruct (IH Hy) as (e & -> & He).
    destruct (t_due e <? t_due t)%Z eqn:E; [apply Z.ltb_lt in E|apply Z.ltb_ge in E];
      eexists; split; try done; lia.
Qed.

(** ** The emitter's registry *)

(** What a listener io.js registered for [name] is. *)
Lemma io_listeners_cases name l :
  l ∈ listeners_of name io_listeners ->
  (exists tag, l = RelayEvent tag) \/ l = RelayImage \/
  (l = OnRecognized /\ name = "speechRecordingRecognized").
Proof.
  unfold listeners_of, io_listeners. cbn [filter list_filter].
  repeat case_decide; cbn; intros Hl;
    repeat (apply elem_of_cons in Hl as [->|Hl]; [naive_solver|]); by apply elem_of_nil in Hl.
Qed.

Lemma registered_cases w name l :
  registry_inv w -> l ∈ listeners_of name (registry (emitter w)) ->
  (exists tag, l = RelayEvent tag) \/ l = RelayImage \/
  (l = OnRecognized /\ name = "speechRecordingRecognized").
Proof.
  intros [k ->]. rewrite listeners_of_connections.
  intros Hl%elem_of_concat_replicate. by apply io_listeners_cases.
Qed.

(** One level of [emit]: the listeners run against the emitter one frame down. *)
Lemma sys_emit_unfold f name p :
  sys_emit (S f) name p =
    (w ← getw; for_each (fun l => @call_listener (raspi_api (sys_emit f)) l p) (listeners_of name (registry (emitter w)))).
Proof. reflexivity. Qed.

(** Every event but [speechRecordingRecognized] only reaches relays, which
    broadcast and change nothing. *)
Lemma relays_run f name p w :
  registry_inv w -> name <> "speechRecordingRecognized" ->
  exists o, sys_emit (S f) name p w = (inr tt, w, o).
Proof.
  intros Hr Hn. unfold sys_emit. cbn [emit]. rewrite run_bind. cbn [getw sew_get].
  destruct (for_each_const (fun l => @call_listener (raspi_api (emit (fun em l p => @call_listener (raspi_api em) l p) f)) l p)
              (listeners_of name (registry (emitter w))) w) as [o ->]; [|by exists o].
  intros l Hin. destruct (registered_cases w name l Hr Hin) as [[tag ->]|[->|[_ ?]]]; [| |done];
    eexists; reflexivity.
Qed.

(** ** Timers firing *)

Definition fired (x : timeout) (d : Z) (w : world) : world :=
  set_node (remove_timer (t_id x) (set_now d (node w))) w.

(** The clock moves forward. *)
Lemma clock_inv w d : sys_inv w -> (now (node w) <= d)%Z -> sys_inv (set_node (set_now d (node w)) w).
Proof.
  intros [Hr Hg Hi Hs Hd] Hle. split; try done.
  apply (due_ok_mono w); [done|simpl; lia|done|done].
Qed.

Lemma inv_fired_speech w x d :
  sys_inv w -> (now (node w) <= d)%Z -> x ∈ timers (node w) -> t_cb x = StopSpeechCb -> sys_inv (fired x d w).
Proof.
  intros [Hr Hg [Hnd [Hlt [Hs Hf]]] Hsp Hd Hfs] Hle Hx Hc.
  destruct (ids_filter (timers (node w)) (next_id (node w)) (fun y => t_id y ≠ t_id x) Hnd Hlt) as [Hnd' Hlt'].
  split; [exact Hr| | | | |].
  - assert (Hall : Forall (fun y => t_id y = t_id x -> t_cb y = StopSpeechCb) (timers (node w))).
    { apply Forall_forall. intros y Hy Hid. enough (y = x) by congruence.
      eapply NoDup_map_eq; [exact Hnd| | |]; try done; by apply list_elem_of_In. }
    unfold gpio_inv in *.
    change (pending_with StopFeederCb (fired x d w)) with
      (filter (fun y => t_cb y = StopFeederCb) (filter (fun y => t_id y ≠ t_id x) (timers (node w)))).
    rewrite list_filter_filter. unfold pending_with in Hg. rewrite <- (filter_feeder_not_speech _ _ Hall), list_filter_filter in Hg.
    erewrite list_filter_iff; [exact Hg|]. intros; tauto.
  - split; [exact Hnd'|]. split; [exact Hlt'|]. by split.
  - intros t Ht. destruct (Hsp t Ht) as [Hrec Hall]. split; [exact Hrec|]. by apply Forall_filter_keep.
  - by apply (due_ok_filter w _ (fun y => t_id y ≠ t_id x)).
  - exact Hfs.
Qed.

(** What running a fired timer's callback guarantees: the invariant, the
    clock at the fired time, the same configuration, only timers removed
    (the fired one among them), and no other [stopFeeder] timer removed. *)
Definition callback_post (w : world) (x : timeout) (d : Z) (w' : world) : Prop :=
  sys_inv w' /\ now (node w') = d /\ cfg w' = cfg w /\
  (forall y, y ∈ timers (node w') -> y ∈ timers (node w) /\ t_id y ≠ t_id x) /\
  (forall y, y ∈ timers (node w) -> t_cb y = StopFeederCb -> t_id y ≠ t_id x -> y ∈ timers (node w')).

Lemma callback_post_filter w x d w' (P : timeout -> Prop) `{forall y, Decision (P y)} :
  sys_inv w' -> now (node w') = d -> cfg w' = cfg w ->
  timers (node w') = filter P (filter (fun y => t_id y ≠ t_id x) (timers (node w))) ->
  (forall y, y ∈ timers (node w) -> t_cb y = StopFeederCb -> t_id y ≠ t_id x -> P y) ->
  callback_post w x d w'.
Proof.
  intros Hw' Hn Hc Et Hk. split; [done|]. split; [done|]. split; [done|]. rewrite Et. split.
  - intros y Hy. apply list_elem_of_filter in Hy as [_ Hy]. apply list_elem_of_filter in Hy. tauto.
  - intros y Hy Hcy Hid. apply list_elem_of_filter. split; [by apply Hk|]. by apply list_elem_of_filter.
Qed.

(** The fired timer is the feeder's: [stopFeeder] closes the gate, and
    [feedingStopped] only reaches relays. *)
Lemma stopFeeder_fired_run w x d :
  sys_inv w -> (now (node w) <= d)%Z -> x ∈ timers (node w) -> t_cb x = StopFeederCb ->
  exists w' o, stopFeeder (sys_emit 2) (fired x d w) = (inr tt, w', o) /\ callback_post w x d w'.
Proof.
  intros Hw Hle Hx Hc. pose proof (inv_gpio w Hw) as Hg. unfold gpio_inv in Hg.
  assert (Hp : x ∈ pending_with StopFeederCb w) by (by apply list_elem_of_filter).
  destruct (feed_timer (gpio w)) as [t|] eqn:Ht; [|destruct Hg as [_ Hg]; rewrite Hg in Hp; by apply elem_of_nil in Hp].
  destruct Hg as [[pin Hs] Hm].
  assert (Hxt : t_id x = t).
  { apply list_elem_of_In, (in_map t_id) in Hp. rewrite Hm in Hp. by destruct Hp as [<-|[]]. }
  rewrite (stopFeeder_run_feeding _ (fired x d w) _ t Ht Hs).
  destruct (relays_run 1 "feedingStopped" (msg_payload "Feeding stopped" "success")
              (closed (fired x d w) (mkServo pin servo_range_max) t) (inv_registry w Hw)) as [o ->]; [done|].
  eexists _, _. split; [reflexivity|]. apply (callback_post_filter _ _ _ _ (fun y => t_id y ≠ t)); try done.
  - apply (sys_inv_frame (set_node (set_now d (node (closed w (mkServo pin servo_range_max) t)))
                           (closed w (mkServo pin servo_range_max) t))); try done.
    + apply clock_inv; [by apply inv_closed|done].
    + simpl. rewrite Hxt, list_filter_filter. apply list_filter_iff. intros; tauto.
  - intros y _ _ Hid. congruence.
Qed.

(** The fired timer is a speech timer: [stopSpeechRecording] stops the
    recording in progress, if any, and [speechRecordingStopped] only
    reaches relays. *)
Lemma stopSpeech_fired_run w x d :
  sys_inv w -> (now (node w) <= d)%Z -> x ∈ timers (node w) -> t_cb x = StopSpeechCb ->
  exists w' o, stopSpeechRecording (sys_emit 2) (fired x d w) = (inr tt, w', o) /\ callback_post w x d w'.
Proof.
  intros Hw Hle Hx Hc. pose proof (inv_fired_speech w x d Hw Hle Hx Hc) as Hf.
  destruct (speech_timer_v (speech w)) as [t|] eqn:Ht.
  - destruct (inv_speech w Hw t Ht) as [[r Hrec] Hall].
    rewrite (stopSpeechRecording_run _ (fired x d w) r t Ht Hrec).
    destruct (relays_run 1 "speechRecordingStopped" (msg_payload "Speech recording stopped" "success")
                (rec_stopped (fired x d w) r t) (inv_registry w Hw)) as [o ->]; [done|].
    eexists _, _. split; [reflexivity|]. apply (callback_post_filter _ _ _ _ (fun y => t_id y ≠ t)); try done.
    + by apply inv_rec_stopped.
    + intros y Hy Hcy _ Hyt. rewrite Forall_forall in Hall. specialize (Hall y Hy Hyt). congruence.
  - rewrite stopSpeechRecording_run_idle by (unfold recording; simpl; by rewrite Ht).
    eexists _, _. split; [reflexivity|]. apply (callback_post_filter _ _ _ _ (fun y => t_id y ≠ t_id x)); try done.
    simpl. rewrite list_filter_filter. apply list_filter_iff. intros; tauto.
Qed.

(** A timer's callback, run once the timer is removed and the clock set to
    [d], returns normally with [callback_post]. *)
Lemma callback_run w x d :
  sys_inv w -> (now (node w) <= d)%Z -> x ∈ timers (node w) ->
  exists w' o, run_callback (t_cb x) (fired x d w) = (inr tt, w', o) /\ callback_post w x d w'.
Proof.
  intros Hw Hle Hx. destruct (t_cb x) eqn:Hc; cbn [run_callback]; unfold emit_depth.
  - by apply stopFeeder_fired_run.
  - by apply stopSpeech_fired_run.
Qed.

(** Removing a timer and keeping only some of the others shortens the list. *)
Lemma timers_shrink (ts ts' : list timeout) x :
  NoDup (map t_id ts') -> x ∈ ts ->
  (forall y, y ∈ ts' -> y ∈ ts /\ t_id y ≠ t_id x) -> length ts' < length ts.
Proof.
  intros Hnd Hx Hsub. eapply Nat.le_lt_trans; [|apply (length_filter_lt (fun y => t_id y ≠ t_id x) ts x Hx); tauto].
  apply submseteq_length, NoDup_submseteq; [by eapply NoDup_of_map|].
  intros y Hy. apply list_elem_of_filter. destruct (Hsub y Hy). tauto.
Qed.

(** [fire_timers] with more fuel than pending timers runs every timer due by
    [target]: it returns normally with none left due, having only removed
    timers and moved the clock forward, not beyond [target]. *)
Lemma fire_timers_run fuel target w :
  sys_inv w -> (now (node w) <= target)%Z -> length (timers (node w)) < fuel ->
  exists w' o, fire_timers fuel target w = (inr tt, w', o) /\ sys_inv w' /\
    (now (node w) <= now (node w') <= target)%Z /\ cfg w' = cfg w /\
    (forall y, y ∈ timers (node w') -> y ∈ timers (node w)) /\ next_due target w' = None /\
    (forall y, y ∈ timers (node w) -> t_cb y = StopFeederCb -> (target < t_due y)%Z -> y ∈ timers (node w')).
Proof.
  revert w. induction fuel as [|f IH]; intros w Hw Hle Hlen; [lia|].
  cbn [fire_timers]. rewrite run_bind. cbn [getw sew_get].
  destruct (next_due target w) as [x|] eqn:Hx; [|exists w, []; split; [done|]; split; [done|]; split; [lia|done]].
  pose proof (next_due_in _ _ _ Hx) as Hin. pose proof (next_due_le _ _ _ Hx) as Hdue.
  rewrite run_bind. cbn [sew_modify]. cbn iota beta. rewrite run_bind.
  set (w1 := set_node _ w). change w1 with (fired x (Z.max (now (node w)) (t_due x)) w).
  destruct (callback_run w x (Z.max (now (node w)) (t_due x)) Hw ltac:(lia) Hin)
    as (w2 & o2 & -> & Hw2 & Hn2 & Hc2 & Hs2 & Hk2).
  destruct (IH w2 Hw2) as (w3 & o3 & -> & Hw3 & Hn3 & Hc3 & Hs3 & Hnd3 & Hk3); [lia| |].
  - eapply Nat.lt_le_trans; [|apply le_S_n, Hlen].
    apply (timers_shrink _ _ x); [apply Hw2|done|done].
  - eexists _, _. split; [reflexivity|]. split; [done|]. split; [lia|]. split; [congruence|].
    split; [intros y Hy; by apply Hs2, Hs3|]. split; [done|].
    intros y Hy Hcy Hdy. apply Hk3; [|done|done]. apply Hk2; [done|done|].
    intros Hid. assert (y = x) as ->; [|lia].
    eapply NoDup_map_eq; [apply (inv_ids w Hw)| | |done]; by apply list_elem_of_In.
Qed.

(** [ms] milliseconds pass: every timer due by then has run, the clock is
    at the target. *)
Lemma elapse_run ms w :
  sys_inv w ->
  exists w' o, elapse ms w =
    (inr tt, set_node (set_now (now (node w) + Z.max 0 ms) (node w')) w', o) /\ sys_inv w' /\
    (now (node w) <= now (node w') <= now (node w) + Z.max 0 ms)%Z /\ cfg w' = cfg w /\
    (forall y, y ∈ timers (node w') -> y ∈ timers (node w)) /\
    next_due (now (node w) + Z.max 0 ms) w' = None /\
    (forall y, y ∈ timers (node w) -> t_cb y = StopFeederCb -> (now (node w) + Z.max 0 ms < t_due y)%Z ->
       y ∈ timers (node w')).
Proof.
  intros Hw. unfold elapse. rewrite run_bind. cbn [getw sew_get]. cbn zeta. rewrite run_bind.
  destruct (fire_timers_run (S (length (timers (node w)))) (now (node w) + Z.max 0 ms) w Hw)
    as (w' & o & -> & H); [lia|lia|].
  by eexists _, _.
Qed.

Lemma elapse_inv ms : preserves sys_inv (elapse ms).
Proof.
  intros w Hw. destruct (elapse_run ms w Hw) as (w' & o & -> & Hw' & Hn & _).
  apply clock_inv; [done|lia].
Qed.

(** A new fs request takes the next handle. *)
Lemma inv_with_request w op : sys_inv w -> sys_inv (with_request op w).
Proof.
  intros Hw. apply (sys_inv_frame_fs w); simpl; auto.
  unfold fs_fresh. simpl. apply Forall_app. split; [|constructor; simpl; [lia|done]].
  eapply Forall_impl; [apply (inv_fs w Hw)|]. simpl. lia.
Qed.

(** Answering a request drops it. *)
Lemma inv_drop_req w req : sys_inv w -> sys_inv (set_node (drop_req req (node w)) w).
Proof. intros Hw. apply (sys_inv_frame_fs w); simpl; auto. by apply Forall_filter_keep, (inv_fs w Hw). Qed.

Lemma fs_request_inv op : preserves sys_inv (fs_request op).
Proof. intros w Hw. change (st_of (fs_request op w)) with (with_request op w). by apply inv_with_request. Qed.

Lemma fs_unlink_inv path : preserves sys_inv (fs_unlink path).
Proof. intros w Hw. rewrite fs_unlink_run. by apply inv_with_request. Qed.

Lemma fs_readFile_inv path : preserves sys_inv (fs_readFile path).
Proof. intros w Hw. rewrite fs_readFile_run. by apply inv_with_request. Qed.

Lemma on_readFile_inv path r : preserves sys_inv (on_readFile (sys_emit emit_depth) path r).
Proof.
  destruct r as [data|]; [|apply preserves_ret].
  apply preserves_bind; [apply sys_emit_inv|]. intros _. apply fs_unlink_inv.
Qed.

Lemma log_inv lvl msg : preserves sys_inv (log lvl msg).
Proof. apply preserves_tell. Qed.

Lemma on_unlink_inv path b : preserves sys_inv (on_unlink path b).
Proof. destruct b; [apply preserves_ret | apply log_inv]. Qed.

Lemma fs_complete_inv req ok : preserves sys_inv (fs_complete req ok).
Proof.
  unfold fs_complete. apply preserves_bind; [apply preserves_get|]. intros w.
  destruct (find_req req (fs_pending (node w))) as [op|]; [|apply preserves_ret].
  apply preserves_bind; [apply preserves_modify; intros w1 H1; by apply inv_drop_req|].
  intros _. destruct op as [path|path]; [apply on_readFile_inv|].
  destruct ok, (files (node w) !! path); try apply on_unlink_inv.
  apply preserves_bind; [apply preserves_modify; intros w1 H1; apply (sys_inv_frame w1); simpl; auto|].
  intros _. apply on_unlink_inv.
Qed.

Lemma board_ready_inv : preserves sys_inv (handle BoardReady).
Proof.
  intros w Hw. unfold handle. rewrite run_bind. cbn [getw sew_get]. cbn iota beta.
  destruct (servo_v (gpio w)) as [s|] eqn:Hs; [done|].
  assert (Ht : feed_timer (gpio w) = None).
  { pose proof (inv_gpio w Hw) as Hg. unfold gpio_inv in Hg.
    destruct (feed_timer (gpio w)); [|done]. destruct Hg as [[pin Hp] _]. congruence. }
  destruct Hw as [Hr Hg [Hnd [Hlt [Hsp Hf]]] Hsi Hd Hfs]. unfold gpio_inv in Hg. rewrite Ht in Hg.
  split.
  - exact Hr.
  - unfold gpio_inv. simpl. rewrite Ht. split; [by intros ? [= <-]|]. exact (proj2 Hg).
  - split; [done|]. split; [done|]. simpl. split; [exact Hsp|]. by rewrite Ht.
  - exact Hsi.
  - exact Hd.
  - exact Hfs.
Qed.

Lemma handle_inv i : preserves sys_inv (handle i).
Proof.
  destruct i; try apply board_ready_inv; try apply elapse_inv; try apply fs_complete_inv; cbn [handle].
  all: try (apply preserves_bind; [apply preserves_get|]; intros w0).
  - destruct (decide _); [apply preserves_ret|].
    apply preserves_bind; [apply preserves_modify; intros w1 H1; apply (sys_inv_frame w1); simpl; auto|].
    intros _. apply onSocketConnected_inv.
  - apply preserves_modify. intros w1 H1. apply (sys_inv_frame w1); simpl; auto.
  - destruct (decide _); [|apply preserves_ret].
    destruct (String.eqb _ _); [apply startFeeder_inv, sys_emit_inv|].
    destruct (String.eqb _ _); [apply startSpeechRecording_inv, sys_emit_inv|apply preserves_ret].
  - destruct (decide _); [apply on_recognize_data_inv, sys_emit_inv|apply preserves_ret].
  - destruct (decide _); [apply log_inv|apply preserves_ret].
  - destruct (decide _); [apply log_inv|apply preserves_ret].
  - destruct (camera_started w0); [apply log_inv|apply preserves_ret].
  - destruct (camera_started w0); [apply log_inv|apply preserves_ret].
  - destruct (camera_started w0); [apply log_inv|apply preserves_ret].
  - destruct (camera_started w0); [|apply preserves_ret].
    apply preserves_bind; [apply preserves_get|]. intros w1. apply fs_readFile_inv.
  - destruct (camera_started w0); [|apply preserves_ret].
    apply preserves_modify. intros w1 H1. apply (sys_inv_frame w1); simpl; auto.
Qed.

Lemma boot_inv c t0 : sys_inv (st_of (raspi_init (init_world c t0))).
Proof.
  split.
  - by exists 0.
  - split; [by intros ? ?|done].
  - split; [constructor|]. split; [constructor|]. by split.
  - by intros t ?.
  - constructor.
  - constructor.
Qed.

Lemma reachable_running_inv c t0 p :
  reachable c t0 p -> match p with Running w => sys_inv w | Crashed _ _ => True end.
Proof.
  induction 1 as [|p i Hp IH]; [apply boot_inv|].
  destruct p as [w|e w]; [|done]. unfold step.
  pose proof (handle_inv i w IH) as H. unfold st_of in H.
  by destruct (handle i w) as [[[e|u] w'] o].
Qed.

Lemma reachable_run c t0 p ins : reachable c t0 p -> reachable c t0 (fst (run p ins)).
Proof.
  revert p. induction ins as [|i ins IH]; intros p Hp; [done|]. cbn [run].
  pose proof (reach_step c t0 p i Hp) as H1. destruct (step p i) as [p1 o1].
  specialize (IH p1 H1). destruct (run p1 ins) as [p2 o2]. exact IH.
Qed.

(** A state some inputs lead to from start-up is reachable. *)
Lemma reachable_after c t0 ins w :
  fst (run (boot c t0) ins) = Running w -> reachable c t0 (Running w).
Proof. intros <-. apply reachable_run, reach_boot. Qed.

(** C16. In every reachable state of the running process: the emitter holds
    exactly [k] copies of io.js's six listeners ([k] connections so far);
    feeding iff the gate is open iff exactly one [stopFeeder] timer is
    pending, and that timer is the one stored in gpio.js's [timer]; timer
    ids are unique and fresh; a set speech [timer] belongs to a recording
    and names only a [stopSpeechRecording] timer. *)
Theorem reachable_inv c t0 w : reachable c t0 (Running w) -> sys_inv w.
Proof. intros H. exact (reachable_running_inv c t0 (Running w) H). Qed.

(** ** Concrete runs *)

(** The process after the board is ready, a client connects and asks to feed. *)
Definition feeding_inputs : list input := [BoardReady; Connect 1 "10.0.0.2"; ClientEmit 1 "startFeeding"].

Definition w_feeding_session : world :=
  match fst (run (boot sample_config 0) feeding_inputs) with
  | Running w => w | Crashed _ w => w
  end.

(** The process once the board is ready and a client is connected, idle. *)
Definition ready_inputs : list input := [BoardReady; Connect 1 "10.0.0.2"].

Definition w_ready_session : world :=
  match fst (run (boot sample_config 0) ready_inputs) with
  | Running w => w | Crashed _ w => w
  end.

Lemma reachable_inv_witness : sys_inv w_feeding_session /\ feeding w_feeding_session = true.
Proof.
  split; [|vm_compute; reflexivity].
  apply (reachable_inv sample_config 0), (reachable_after _ _ feeding_inputs).
  vm_compute. reflexivity.
Defined.
