(* ===== verification/Safety.v ===== *)
(** * Safety: once the board is ready, the process never crashes

    Only three things in the program throw: a servo method called while
    gpio.js's [servo] is still [undefined] ([servo_to] before [board.on
    ("ready")]), [recording.stop()] while [recording] is [undefined], and
    the emitter run out of call depth.  [live] is what rules all three out:
    the emitter holds [k] copies of io.js's listeners (so the depth
    [emit_depth] suffices), the servo exists, and a set speech [timer]
    comes with a [recording].  Every operation returns normally from a
    [live] state and keeps it ([hoare live m live]); with [sys_inv], every
    input does. *)

From Stdlib Require Import String ZArith.
From stdpp Require Import base list strings gmap.
From S2P Require Import Prelude Runtime Emitter Gpio JsString Speech Base64 Camera Raspi Io System Invariant.

Open Scope string_scope.
Open Scope list_scope.

(** [servo] is a [five.Servo]: [board.on("ready")] has run. *)
Definition ready (w : world) : Prop := is_Some (servo_v (gpio w)).

Definition live (w : world) : Prop :=
  registry_inv w /\ ready w /\
  (forall t, speech_timer_v (speech w) = Some t -> is_Some (recording_v (speech w))).

Lemma live_frame w w' :
  registry (emitter w') = registry (emitter w) ->
  servo_v (gpio w') = servo_v (gpio w) ->
  speech_timer_v (speech w') = speech_timer_v (speech w) ->
  recording_v (speech w') = recording_v (speech w) ->
  live w -> live w'.
Proof.
  intros E1 E2 E3 E4 [[k Hk] [Hr Hs]]. unfold live, registry_inv, ready.
  rewrite E1, E2, E3, E4. eauto.
Qed.

(** A state update that leaves the emitter, the servo and the speech
    closure alone keeps [live]. *)
Ltac live_modify :=
  apply hoare_modify; intros ? ?; eapply live_frame; [..|eassumption]; reflexivity.

(** Read the state as [w] with [getw], forgetting that it is the current one. *)
Ltac live_read w :=
  apply hoare_get_bind; intros w;
  eapply hoare_conseq; [intros ? [? _]; eassumption|intros ? H; exact H|].

Ltac live_get := let w := fresh "w" in live_read w.

Lemma log_ok lvl msg : hoare live (log lvl msg) live.
Proof. apply hoare_tell. Qed.

Lemma fresh_handle_ok : hoare live fresh_handle live.
Proof. live_get. apply hoare_bind with live; [live_modify|intros _; apply hoare_ret]. Qed.

Lemma setTimeout_ok cb after : hoare live (setTimeout cb after) live.
Proof.
  apply hoare_bind with live; [apply fresh_handle_ok|intros id]. live_get.
  apply hoare_bind with live; [live_modify|intros _; apply hoare_ret].
Qed.

Lemma clearTimeout_ok t : hoare live (clearTimeout t) live.
Proof. destruct t; [live_modify|apply hoare_ret]. Qed.

Lemma servo_to_ok method deg : hoare live (servo_to method deg) live.
Proof.
  apply hoare_get_bind. intros w0.
  destruct (servo_v (gpio w0)) as [s|] eqn:Hs.
  - apply hoare_bind with live; [|intros _; apply hoare_tell].
    apply hoare_modify. intros w [(Hk & [s' Hr] & Hsp) ->].
    split; [exact Hk|]. split; [by eexists|exact Hsp].
  - intros w [(_ & [s' Hr] & _) ->]. congruence.
Qed.

Section Handlers.
Variable em : string -> payload -> M unit.

Lemma stopFeeder_ok :
  (forall p, hoare live (em "feedingStopped" p) live) -> hoare live (stopFeeder em) live.
Proof.
  intros Hem. apply hoare_gets_if; [|eapply hoare_conseq; [intros ? [? _]; eassumption|done|apply hoare_ret]].
  eapply hoare_conseq; [intros ? [? _]; eassumption|done|].
  apply hoare_bind with live; [apply servo_to_ok|intros _]. live_get.
  apply hoare_bind with live; [apply clearTimeout_ok|intros _].
  apply hoare_bind with live; [live_modify|intros _].
  apply hoare_bind with live; [apply log_ok|intros _]. apply Hem.
Qed.

Lemma startFeeder_ok :
  (forall p, hoare live (em "feedingStarted" p) live) -> hoare live (startFeeder em) live.
Proof.
  intros Hem. apply hoare_gets_if; [eapply hoare_conseq; [intros ? [? _]; eassumption|done|apply hoare_ret]|].
  eapply hoare_conseq; [intros ? [? _]; eassumption|done|].
  apply hoare_bind with live; [apply servo_to_ok|intros _]. live_get.
  apply hoare_bind with live; [apply setTimeout_ok|intros t].
  apply hoare_bind with live; [live_modify|intros _].
  apply hoare_bind with live; [apply log_ok|intros _]. apply Hem.
Qed.
Lemma stopSpeechRecording_ok :
  (forall p, hoare live (em "speechRecordingStopped" p) live) ->
  hoare live (stopSpeechRecording em) live.
Proof.
  intros Hem w Hw. destruct (speech_timer_v (speech w)) as [t|] eqn:Ht.
  - pose proof Hw as (Hk & Hr & Hs). destruct (Hs t Ht) as [r Hrec].
    eapply hoare_tail; [apply Hem|..|apply stopSpeechRecording_run; eassumption].
    split; [exact Hk|]. by split.
  - rewrite stopSpeechRecording_run_idle; [|by unfold recording; rewrite Ht]. split; [by eexists|done].
Qed.

Lemma startSpeechRecording_ok :
  (forall p, hoare live (em "speechRecordingStarted" p) live) ->
  hoare live (startSpeechRecording em) live.
Proof.
  intros Hem w (Hk & Hr & _).
  eapply hoare_tail; [apply Hem|..|apply startSpeechRecording_run].
  split; [exact Hk|]. split; [exact Hr|]. by eexists.
Qed.

Lemma on_recognize_data_ok d :
  (forall p, hoare live (em "speechRecordingRecognized" p) live) ->
  hoare live (on_recognize_data em d) live.
Proof.
  intros Hem. unfold on_recognize_data.
  destruct (_ ≫= _) as [a|]; [|apply log_ok].
  apply hoare_bind with live; [apply log_ok|intros _]. live_get.
  destruct (js_includes _ _); [apply Hem|apply hoare_ret].
Qed.
End Handlers.

(** ** The emitter's depth *)

(** The relays read the state and broadcast; they never throw. *)
Lemma relay_ok em tag p : hoare live (@relay (raspi_api em) tag p) live.
Proof. intros w Hw. split; [eexists; reflexivity|exact Hw]. Qed.

Lemma relay_image_ok em p : hoare live (@relay_image (raspi_api em) p) live.
Proof. intros w Hw. split; [eexists; reflexivity|exact Hw]. Qed.

(** Emitting at depth [f] runs each listener from the registry the emit
    started from. *)
Lemma sys_emit_step f name p :
  (forall w l, live w -> l ∈ listeners_of name (registry (emitter w)) ->
     hoare live (@call_listener (raspi_api (sys_emit f)) l p) live) ->
  hoare live (sys_emit (S f) name p) live.
Proof.
  intros Hl. unfold sys_emit. cbn [emit]. apply hoare_get_bind. intros w0 s [Hs ->].
  refine (hoare_for_each live _ _ _ w0 Hs). intros l Hin. by apply (Hl w0).
Qed.

(** At depth one, every event but [speechRecordingRecognized] is safe:
    its listeners only broadcast. *)
Lemma sys_emit_depth1_ok f name p :
  name <> "speechRecordingRecognized" -> hoare live (sys_emit (S f) name p) live.
Proof.
  intros Hn. apply sys_emit_step. intros w l Hw Hin.
  destruct (registered_cases w name l (proj1 Hw) Hin) as [[tag ->]|[->|[_ ?]]]; [| |done].
  - apply relay_ok.
  - apply relay_image_ok.
Qed.

(** At depth two every event is safe: [speechRecordingRecognized]'s
    listener starts feeding, which emits [feedingStarted] one level down. *)
Lemma sys_emit_depth2_ok f name p : hoare live (sys_emit (S (S f)) name p) live.
Proof.
  apply sys_emit_step. intros w l Hw Hin.
  destruct (registered_cases w name l (proj1 Hw) Hin) as [[tag ->]|[->|[-> _]]].
  - apply relay_ok.
  - apply relay_image_ok.
  - apply startFeeder_ok. intros p'. by apply sys_emit_depth1_ok.
Qed.


Lemma sys_emit_ok name p : hoare live (sys_emit emit_depth name p) live.
Proof. apply sys_emit_depth2_ok. Qed.

(** ** Timers, the file system and the camera *)

Lemma run_callback_ok cb : hoare live (run_callback cb) live.
Proof.
  destruct cb; [apply stopFeeder_ok|apply stopSpeechRecording_ok]; intros; apply sys_emit_ok.
Qed.

Lemma fire_timers_ok fuel target : hoare live (fire_timers fuel target) live.
Proof.
  induction fuel as [|f IH]; [apply hoare_ret|]. cbn [fire_timers]. live_get.
  destruct (next_due _ _) as [t|]; [|apply hoare_ret].
  apply hoare_bind with live; [live_modify|intros _].
  apply hoare_bind with live; [apply run_callback_ok|intros _]. apply IH.
Qed.

Lemma elapse_ok ms : hoare live (elapse ms) live.
Proof.
  unfold elapse. live_get.
  apply hoare_bind with live; [apply fire_timers_ok|intros _]. live_modify.
Qed.

Lemma fs_request_ok op : hoare live (fs_request op) live.
Proof.
  apply hoare_bind with live; [apply fresh_handle_ok|intros req].
  apply hoare_bind with live; [live_modify|intros _; apply hoare_ret].
Qed.

Lemma fs_readFile_ok path : hoare live (fs_readFile path) live.
Proof. apply hoare_bind with live; [apply fs_request_ok|intros req; apply hoare_tell]. Qed.

Lemma fs_unlink_ok path : hoare live (fs_unlink path) live.
Proof. apply hoare_bind with live; [apply fs_request_ok|intros req; apply hoare_tell]. Qed.

Lemma on_readFile_ok path r : hoare live (on_readFile (sys_emit emit_depth) path r) live.
Proof.
  destruct r; [|apply hoare_ret].
  apply hoare_bind with live; [apply sys_emit_ok|intros _; apply fs_unlink_ok].
Qed.

Lemma on_unlink_ok path ok : hoare live (on_unlink path ok) live.
Proof. destruct ok; [apply hoare_ret|apply log_ok]. Qed.

Lemma fs_complete_ok req ok : hoare live (fs_complete req ok) live.
Proof.
  unfold fs_complete. live_read w0.
  destruct (find_req _ _) as [op|]; [|apply hoare_ret].
  apply hoare_bind with live; [live_modify|intros _].
  destruct op as [path|path]; [apply on_readFile_ok|].
  destruct ok, (files (node w0) !! path); try apply on_unlink_ok.
  apply hoare_bind with live; [live_modify|intros _; apply on_unlink_ok].
Qed.

Lemma on_board_ready_ok : hoare live on_board_ready live.
Proof.
  apply hoare_bind with live; [|intros _; apply hoare_bind with live; [apply hoare_tell|intros _; apply log_ok]].
  apply hoare_modify. intros w (Hk & _ & Hs). split; [exact Hk|]. split; [by eexists|exact Hs].
Qed.

(** ** Every input *)

(** Every input's handler returns normally from a [live] state and keeps
    it. *)
Lemma handle_ok i : hoare live (handle i) live.
Proof.
  destruct i; try apply elapse_ok; try apply fs_complete_ok; cbn [handle].
  all: try live_read w0.
  - destruct (servo_v _); [apply hoare_ret|apply on_board_ready_ok].
  - destruct (decide _); [apply hoare_ret|].
    intros s Hs. rewrite run_bind. cbn [sew_modify].
    destruct (onSocketConnected_run addr (set_sockets (sockets w0 ++ [sid]) s)) as (ws & o & ->).
    split; [by eexists|]. destruct Hs as (Hk & Hr & Hsp).
    split; [by apply registry_inv_connected|]. by split.
  - live_modify.
  - destruct (decide _); [|apply hoare_ret].
    destruct (String.eqb _ _); [apply startFeeder_ok; intros; apply sys_emit_ok|].
    destruct (String.eqb _ _); [apply startSpeechRecording_ok; intros; apply sys_emit_ok|apply hoare_ret].
  - destruct (decide _); [apply on_recognize_data_ok; intros; apply sys_emit_ok|apply hoare_ret].
  - destruct (decide _); [apply log_ok|apply hoare_ret].
  - destruct (decide _); [apply log_ok|apply hoare_ret].
  - destruct (camera_started w0); [apply log_ok|apply hoare_ret].
  - destruct (camera_started w0); [apply log_ok|apply hoare_ret].
  - destruct (camera_started w0); [apply log_ok|apply hoare_ret].
  - destruct (camera_started w0); [|apply hoare_ret]. live_get. apply fs_readFile_ok.
  - destruct (camera_started w0); [live_modify|apply hoare_ret].
Qed.

(** From [live], any sequence of inputs leaves the process running, live. *)
Lemma run_live w ins :
  live w -> exists w', fst (run (Running w) ins) = Running w' /\ live w'.
Proof.
  revert w. induction ins as [|i ins IH]; intros w Hw; [by exists w|].
  destruct (handle_ok i w Hw) as [[a Ha] Hw1]. cbn [run step].
  unfold res_of, st_of in *. destruct (handle i w) as [[[e|u] w1] o]; [done|]. simpl in *.
  destruct (IH w1 Hw1) as (w' & E & Hw'). destruct (run (Running w1) ins) as [p2 o2].
  simpl in *. by exists w'.
Qed.

Lemma sys_inv_live w : sys_inv w -> ready w -> live w.
Proof.
  intros [Hk _ _ Hs] Hr. split; [done|]. split; [done|].
  intros t Ht. destruct (Hs t Ht) as [[r ->] _]. by eexists.
Qed.

(** C17. Once the board is ready, the process never crashes: from a
    reachable running state where gpio.js's [servo] exists, every sequence
    of inputs (commands, speech results, timers, camera frames, file system
    answers, connections) leaves the process running with the servo still
    there; in particular [emit_depth] is never exceeded and no handler
    throws. *)
Theorem ready_never_crashes c t0 w ins :
  reachable c t0 (Running w) -> ready w ->
  exists w', fst (run (Running w) ins) = Running w' /\ ready w'.
Proof.
  intros Hr Hready. destruct (run_live w ins) as (w' & E & _ & Hw' & _); [|by exists w'].
  apply sys_inv_live; [|done]. by apply (reachable_running_inv c t0 (Running w)).
Qed.

(** ** The emitter's depth does not matter

    Running the emitter with more call depth than [emit_depth] changes
    nothing: the bounded emit of the model is JavaScript's unbounded one. *)

Lemma startFeeder_ext em1 em2 w :
  live w -> (forall s p, live s -> em1 "feedingStarted" p s = em2 "feedingStarted" p s) ->
  startFeeder em1 w = startFeeder em2 w.
Proof.
  intros Hw Hem. destruct (feed_timer (gpio w)) as [t|] eqn:Ht.
  - rewrite !startFeeder_run_busy; [done| |]; by unfold feeding; rewrite Ht.
  - pose proof Hw as (Hk & [s Hs] & Hsp).
    rewrite (startFeeder_run_idle em1 w s Ht Hs), (startFeeder_run_idle em2 w s Ht Hs), Hem; [done|].
    split; [exact Hk|]. split; [by eexists|exact Hsp].
Qed.

Lemma sys_emit_depth1_ext f name p w :
  live w -> name <> "speechRecordingRecognized" -> sys_emit (S f) name p w = sys_emit 1 name p w.
Proof.
  intros Hw Hn. unfold sys_emit. cbn [emit]. rewrite !run_bind. cbn [getw sew_get].
  erewrite (hoare_for_each_ext live); [reflexivity|..|exact Hw].
  - intros l Hin. destruct (registered_cases w name l (proj1 Hw) Hin) as [[tag ->]|[->|[_ ?]]]; [| |done].
    + apply relay_ok.
    + apply relay_image_ok.
  - intros l Hin s Hs. destruct (registered_cases w name l (proj1 Hw) Hin) as [[tag ->]|[->|[_ ?]]]; done.
Qed.

Lemma sys_emit_depth2_ext f name p w :
  live w -> sys_emit (S (S f)) name p w = sys_emit 2 name p w.
Proof.
  intros Hw. unfold sys_emit. cbn [emit]. rewrite !run_bind. cbn [getw sew_get].
  erewrite (hoare_for_each_ext live); [reflexivity|..|exact Hw].
  - intros l Hin. destruct (registered_cases w name l (proj1 Hw) Hin) as [[tag ->]|[->|[-> _]]].
    + apply relay_ok.
    + apply relay_image_ok.
    + apply startFeeder_ok. intros p'. by apply sys_emit_depth1_ok.
  - intros l Hin s Hs. destruct (registered_cases w name l (proj1 Hw) Hin) as [[tag ->]|[->|[-> _]]]; [done|done|].
    apply startFeeder_ext; [done|]. intros s' p' Hs'. by apply sys_emit_depth1_ext.
Qed.

(** C18. The call depth [emit_depth] the model gives the emitter is enough:
    in every reachable state once the board is ready, emitting any event
    with any larger depth produces exactly the same result, state and
    effects, so the bound never cuts a chain of listeners short. *)
Theorem emit_depth_sufficient c t0 w f name p :
  reachable c t0 (Running w) -> ready w ->
  sys_emit (emit_depth + f) name p w = sys_emit emit_depth name p w.
Proof.
  intros Hr Hready. apply sys_emit_depth2_ext, sys_inv_live; [|done].
  by apply (reachable_running_inv c t0 (Running w)).
Qed.

(** ** Concrete runs *)

Lemma ready_never_crashes_witness :
  exists w', fst (run (Running w_feeding_session)
                   [ClientEmit 1 "startFeeding"; ClientEmit 1 "startSpeechRecording";
                    Elapse 5000; FsComplete 7; Elapse 10000]) = Running w' /\ ready w'.
Proof.
  apply (ready_never_crashes sample_config 0).
  - apply (reachable_after _ _ feeding_inputs). vm_compute. reflexivity.
  - vm_compute. by eexists.
Defined.

Lemma emit_depth_sufficient_witness :
  sys_emit (emit_depth + 3) "speechRecordingRecognized" (msg_payload "Speech recording recognized" "success")
    w_ready_session =
  sys_emit emit_depth "speechRecordingRecognized" (msg_payload "Speech recording recognized" "success")
    w_ready_session.
Proof.
  apply (emit_depth_sufficient sample_config 0).
  - apply (reachable_after _ _ ready_inputs). vm_compute. reflexivity.
  - vm_compute. by eexists.
Defined.
