(* ===== verification/Liveness.v ===== *)
(** * Liveness: feeding always ends

    gpio.js arms a [setTimeout(() => stopFeeder(), raspi.feeder.timer)]
    whenever it opens the gate.  In every reachable state the pending
    [stopFeeder] timer is due within [timer_delay raspi.feeder.timer] ms
    ([Invariant.due_ok]), and [elapse] runs every timer due by its target
    ([Invariant.elapse_run]), so once that much time passes the gate is
    closed.  The delay is Node's: a configured timer outside
    [[1, 2^31-1]] ms closes the gate after 1 ms.  The timer loop itself
    terminates: with more fuel than pending timers it drains every due
    timer, and more fuel changes nothing. *)

From Stdlib Require Import String ZArith Lia.
From stdpp Require Import base list strings gmap.
From S2P Require Import Prelude Runtime Emitter Gpio Speech Camera Raspi Io System Invariant.

Open Scope string_scope.
Open Scope list_scope.

(** How long gpio.js keeps the gate open: the delay of
    [setTimeout(() => stopFeeder(), config.get("raspi.feeder.timer"))] as
    Node runs it. *)
Definition feeder_duration (w : world) : Z := timer_delay (feeder_timer (cfg w)).

(** When no timer is due by [target], every pending timer is due later. *)
Lemma next_due_none target w y :
  next_due target w = None -> y ∈ timers (node w) -> (target < t_due y)%Z.
Proof.
  intros Hn Hy. destruct (earliest_min _ _ Hy) as (e & He & Hle).
  unfold next_due in Hn. rewrite He in Hn.
  destruct (t_due e <=? target)%Z eqn:E; [done|]. apply Z.leb_gt in E. lia.
Qed.

(** While feeding, the stored timer is a pending [stopFeeder] timer. *)
Lemma feeding_pending w :
  gpio_inv w -> feeding w = true -> exists y, y ∈ timers (node w) /\ t_cb y = StopFeederCb.
Proof.
  unfold gpio_inv, feeding. destruct (feed_timer (gpio w)) as [t|]; [|done].
  intros [_ Hm] _. destruct (pending_with StopFeederCb w) as [|y ys] eqn:E; [done|].
  exists y. assert (Hy : y ∈ pending_with StopFeederCb w) by (rewrite E; constructor).
  by apply list_elem_of_filter in Hy as [? ?].
Qed.

(** C19. Feeding always ends: in every reachable state, once
    [feeder_duration] ms (the configured duration, clamped as [setTimeout]
    does) have passed, the elapsed-time handler has run
    [stopFeeder] and [isFeeding()] is false; the process keeps running. *)
Theorem feeding_ends c t0 w ms :
  reachable c t0 (Running w) -> (feeder_duration w <= ms)%Z ->
  exists w' o, handle (Elapse ms) w = (inr tt, w', o) /\ feeding w' = false.
Proof.
  intros Hr Hms. unfold feeder_duration in Hms. pose proof (reachable_running_inv c t0 (Running w) Hr) as Hw.
  destruct (elapse_run ms w Hw) as (w1 & o & E & Hw1 & Hn & Hc & Hs & Hnd & _).
  exists (set_node (set_now (now (node w) + Z.max 0 ms) (node w1)) w1), o. split; [exact E|].
  change (feeding w1 = false). destruct (feeding w1) eqn:Hf; [exfalso|done].
  destruct (feeding_pending w1 (inv_gpio w1 Hw1) Hf) as (y & Hy & Hcb).
  pose proof (next_due_none _ _ _ Hnd Hy) as Hlt.
  pose proof (inv_due w Hw) as Hd. unfold due_ok in Hd. rewrite Forall_forall in Hd.
  specialize (Hd y (Hs y Hy) Hcb). pose proof (timer_delay_bounds (feeder_timer (cfg w))). lia.
Qed.

(** Once [fire_timers] has returned normally with nothing left due, one
    more unit of fuel changes nothing: the extra iteration finds no due
    timer. *)
Lemma fire_timers_S f target :
  fire_timers (S f) target =
    (w ← getw;
     match next_due target w with
     | None => mret tt
     | Some t =>
         sew_modify (set_node (remove_timer (t_id t) (set_now (Z.max (now (node w)) (t_due t)) (node w))));;
         run_callback (t_cb t);;
         fire_timers f target
     end).
Proof. reflexivity. Qed.

Lemma fire_timers_extra_fuel f target w w' o :
  fire_timers f target w = (inr tt, w', o) -> next_due target w' = None ->
  fire_timers (S f) target w = (inr tt, w', o).
Proof.
  revert w o. induction f as [|f IH]; intros w o H Hn.
  - injection H as <- <-. rewrite fire_timers_S, run_bind. cbn [getw sew_get]. by rewrite Hn.
  - rewrite fire_timers_S in H |- *. rewrite run_bind in H |- *. cbn [getw sew_get] in H |- *.
    destruct (next_due target w) as [x|]; [|done].
    rewrite !run_bind in H |- *. cbn [sew_modify] in H |- *. cbn iota beta in H |- *.
    rewrite !run_bind in H |- *.
    destruct (run_callback _ _) as [[[e|[]] w1] o1]; [done|].
    destruct (fire_timers f target w1) as [[r2 w2] o2] eqn:E2. injection H as -> -> <-.
    by rewrite (IH w1 o2 E2 Hn).
Qed.

(** C20. The event loop's timer phase terminates: in every reachable
    state, [fire_timers] with more fuel than pending timers returns
    normally with no timer left due by [target], and any larger fuel gives
    the same run, so the fuel bound of [elapse] is never what stops it. *)
Theorem timer_loop_terminates c t0 w target fuel :
  reachable c t0 (Running w) -> (now (node w) <= target)%Z -> length (timers (node w)) < fuel ->
  exists w' o, fire_timers fuel target w = (inr tt, w', o) /\ next_due target w' = None /\
    forall k, fire_timers (k + fuel) target w = (inr tt, w', o).
Proof.
  intros Hr Hle Hlen. pose proof (reachable_running_inv c t0 (Running w) Hr) as Hw.
  destruct (fire_timers_run fuel target w Hw Hle Hlen) as (w' & o & E & _ & _ & _ & _ & Hn & _).
  exists w', o. split; [done|]. split; [done|].
  intros k. induction k as [|k IH]; [done|]. by apply fire_timers_extra_fuel.
Qed.

(** ** Concrete runs *)

Lemma feeding_ends_witness :
  exists w' o, handle (Elapse 5000) w_feeding_session = (inr tt, w', o) /\ feeding w' = false.
Proof.
  apply (feeding_ends sample_config 0).
  - apply (reachable_after _ _ feeding_inputs). vm_compute. reflexivity.
  - vm_compute. discriminate.
Defined.

Lemma timer_loop_terminates_witness :
  exists w' o, fire_timers 2 5000 w_feeding_session = (inr tt, w', o) /\ next_due 5000 w' = None /\
    forall k, fire_timers (k + 2) 5000 w_feeding_session = (inr tt, w', o).
Proof.
  apply (timer_loop_terminates sample_config 0).
  - apply (reachable_after _ _ feeding_inputs). vm_compute. reflexivity.
  - vm_compute. discriminate.
  - vm_compute. lia.
Defined.
