(* ===== verification/FeederSpec.v ===== *)
(** * FeederSpec: gpio.js refines the feeding session of the specification

    The specification's [FeedingSession] is a two-state machine: [Idle], or
    [Feeding] until a deadline.  [startFeeder] from [Idle] opens it for the
    configured duration, and is a no-op while feeding (single flight); the
    deadline passing closes it; nothing else changes it.  [afeed_step] is
    that machine.  [feed_abs] reads it off the process state: the pending
    [stopFeeder] timer and its due time.  [feed_event] says which abstract
    event an input is: a connected client's [startFeeding], a hotword heard
    while io.js's [speechRecordingRecognized] listener is registered, or
    time passing.  The refinement theorem: once the board is ready, every
    input moves the concrete state exactly as the abstract machine moves. *)

From Stdlib Require Import String ZArith Lia.
From stdpp Require Import base list strings gmap.
From S2P Require Import Prelude Runtime Emitter Gpio JsString Speech Base64 Camera Raspi Io System Invariant Safety Liveness.

Open Scope string_scope.
Open Scope list_scope.

Module AbstractFeeder.

Inductive afeed := AIdle | AFeeding (until : Z).

Inductive aevent :=
| AStart (at_ : Z)     (* a [startFeeder()] call at time [at_] *)
| ATick (to : Z)       (* time passes up to [to] *)
| ANone.

(** The specification's feeding session, for a feeding duration [D]. *)
Definition afeed_step (D : Z) (s : afeed) (e : aevent) : afeed :=
  match e, s with
  | AStart t, AIdle => AFeeding (t + D)
  | AStart _, AFeeding u => AFeeding u
  | ATick t, AFeeding u => if (u <=? t)%Z then AIdle else AFeeding u
  | ATick _, AIdle => AIdle
  | ANone, s => s
  end.

End AbstractFeeder.
Import AbstractFeeder.

(** The session the process is in: the pending [stopFeeder] timer's due time. *)
Definition feed_abs (w : world) : afeed :=
  match pending_with StopFeederCb w with
  | [] => AIdle
  | x :: _ => AFeeding (t_due x)
  end.

(** The first alternative of a recognize result matches a hotword. *)
Definition hotword_heard (d : sdata) (w : world) : bool :=
  match head (results d) ≫= (fun r => head (alternatives r)) with
  | Some a => js_includes (speech_hotwords (cfg w)) (normalize (transcript a))
  | None => false
  end.

(** The abstract event an input is, in the state it arrives in. *)
Definition feed_event (i : input) (w : world) : aevent :=
  match i with
  | ClientEmit sid name =>
      if bool_decide (sid ∈ sockets w) && String.eqb name "startFeeding"
      then AStart (now (node w)) else ANone
  | SpeechData sid d =>
      if bool_decide (sid ∈ streams (speech w)) && hotword_heard d w &&
         bool_decide (OnRecognized ∈ listeners_of "speechRecordingRecognized" (registry (emitter w)))
      then AStart (now (node w)) else ANone
  | Elapse ms => ATick (now (node w) + Z.max 0 ms)
  | _ => ANone
  end.

(** ** The abstraction *)

Lemma feed_abs_timers w w' : timers (node w') = timers (node w) -> feed_abs w' = feed_abs w.
Proof. intros E. unfold feed_abs, pending_with. by rewrite E. Qed.

(** At most one [stopFeeder] timer is pending. *)
Lemma pending_cases w :
  gpio_inv w ->
  (feeding w = false /\ pending_with StopFeederCb w = []) \/
  (exists x, feeding w = true /\ pending_with StopFeederCb w = [x] /\ Some (t_id x) = feed_timer (gpio w)).
Proof.
  unfold gpio_inv, feeding. destruct (feed_timer (gpio w)) as [t|]; intros [_ Hm]; [right|by left].
  destruct (pending_with StopFeederCb w) as [|x [|y ys]]; simplify_eq/=. by exists x.
Qed.

Lemma feed_abs_opened w s :
  gpio_inv w -> feed_timer (gpio w) = None ->
  feed_abs (opened w s) = AFeeding (now (node w) + timer_delay (feeder_timer (cfg w))).
Proof.
  intros Hg Ht. destruct (pending_cases w Hg) as [[_ Hp]|(x & Hf & _)]; [|by unfold feeding in Hf; rewrite Ht in Hf].
  unfold feed_abs. change (pending_with StopFeederCb (opened w s)) with
    (filter (fun t => t_cb t = StopFeederCb) (timers (node w) ++
       [mkTimeout (next_id (node w)) (now (node w) + timer_delay (feeder_timer (cfg w)))%Z StopFeederCb])).
  rewrite filter_app. unfold pending_with in Hp. rewrite Hp. by rewrite filter_cons_True.
Qed.

(** [startFeeder], whose [feedingStarted] only reaches relays, is the
    abstract [AStart]; afterwards the process is feeding. *)
Lemma startFeeder_abs f w :
  sys_inv w -> ready w ->
  exists w' o, startFeeder (sys_emit (S f)) w = (inr tt, w', o) /\ feeding w' = true /\
    feed_abs w' = afeed_step (timer_delay (feeder_timer (cfg w))) (feed_abs w) (AStart (now (node w))).
Proof.
  intros Hw [s Hs]. destruct (pending_cases w (inv_gpio w Hw)) as [[Hf Hp]|(x & Hf & Hp & _)].
  - assert (Ht : feed_timer (gpio w) = None) by (unfold feeding in Hf; by destruct (feed_timer _)).
    rewrite (startFeeder_run_idle _ w s Ht Hs).
    destruct (relays_run f "feedingStarted" (msg_payload "Feeding started" "success") (opened w s))
      as [o ->]; [exact (inv_registry w Hw)|done|].
    eexists _, _. split; [reflexivity|]. split; [reflexivity|].
    rewrite (feed_abs_opened w s (inv_gpio w Hw) Ht). unfold feed_abs. by rewrite Hp.
  - rewrite startFeeder_run_busy by done. eexists _, _. split; [reflexivity|]. split; [done|].
    unfold feed_abs. by rewrite Hp.
Qed.

(** ** The hotword listener *)

(** While feeding, any number of further [startFeeder] calls do nothing. *)
Lemma startFeeder_busy_loop em p k w :
  feeding w = true ->
  for_each (fun l => @call_listener (raspi_api em) l p) (replicate k OnRecognized) w = (inr tt, w, []).
Proof.
  intros Hf. induction k as [|k IH]; [done|]. cbn [replicate for_each]. rewrite run_bind.
  change (@call_listener (raspi_api em) OnRecognized p) with (startFeeder em).
  rewrite startFeeder_run_busy by done. rewrite IH. reflexivity.
Qed.

(** io.js registered one hotword listener per connection. *)
Lemma recognized_listeners w :
  registry_inv w -> exists k, listeners_of "speechRecordingRecognized" (registry (emitter w)) = replicate k OnRecognized.
Proof.
  intros [k ->]. exists k. rewrite listeners_of_connections. apply concat_replicate_single.
Qed.

Lemma call_OnRecognized em p : @call_listener (raspi_api em) OnRecognized p = startFeeder em.
Proof. reflexivity. Qed.

(** [speechRecordingRecognized] starts feeding once if some client ever
    connected, and does nothing otherwise. *)
Lemma recognized_abs p w :
  sys_inv w -> ready w ->
  exists w' o, sys_emit emit_depth "speechRecordingRecognized" p w = (inr tt, w', o) /\
    feed_abs w' =
      if bool_decide (OnRecognized ∈ listeners_of "speechRecordingRecognized" (registry (emitter w)))
      then afeed_step (timer_delay (feeder_timer (cfg w))) (feed_abs w) (AStart (now (node w)))
      else feed_abs w.
Proof.
  intros Hw Hr. destruct (recognized_listeners w (inv_registry w Hw)) as [k Hk].
  unfold emit_depth. rewrite sys_emit_unfold, run_bind. cbn [getw sew_get]. rewrite Hk.
  destruct k as [|k]; [by eexists _, []|].
  rewrite bool_decide_eq_true_2 by (cbn; constructor).
  cbn [replicate for_each]. rewrite run_bind, call_OnRecognized.
  destruct (startFeeder_abs 0 w Hw Hr) as (w1 & o1 & -> & Hf1 & Ha1).
  rewrite startFeeder_busy_loop by done. by eexists _, _.
Qed.

Lemma on_recognize_abs d w :
  sys_inv w -> ready w ->
  exists w' o, on_recognize_data (sys_emit emit_depth) d w = (inr tt, w', o) /\
    feed_abs w' =
      if hotword_heard d w &&
         bool_decide (OnRecognized ∈ listeners_of "speechRecordingRecognized" (registry (emitter w)))
      then afeed_step (timer_delay (feeder_timer (cfg w))) (feed_abs w) (AStart (now (node w)))
      else feed_abs w.
Proof.
  intros Hw Hr. unfold hotword_heard.
  destruct (head (results d) ≫= _) as [a|] eqn:Ha; [|unfold on_recognize_data; rewrite Ha; by eexists _, _].
  rewrite (on_recognize_data_run _ d a w Ha). destruct (js_includes _ _); [|by eexists _, _].
  destruct (recognized_abs (msg_payload "Speech recording recognized" "success") w Hw Hr) as (w' & o & -> & Ha').
  by eexists _, _.
Qed.

(** ** Time passing *)

Lemma pending_sub w w1 y :
  (forall y, y ∈ timers (node w1) -> y ∈ timers (node w)) ->
  y ∈ pending_with StopFeederCb w1 -> y ∈ pending_with StopFeederCb w.
Proof. intros Hs [Hc Hy]%list_elem_of_filter. apply list_elem_of_filter. split; [done|by apply Hs]. Qed.

(** Time passing is the abstract [ATick]: the gate closes iff its deadline
    is reached. *)
Lemma elapse_abs ms w :
  sys_inv w ->
  exists w' o, elapse ms w = (inr tt, w', o) /\
    feed_abs w' = afeed_step (timer_delay (feeder_timer (cfg w))) (feed_abs w) (ATick (now (node w) + Z.max 0 ms)).
Proof.
  intros Hw. destruct (elapse_run ms w Hw) as (w1 & o & -> & Hw1 & _ & _ & Hs & Hnd & Hk).
  eexists _, _. split; [reflexivity|]. rewrite (feed_abs_timers w1 (set_node (set_now _ (node w1)) w1)) by reflexivity.
  destruct (pending_cases w (inv_gpio w Hw)) as [[_ Hp]|(x & _ & Hp & _)];
  destruct (pending_cases w1 (inv_gpio w1 Hw1)) as [[_ Hp1]|(y & _ & Hp1 & _)];
  unfold feed_abs; rewrite ?Hp, ?Hp1; cbn [afeed_step]; try done.
  - assert (Hy : y ∈ pending_with StopFeederCb w) by (apply (pending_sub w w1 y Hs); rewrite Hp1; constructor).
    rewrite Hp in Hy. by apply elem_of_nil in Hy.
  - destruct (t_due x <=? _)%Z eqn:E; [done|]. apply Z.leb_gt in E.
    assert (Hx : x ∈ pending_with StopFeederCb w) by (rewrite Hp; constructor).
    apply list_elem_of_filter in Hx as [Hc Hx].
    assert (Hx1 : x ∈ pending_with StopFeederCb w1) by (apply list_elem_of_filter; split; [done|by apply Hk]).
    by rewrite Hp1 in Hx1; apply elem_of_nil in Hx1.
  - assert (Hy : y ∈ pending_with StopFeederCb w) by (apply (pending_sub w w1 y Hs); rewrite Hp1; constructor).
    rewrite Hp in Hy. apply list_elem_of_singleton in Hy as ->.
    destruct (t_due x <=? _)%Z eqn:E; [|done]. apply Z.leb_le in E. exfalso.
    assert (Hin1 : x ∈ timers (node w1)).
    { assert (Hx : x ∈ pending_with StopFeederCb w1) by (rewrite Hp1; constructor).
      by apply list_elem_of_filter in Hx as [_ ?]. }
    pose proof (next_due_none _ _ _ Hnd Hin1). lia.
Qed.

(** ** Inputs that leave the feeder alone *)

(** The registry keeps its shape and the pending [stopFeeder] timers are [T]. *)
Definition fp (T : list timeout) (w : world) : Prop :=
  registry_inv w /\ pending_with StopFeederCb w = T.

(** A state update that leaves the emitter and the timers alone. *)
Ltac fp_modify := apply preserves_modify; intros ? [? ?]; split; assumption.

Section Frames.
Variable T : list timeout.

Lemma fresh_handle_fp : preserves (fp T) fresh_handle.
Proof.
  apply preserves_bind; [apply preserves_get|intros w].
  apply preserves_bind; [fp_modify|intros _; apply preserves_ret].
Qed.

Lemma fs_request_fp op : preserves (fp T) (fs_request op).
Proof.
  apply preserves_bind; [apply fresh_handle_fp|intros req].
  apply preserves_bind; [fp_modify|intros _; apply preserves_ret].
Qed.

Lemma fs_readFile_fp path : preserves (fp T) (fs_readFile path).
Proof. apply preserves_bind; [apply fs_request_fp|intros req; apply preserves_tell]. Qed.

Lemma fs_unlink_fp path : preserves (fp T) (fs_unlink path).
Proof. apply preserves_bind; [apply fs_request_fp|intros req; apply preserves_tell]. Qed.

Lemma on_unlink_fp path ok : preserves (fp T) (on_unlink path ok).
Proof. destruct ok; [apply preserves_ret|apply preserves_tell]. Qed.

(** [frameLoaded] only reaches the image relays. *)
Lemma on_readFile_fp path r : preserves (fp T) (on_readFile (sys_emit emit_depth) path r).
Proof.
  destruct r; [|apply preserves_ret]. apply preserves_bind; [|intros _; apply fs_unlink_fp].
  intros w [Hr Hp]. unfold emit_depth.
  destruct (relays_run 1 "frameLoaded" (mkPayload (Some (b64_encode l)) "New frame received" "success") w Hr)
    as [o ->]; [done|]. by split.
Qed.

Lemma fs_complete_fp req ok : preserves (fp T) (fs_complete req ok).
Proof.
  unfold fs_complete. apply preserves_bind; [apply preserves_get|intros w].
  destruct (find_req _ _) as [op|]; [|apply preserves_ret].
  apply preserves_bind; [fp_modify|intros _].
  destruct op as [path|path]; [apply on_readFile_fp|].
  destruct ok, (files (node w) !! path); try apply on_unlink_fp.
  apply preserves_bind; [fp_modify|intros _; apply on_unlink_fp].
Qed.

Lemma onSocketConnected_fp addr : preserves (fp T) (@onSocketConnected sys_raspi addr).
Proof.
  intros w [Hr Hp]. destruct (onSocketConnected_run addr w) as (ws & o & ->).
  split; [by apply registry_inv_connected|exact Hp].
Qed.

(** Every input but a [startFeeding] command, speech data and time passing
    leaves the emitter's shape and the pending [stopFeeder] timers alone. *)
Lemma handle_fp i :
  match i with ClientEmit _ _ | SpeechData _ _ | Elapse _ => True | _ => preserves (fp T) (handle i) end.
Proof.
  destruct i; try exact I; cbn [handle]; try (apply fs_complete_fp);
    try (apply preserves_bind; [apply preserves_get|intros w0]).
  - destruct (servo_v _); [apply preserves_ret|].
    apply preserves_bind; [fp_modify|intros _]. apply preserves_bind; [apply preserves_tell|intros _; apply preserves_tell].
  - destruct (decide _); [apply preserves_ret|].
    apply preserves_bind; [fp_modify|intros _; apply onSocketConnected_fp].
  - fp_modify.
  - destruct (decide _); [apply preserves_tell|apply preserves_ret].
  - destruct (decide _); [apply preserves_tell|apply preserves_ret].
  - destruct (camera_started w0); [apply preserves_tell|apply preserves_ret].
  - destruct (camera_started w0); [apply preserves_tell|apply preserves_ret].
  - destruct (camera_started w0); [apply preserves_tell|apply preserves_ret].
  - destruct (camera_started w0); [|apply preserves_ret].
    apply preserves_bind; [apply preserves_get|intros w1; apply fs_readFile_fp].
  - destruct (camera_started w0); [fp_modify|apply preserves_ret].
Qed.
End Frames.

(** An input that never throws from [w] and leaves the pending
    [stopFeeder] timers alone keeps the abstract session. *)
Lemma refine_frame i w :
  sys_inv w -> ready w -> (forall T, preserves (fp T) (handle i)) ->
  exists w' o, handle i w = (inr tt, w', o) /\ feed_abs w' = feed_abs w.
Proof.
  intros Hw Hr Hp. destruct (handle_ok i w (sys_inv_live w Hw Hr)) as [[a Ha] _].
  destruct (Hp (pending_with StopFeederCb w) w (conj (inv_registry w Hw) eq_refl)) as [_ Hp'].
  unfold res_of, st_of in *. destruct (handle i w) as [[[e|[]] w'] o]; simpl in *; [done|].
  exists w', o. split; [done|]. unfold feed_abs. by rewrite Hp'.
Qed.

(** ** The refinement *)

Lemma feed_abs_rec_started w : feed_abs (rec_started w) = feed_abs w.
Proof.
  unfold feed_abs.
  set (x := mkTimeout (S (S (next_id (node w)))) (now (node w) + timer_delay (speech_timer (cfg w)))%Z StopSpeechCb).
  change (pending_with StopFeederCb (rec_started w)) with
    (filter (fun t => t_cb t = StopFeederCb) (timers (node w) ++ [x])).
  by rewrite (pending_feeder_snoc_speech w x eq_refl).
Qed.

(** C21. Refinement of the specification's feeding session: once the board
    is ready, every input returns normally and moves the feeder (idle, or
    feeding until the pending [stopFeeder] timer's due time) exactly as the
    abstract machine [afeed_step] moves on the input's event: a connected
    client's [startFeeding] or a recognized hotword (while io.js's listener
    is registered) is [AStart] (open for the configured duration from idle,
    no-op while feeding), time passing is [ATick] (closed once the deadline
    is reached), and every other input leaves it unchanged. *)
Theorem feeder_refinement c t0 w i :
  reachable c t0 (Running w) -> ready w ->
  exists w' o, handle i w = (inr tt, w', o) /\
    feed_abs w' = afeed_step (timer_delay (feeder_timer (cfg w))) (feed_abs w) (feed_event i w).
Proof.
  intros Hr Hready. pose proof (reachable_running_inv c t0 (Running w) Hr) as Hw.
  destruct i as [|sid addr|sid|sid name|ms|stream d|stream err|rid err| | | |filename|filename data|req|req];
    try (cbn [feed_event afeed_step]; apply refine_frame; [exact Hw|exact Hready|intros T];
         match goal with |- preserves _ (handle ?i) => exact (handle_fp T i) end).
  - cbn [handle feed_event]. rewrite run_bind. cbn [getw sew_get].
    destruct (decide (sid ∈ sockets w)) as [Hin|Hin];
      [rewrite bool_decide_eq_true_2 by done|rewrite bool_decide_eq_false_2 by done; by eexists _, []].
    destruct (String.eqb name "startFeeding"); cbn [andb].
    + change (@on_startFeeding sys_raspi) with (startFeeder (sys_emit (S 1))).
      destruct (startFeeder_abs 1 w Hw Hready) as (w' & o & -> & _ & Ha). by eexists _, _.
    + destruct (String.eqb name "startSpeechRecording"); [|by eexists _, []].
      change (@on_startSpeechRecording sys_raspi) with (startSpeechRecording (sys_emit (S 1))).
      rewrite startSpeechRecording_run.
      destruct (relays_run 1 "speechRecordingStarted" (msg_payload "Speech recording started" "success")
                  (rec_started w) (inv_registry w Hw)) as [o ->]; [done|].
      eexists _, _. split; [reflexivity|]. apply feed_abs_rec_started.
  - cbn [handle]. apply elapse_abs, Hw.
  - cbn [handle feed_event]. rewrite run_bind. cbn [getw sew_get].
    destruct (decide (stream ∈ streams (speech w))) as [Hin|Hin];
      [rewrite bool_decide_eq_true_2 by done|rewrite bool_decide_eq_false_2 by done; by eexists _, []].
    destruct (on_recognize_abs d w Hw Hready) as (w' & o & -> & Ha).
    eexists _, _. split; [reflexivity|]. rewrite Ha. cbn [andb]. by destruct (_ && _).
Qed.

(** ** Concrete runs *)

Lemma feeder_refinement_witness :
  exists w' o, handle (ClientEmit 1 "startFeeding") w_ready_session = (inr tt, w', o) /\
    feed_abs w' = afeed_step 5000 AIdle (AStart 0).
Proof.
  destruct (feeder_refinement sample_config 0 w_ready_session (ClientEmit 1 "startFeeding"))
    as (w' & o & E & Ha).
  - apply (reachable_after _ _ ready_inputs). vm_compute. reflexivity.
  - vm_compute. by eexists.
  - exists w', o. split; [exact E|]. rewrite Ha. vm_compute. reflexivity.
Defined.
