(* ===== verification/Client.v ===== *)
(** * Client: the browser script (src/public/js/main.js)

    main.js keeps three pieces of page state: the [disabled] attribute of
    the two buttons, the [#events] list (each new entry prepended), and the
    highlighted [<img>] (replaced on each [image] message, the placeholder
    hidden).  Its socket handlers read the message fields as JS does: a
    field the message does not have is [undefined], rendered as the text
    "undefined", and [!undefined] is [true].  [client_recv] dispatches on
    the message tag like the [socket.on] registrations; a tag main.js does
    not listen to is ignored.  The buttons' click handlers emit the two
    commands, which are [System.ClientEmit] inputs of the server. *)

From Stdlib Require Import String ZArith.
From stdpp Require Import base list strings gmap.
From S2P Require Import Prelude Runtime Emitter Gpio Speech Camera Raspi Io System Invariant.

Open Scope string_scope.
Open Scope list_scope.

(** An [#events] entry: date, message, status. *)
Record event_item := mkItem { item_date : Z; item_message : string; item_status : string }.

(** The highlighted image: [src] base64 ([None] is [undefined]) and [alt] date. *)
Record image_item := mkImage { img_src : option string; img_alt : Z }.

Record client := mkClient {
  feeder_btn_disabled : bool;
  speech_btn_disabled : bool;
  events : list event_item;       (* newest first *)
  image : option image_item;
  placeholder_hidden : bool;
}.

(** Fields of a wire message as main.js reads them. *)
Definition body_date (b : wire_body) : Z :=
  match b with InfoBody d _ _ | EventBody d _ _ | ImageBody d _ _ _ => d end.

Definition body_message (b : wire_body) : string :=
  match b with EventBody _ m _ | ImageBody _ _ m _ => m | InfoBody _ _ _ => "undefined" end.

Definition body_status (b : wire_body) : string :=
  match b with EventBody _ _ s | ImageBody _ _ _ s => s | InfoBody _ _ _ => "undefined" end.

(** [!data.isFeedingPossible], [!data.isRecordingPossible] *)
Definition not_feeding_possible (b : wire_body) : bool :=
  match b with InfoBody _ f _ => negb f | _ => true end.
Definition not_recording_possible (b : wire_body) : bool :=
  match b with InfoBody _ _ r => negb r | _ => true end.

Definition body_cameraImage (b : wire_body) : option string :=
  match b with ImageBody _ img _ _ => img | _ => None end.

(** [addEvent({ date, message, status })] *)
Definition addEvent (it : event_item) (c : client) : client :=
  mkClient (feeder_btn_disabled c) (speech_btn_disabled c) (it :: events c) (image c) (placeholder_hidden c).

(** [socket.on("connect")], at the browser's clock [t]. *)
Definition on_connect (t : Z) (c : client) : client :=
  addEvent (mkItem t "Socket connected to server" "success") c.

(** [socket.on("info")] *)
Definition on_info (b : wire_body) (c : client) : client :=
  mkClient (not_feeding_possible b) (not_recording_possible b) (events c) (image c) (placeholder_hidden c).

(** [socket.on("image")]: hide the placeholder, remove the image, prepend the new one. *)
Definition on_image (b : wire_body) (c : client) : client :=
  mkClient (feeder_btn_disabled c) (speech_btn_disabled c) (events c)
    (Some (mkImage (body_cameraImage b) (body_date b))) true.

(** [socket.on(tag, (data) => addEvent({ ...data, date: new Date(data.date) }))] *)
Definition on_event (b : wire_body) (c : client) : client :=
  addEvent (mkItem (body_date b) (body_message b) (body_status b)) c.

Definition event_tags : list string :=
  ["feedingStarted"; "feedingStopped"; "speechRecordingStarted"; "speechRecordingStopped"].

(** One server message, dispatched on its tag. *)
Definition client_recv (c : client) (m : string * wire_body) : client :=
  let '(tag, b) := m in
  if String.eqb tag "info" then on_info b c
  else if String.eqb tag "image" then on_image b c
  else if bool_decide (tag ∈ event_tags) then on_event b c
  else c.

(** The messages of one server step, in order. *)
Definition client_run (c : client) (ms : list (string * wire_body)) : client :=
  fold_left client_recv ms c.

(** [$("#start-feeder-btn").click(...)] and [$("#start-speech-recording-btn").click(...)]:
    the command socket [sid] sends; a disabled button cannot be clicked. *)
Definition click_feeder (sid : nat) (c : client) : option input :=
  if feeder_btn_disabled c then None else Some (ClientEmit sid "startFeeding").
Definition click_speech (sid : nat) (c : client) : option input :=
  if speech_btn_disabled c then None else Some (ClientEmit sid "startSpeechRecording").

(** ** Messages a socket receives *)

Lemma client_run_app c ms1 ms2 : client_run c (ms1 ++ ms2) = client_run (client_run c ms1) ms2.
Proof. apply fold_left_app. Qed.

(** Effects that are not broadcasts reach no socket. *)
Definition quiet (e : effect) : Prop := match e with EBroadcast _ _ _ => False | _ => True end.

Lemma received_quiet sid o : Forall quiet o -> received sid o = [].
Proof. induction 1 as [|e o He _ IH]; [done|]. destruct e; try done. Qed.

(** [emitter.on] only ever warns. *)
Lemma on_quiet name l : emits_only quiet (on name l).
Proof. intros w. unfold on. sew_run. destruct (decide _); repeat constructor. Qed.

Lemma register_quiet L : emits_only quiet (for_each (fun nl => on nl.1 nl.2) L).
Proof. apply emits_only_for_each. intros nl _. apply on_quiet. Qed.

(** An event relay broadcasts the event, then the status. *)
Lemma relay_run em tag p w :
  @relay (raspi_api em) tag p w =
    (inr tt, w, [EBroadcast (sockets w) tag (EventBody (now (node w)) (p_message p) (p_status p));
                 EBroadcast (sockets w) "info" (InfoBody (now (node w)) (negb (feeding w)) (negb (recording w)))]).
Proof. reflexivity. Qed.

Lemma for_each_relay em tag p k w :
  for_each (fun l => @call_listener (raspi_api em) l p) (replicate k (RelayEvent tag)) w =
    (inr tt, w, concat (replicate k
      [EBroadcast (sockets w) tag (EventBody (now (node w)) (p_message p) (p_status p));
       EBroadcast (sockets w) "info" (InfoBody (now (node w)) (negb (feeding w)) (negb (recording w)))])).
Proof.
  induction k as [|k IH]; [reflexivity|]. cbn [replicate for_each].
  rewrite run_bind. cbn [call_listener]. rewrite relay_run. cbn iota beta. rewrite IH. reflexivity.
Qed.

(** ** The page the server's messages produce *)

(** C22. A new connection receives the status snapshot: after the
    [connection] handler, whatever the page showed before, the new
    client's start-feeder button is disabled exactly when the server is
    feeding and its speech button exactly when it is recording. *)
Theorem connect_snapshot sid addr w cl :
  sid ∉ sockets w ->
  exists w' o, handle (Connect sid addr) w = (inr tt, w', o) /\
    feeder_btn_disabled (client_run cl (received sid o)) = feeding w' /\
    speech_btn_disabled (client_run cl (received sid o)) = recording w'.
Proof.
  intros Hn. cbn [handle]. rewrite run_bind. cbn [getw sew_get]. rewrite decide_False by done.
  rewrite run_bind. cbn [sew_modify]. cbn iota beta.
  set (w1 := set_sockets (sockets w ++ [sid]) w).
  unfold onSocketConnected. rewrite run_bind. cbn [log sew_tell]. rewrite run_bind, updateInfo_run.
  cbn iota beta. pose proof (register_quiet io_listeners w1) as Hq.
  destruct (for_each_on_run io_listeners w1) as (ws & o & E). rewrite E in Hq |- *.
  eexists _, _. split; [reflexivity|]. unfold out_of in Hq. simpl in Hq.
  rewrite !received_app, (received_quiet _ o Hq). unfold received. cbn.
  rewrite decide_True by (subst w1; simpl; set_solver). cbn.
  by rewrite !negb_involutive.
Qed.

Lemma client_run_events k d m s b cl :
  events (client_run cl (concat (replicate k [(("feedingStarted" : string), EventBody d m s); (("info" : string), b)]))) =
    replicate k (mkItem d m s) ++ events cl.
Proof.
  revert cl. induction k as [|k IH]; intros cl; [done|]. cbn [replicate concat].
  rewrite client_run_app, IH. cbn. apply replicate_cons_comm.
Qed.

(** C23. io.js's listeners, never removed, make duplicates visible on every
    page: with [k] connections made so far (some may have closed), one
    [startFeeding] from idle adds [k] identical "Feeding started" entries
    to the event list of every connected client, not one. *)
Theorem feeding_event_per_connection w sid k s cl :
  registry (emitter w) = concat (replicate k io_listeners) ->
  servo_v (gpio w) = Some s -> feed_timer (gpio w) = None -> sid ∈ sockets w ->
  exists w' o, handle (ClientEmit sid "startFeeding") w = (inr tt, w', o) /\
    events (client_run cl (received sid o)) =
      replicate k (mkItem (now (node w)) "Feeding started" "success") ++ events cl.
Proof.
  intros Hr Hs Ht Hin. cbn [handle]. rewrite run_bind. cbn [getw sew_get].
  rewrite decide_True by done. cbn [String.eqb Ascii.eqb Bool.eqb].
  change (@on_startFeeding sys_raspi) with (startFeeder (sys_emit (S 1))).
  rewrite (startFeeder_run_idle _ w s Ht Hs), sys_emit_unfold, run_bind. cbn [getw sew_get].
  change (registry (emitter (opened w s))) with (registry (emitter w)). rewrite Hr, listeners_of_connections.
  change (listeners_of "feedingStarted" io_listeners) with [RelayEvent "feedingStarted"].
  rewrite concat_replicate_single, for_each_relay.
  eexists _, _. split; [reflexivity|].
  rewrite !received_app, received_pairs by done.
  rewrite (received_quiet sid [_; _]), (received_quiet sid []) by repeat constructor. cbn [app].
  apply client_run_events.
Qed.

(** ** Concrete runs *)

(** The page before any message: both buttons enabled, no event, no image. *)
Definition page0 : client := mkClient false false [] None false.

Lemma connect_snapshot_witness :
  exists w' o, handle (Connect 2 "10.0.0.3") w_feeding_session = (inr tt, w', o) /\
    feeder_btn_disabled (client_run page0 (received 2 o)) = feeding w' /\
    speech_btn_disabled (client_run page0 (received 2 o)) = recording w'.
Proof.
  apply connect_snapshot. apply (bool_decide_unpack _). vm_compute. reflexivity.
Defined.

(** Two connections made, the second closed; the board ready, idle. *)
Definition w_reconnected : world :=
  match fst (run (boot sample_config 0) [BoardReady; Connect 1 "10.0.0.2"; Connect 2 "10.0.0.3"; Disconnect 2]) with
  | Running w => w | Crashed _ w => w
  end.

Lemma feeding_event_per_connection_witness :
  exists w' o, handle (ClientEmit 1 "startFeeding") w_reconnected = (inr tt, w', o) /\
    events (client_run page0 (received 1 o)) =
      [mkItem 0 "Feeding started" "success"; mkItem 0 "Feeding started" "success"].
Proof.
  apply (feeding_event_per_connection w_reconnected 1 2 (mkServo "GPIO12" 0) page0).
  - vm_compute. reflexivity.
  - vm_compute. reflexivity.
  - vm_compute. reflexivity.
  - apply (bool_decide_unpack _). vm_compute. reflexivity.
Defined.
