(* ===== verification/Frames.v ===== *)
(** * Frames: the life of a timelapse file

    raspicam writes [image_%06d.jpg] into [raspi.camera.outputDirectory]
    ([FrameWritten]); its [read] event makes camera.js ask [fs.readFile]
    for it; the read's callback broadcasts the frame and asks [fs.unlink];
    the unlink's callback logs a failure.  Requests are numbered by the
    runtime's handle counter, and the file system answers them in any
    order ([FsComplete] / [FsFail]).  A successfully read frame is deleted
    once both answers arrive; a frame whose read fails is never deleted. *)

From Stdlib Require Import String ZArith Lia.
From stdpp Require Import base list strings gmap.
From S2P Require Import Prelude Runtime Emitter Gpio Speech Base64 Camera Raspi Io System Invariant.

Open Scope string_scope.
Open Scope list_scope.

(** The file of frame [f] in the camera's output directory. *)
Definition frame_path (w : world) (f : string) : string := path_join (camera_outputDirectory (cfg w)) f.

(** ** Requests with fresh handles *)

Lemma find_req_fresh r op (ps : list (nat * fs_op)) :
  Forall (fun p => p.1 < r) ps -> find_req r (ps ++ [(r, op)]) = Some op.
Proof.
  induction 1 as [|[r' op'] ps Hr _ IH]; cbn; [by rewrite decide_True|].
  rewrite decide_False by (simpl in Hr; lia). exact IH.
Qed.

Lemma drop_fresh r op (ps : list (nat * fs_op)) :
  Forall (fun p => p.1 < r) ps -> filter (fun p => p.1 ≠ r) (ps ++ [(r, op)]) = ps.
Proof.
  induction 1 as [|[r' op'] ps Hr _ IH].
  - cbn [app]. by rewrite filter_cons_False by (simpl; auto).
  - simpl in Hr. rewrite <- app_comm_cons, filter_cons_True by (simpl; lia). by rewrite IH.
Qed.

(** ** The three steps *)

Lemma camera_read_run w f :
  camera_started w = true ->
  handle (CameraRead f) w = (inr tt, with_request (ReadOp (frame_path w f)) w, [EFsRead (next_id (node w)) (frame_path w f)]).
Proof. intros Hc. cbn [handle]. rewrite run_bind. cbn [getw sew_get]. rewrite Hc. reflexivity. Qed.

(** The read succeeds: [frameLoaded] goes to the relays, then the unlink
    request takes the next handle. *)
Lemma read_complete_run w path data :
  sys_inv w -> files (node w) !! path = Some data ->
  exists o, handle (FsComplete (next_id (node w))) (with_request (ReadOp path) w) =
    (inr tt, with_request (UnlinkOp path) (set_node (drop_req (next_id (node w)) (node (with_request (ReadOp path) w)))
                                           (with_request (ReadOp path) w)), o).
Proof.
  intros Hw Hf. set (w1 := with_request (ReadOp path) w).
  cbn [handle]. unfold fs_complete. rewrite run_bind. cbn [getw sew_get].
  change (fs_pending (node w1)) with (fs_pending (node w) ++ [(next_id (node w), ReadOp path)]).
  rewrite find_req_fresh by apply (inv_fs w Hw). rewrite run_bind. cbn [sew_modify]. cbn iota beta.
  set (w2 := set_node (drop_req (next_id (node w)) (node w1)) w1).
  change (files (node w1)) with (files (node w)). rewrite Hf. cbn [on_readFile]. rewrite run_bind.
  unfold emit_depth. destruct (relays_run 1 "frameLoaded" (mkPayload (Some (b64_encode data)) "New frame received" "success") w2)
    as [o ->]; [exact (inv_registry w Hw)|done|].
  rewrite fs_unlink_run. by eexists.
Qed.

(** The unlink succeeds: the file is deleted. *)
Lemma unlink_complete_run w path data :
  Forall (fun p => p.1 < next_id (node w)) (fs_pending (node w)) -> files (node w) !! path = Some data ->
  handle (FsComplete (next_id (node w))) (with_request (UnlinkOp path) w) =
    (inr tt, set_node (delete_file path (drop_req (next_id (node w)) (node (with_request (UnlinkOp path) w))))
               (with_request (UnlinkOp path) w), []).
Proof.
  intros Hp Hf. cbn [handle]. unfold fs_complete. rewrite run_bind. cbn [getw sew_get].
  change (fs_pending (node (with_request (UnlinkOp path) w))) with (fs_pending (node w) ++ [(next_id (node w), UnlinkOp path)]).
  rewrite find_req_fresh by exact Hp. cbn. rewrite Hf. reflexivity.
Qed.

(** ** The lifecycle *)

(** C24. A frame is deleted once read: in every reachable state with the
    timelapse running and frame [f]'s file on disk, the camera's [read]
    event for [f], a successful answer to its [fs.readFile] and then to
    the [fs.unlink] it triggers leave the process running, the file gone
    from the camera directory and no request pending that was not before. *)
Theorem frame_deleted c t0 w f data :
  reachable c t0 (Running w) -> camera_started w = true -> files (node w) !! frame_path w f = Some data ->
  exists w' o,
    run (Running w) [CameraRead f; FsComplete (next_id (node w)); FsComplete (S (next_id (node w)))] = (Running w', o) /\
    files (node w') !! frame_path w f = None /\ fs_pending (node w') = fs_pending (node w).
Proof.
  intros Hr Hc Hf. pose proof (reachable_running_inv c t0 (Running w) Hr) as Hw. simpl in Hw.
  destruct (read_complete_run w (frame_path w f) data Hw Hf) as [o2 E2].
  cbn [run step]. rewrite camera_read_run by done. cbn [step]. rewrite E2. cbn [step].
  set (w2 := set_node (drop_req (next_id (node w)) (node (with_request (ReadOp (frame_path w f)) w)))
                      (with_request (ReadOp (frame_path w f)) w)).
  assert (Hp2 : fs_pending (node w2) = fs_pending (node w)) by apply (drop_fresh _ _ _ (inv_fs w Hw)).
  assert (Hfresh : Forall (fun q => q.1 < next_id (node w2)) (fs_pending (node w2))).
  { rewrite Hp2. eapply Forall_impl; [apply (inv_fs w Hw)|]. simpl. lia. }
  change (S (next_id (node w))) with (next_id (node w2)).
  rewrite (unlink_complete_run w2 (frame_path w f) data Hfresh Hf).
  cbn [step]. eexists _, _. split; [reflexivity|]. split.
  - cbn [set_node node delete_file files]. apply lookup_delete_eq.
  - change (filter (fun q => q.1 ≠ next_id (node w2)) (fs_pending (node w2) ++ [(next_id (node w2), UnlinkOp (frame_path w f))]) =
              fs_pending (node w)).
    by rewrite drop_fresh.
Qed.

(** C25. A frame whose read fails is never deleted: after the camera's
    [read] event for [f] and a failed answer to its [fs.readFile], the
    process is running, the file is still there, no request is pending
    that was not before, and the only effect was the read request: no
    frame was broadcast and no [fs.unlink] requested. *)
Theorem failed_read_keeps_frame c t0 w f data :
  reachable c t0 (Running w) -> camera_started w = true -> files (node w) !! frame_path w f = Some data ->
  exists w', run (Running w) [CameraRead f; FsFail (next_id (node w))] =
    (Running w', [EFsRead (next_id (node w)) (frame_path w f)]) /\
    files (node w') !! frame_path w f = Some data /\ fs_pending (node w') = fs_pending (node w).
Proof.
  intros Hr Hc Hf. pose proof (reachable_running_inv c t0 (Running w) Hr) as Hw. simpl in Hw.
  cbn [run step]. rewrite camera_read_run by done. cbn [step handle]. unfold fs_complete.
  rewrite run_bind. cbn [getw sew_get].
  change (fs_pending (node (with_request (ReadOp (frame_path w f)) w)))
    with (fs_pending (node w) ++ [(next_id (node w), ReadOp (frame_path w f))]).
  rewrite find_req_fresh by apply (inv_fs w Hw).
  eexists. split; [reflexivity|]. split; [exact Hf|].
  apply (drop_fresh _ _ _ (inv_fs w Hw)).
Qed.

(** ** Concrete runs *)

(** raspicam has written its first frame. *)
Definition w_frame : world :=
  match fst (run (boot sample_config 0) [FrameWritten "image_000001.jpg" [Byte.x41; Byte.x42]]) with
  | Running w => w | Crashed _ w => w
  end.

Lemma frame_deleted_witness :
  exists w' o,
    run (Running w_frame) [CameraRead "image_000001.jpg"; FsComplete 0; FsComplete 1] = (Running w', o) /\
    files (node w') !! "/home/pi/images/image_000001.jpg" = None /\ fs_pending (node w') = [].
Proof.
  apply (frame_deleted sample_config 0 w_frame "image_000001.jpg" [Byte.x41; Byte.x42]).
  - apply (reachable_after _ _ [FrameWritten "image_000001.jpg" [Byte.x41; Byte.x42]]). vm_compute. reflexivity.
  - vm_compute. reflexivity.
  - vm_compute. reflexivity.
Defined.

Lemma failed_read_keeps_frame_witness :
  exists w', run (Running w_frame) [CameraRead "image_000001.jpg"; FsFail 0] =
    (Running w', [EFsRead 0 "/home/pi/images/image_000001.jpg"]) /\
    files (node w') !! "/home/pi/images/image_000001.jpg" = Some [Byte.x41; Byte.x42] /\ fs_pending (node w') = [].
Proof.
  apply (failed_read_keeps_frame sample_config 0 w_frame "image_000001.jpg" [Byte.x41; Byte.x42]).
  - apply (reachable_after _ _ [FrameWritten "image_000001.jpg" [Byte.x41; Byte.x42]]). vm_compute. reflexivity.
  - vm_compute. reflexivity.
  - vm_compute. reflexivity.
Defined.
