(* ===== verification/Http.v ===== *)
(** * Http: the Express application of app.js and the router of routes/index.js

    app.js builds one Express application: a stack of layers, each a
    mount path and a middleware, that Express's router walks for every
    request, calling [next()] to go on, [next(err)] to switch to the
    error-handling layers (those of arity 4), or answering.  A request no
    layer answers falls to Express's [finalhandler].  The library
    middlewares (morgan, compression, helmet, cookie-parser, body-parser's
    [json]/[urlencoded], serve-static) are modelled by what they do to the
    dispatch: pass on, fail with an HTTP error, or answer; headers,
    compression and the bytes of a body are not modelled.

    A request is its method, its decoded path (query string stripped) and
    its body as body-parser sees it (media type, length, and the parser's
    complaint about the content, if any).  [res.locals] is a [gmap]. *)

From Stdlib Require Import String Ascii ZArith.
From stdpp Require Import base list gmap strings.
From S2P Require Import Prelude JsString.

Open Scope list_scope.
Open Scope Z_scope.
Open Scope string_scope.

(** ** Requests, errors, responses *)

(** The body of a request: [NoBody] when [type-is]'s [hasBody] is false;
    otherwise the media type of [Content-Type] (parameters stripped,
    lower case), the length in bytes, and [Some msg] when the parser of
    that type rejects the content ([JSON.parse]'s message, or
    [too many parameters] for a urlencoded form). *)
Inductive body_info :=
| NoBody
| Body (media_type : string) (length : Z) (rejected : option string).

Record request := mkRequest {
  req_method : string;
  req_path : string;
  req_body : body_info;
}.

(** An [Error] object as the error handler reads it: [err.status]
    ([undefined] is [None]) and [err.message]. *)
Record http_error := mkHttpError {
  e_status : option Z;
  e_message : string;
}.

(** [httpErrors(404)] *)
Definition not_found : http_error := mkHttpError (Some 404) "Not Found".

(** Values stored in [res.locals]: a string, an error object, or [{}]. *)
Inductive local := LStr (s : string) | LErr (e : http_error) | LEmpty.

(** The response under construction: [res.statusCode] and [res.locals]. *)
Record res_state := mkRes {
  res_status : Z;
  res_locals : gmap string local;
}.

Definition init_res : res_state := mkRes 200 ∅.

Definition set_local (k : string) (v : local) (r : res_state) : res_state :=
  mkRes (res_status r) (<[k := v]> (res_locals r)).

(** The roots given to [express.static] in app.js, lines 86 and 89-93. *)
Inductive static_root := PublicDir | JqueryDist | MuicssDist | SocketIoDist.

#[export] Instance static_root_eq_dec : EqDecision static_root.
Proof. solve_decision. Qed.

(** What the response carries: a rendered view, a file of a static root,
    a 301 redirect, the [Allow] list of an automatic OPTIONS answer. *)
Inductive sent :=
| Render (view : string)
| SendFile (root : static_root) (file : string)
| Redirect (location : string)
| SendAllow (methods : string).

Record response := mkResponse {
  r_status : Z;
  r_locals : gmap string local;
  r_sent : sent;
}.

(** The end of a dispatch: a layer of the app answered, or the stack ran
    out and Express's [finalhandler] answers with the pending error. *)
Inductive result :=
| Answered (r : response)
| Unhandled (err : option http_error) (res : res_state).

(** ** What the app reads from its environment *)
Record app_conf := mkAppConf {
  app_description : option string;  (** [config.get("app.description")] *)
  app_name : option string;         (** [config.get("app.name")] *)
  app_version : option string;      (** [config.get("app.version")] *)
  node_env : option string;         (** [process.env.NODE_ENV] *)
  root_files : static_root -> list string;  (** files under each root, relative *)
}.

(** [app.get("env")]: [process.env.NODE_ENV || "development"]. *)
Definition app_env (c : app_conf) : string :=
  match node_env c with
  | Some e => if String.eqb e "" then "development" else e
  | None => "development"
  end.

(** ** Paths *)

(** The segments of a path split on ["/"]. *)
Fixpoint segments (l : list ascii) : list (list ascii) :=
  match l with
  | [] => [[]]
  | c :: l' =>
      let r := segments l' in
      if ascii_dec c "/" then [] :: r
      else match r with x :: r' => (c :: x) :: r' | [] => [[c]] end
  end.

Fixpoint join_slash (l : list (list ascii)) : list ascii :=
  match l with
  | [] => []
  | [x] => x
  | x :: l' => (x ++ "/"%char :: join_slash l')%list
  end.

Definition is_dot (x : list ascii) : bool :=
  match x with ["."%char] => true | _ => false end.

Definition is_dotdot (x : list ascii) : bool :=
  match x with ["."%char; "."%char] => true | _ => false end.

(** [containsDotFile] of send: a part longer than one character that
    starts with ["."]. *)
Definition is_dotfile (x : list ascii) : bool :=
  match x with "."%char :: _ :: _ => true | _ => false end.

(** The parts of the root-relative path after [path.normalize]: empty
    parts and ["."] parts vanish.  send refuses a path with a [".."]
    part before normalizing (its [UP_PATH_REGEXP] also takes ["\"] as a
    separator, which matters only for file names holding a backslash). *)
Definition norm_parts (p : string) : list (list ascii) :=
  filter (fun x => negb (bool_decide (x = []) || is_dot x)) (segments (list_ascii_of_string p)).

Definition ends_with_slash (p : string) : bool :=
  match last (list_ascii_of_string p) with Some c => bool_decide (c = "/"%char) | None => false end.

(** [(?:^|/)\.\.(?:/|$)] of send, on ["/"]-separated parts. *)
Definition has_up_path (p : string) : bool :=
  existsb is_dotdot (segments (list_ascii_of_string p)).

(** A directory of a root: the root itself, or a proper prefix of a file. *)
Definition is_dir (files : list string) (key : string) : bool :=
  String.eqb key "" || existsb (String.prefix (key ++ "/")) files.

Definition dq : string := String (ascii_of_nat 34) EmptyString.

(** The error [config.get] throws for a missing key. *)
Definition cfg_error (key : string) : http_error :=
  mkHttpError None ("Configuration property " ++ dq ++ key ++ dq ++ " is not defined").

(** [err.status || 500] *)
Definition status_or_500 (s : option Z) : Z :=
  match s with Some z => if Z.eqb z 0 then 500 else z | None => 500 end.

Definition is_get_or_head (m : string) : bool :=
  String.eqb m "GET" || String.eqb m "HEAD".

(** ** Middlewares, as they end: [next()], [next(err)] (with the locals
    set before the error), or an answer. *)
Inductive outcome :=
| ONext (res : res_state)
| OErr (e : http_error) (res : res_state)
| OSend (r : response).

Definition answer (res : res_state) (s : sent) : outcome :=
  OSend (mkResponse (res_status res) (res_locals res) s).

(** Layer matching of [app.use(mount, fn)] ([end: false], case
    insensitive): the path the middleware sees ([req.url] with the mount
    trimmed, ["/"] when nothing is left), or [None]. *)
Definition mount_match (mount path : string) : option string :=
  if String.eqb mount "/" then Some path
  else let lp := js_toLowerCase path in
  if String.eqb lp mount || String.eqb lp (mount ++ "/") then Some "/"
  else if String.prefix (mount ++ "/") lp
  then Some (substring (String.length mount) (String.length path - String.length mount)%nat path)
  else None.

(** [express.static(root)] (serve-static with [fallthrough]: whatever
    send refuses with a status below 500 goes to [next()]).  [p] is the
    path under the mount. *)
Definition serve_static (c : app_conf) (root : static_root) (req : request)
    (p : string) (res : res_state) : outcome :=
  if negb (is_get_or_head (req_method req)) then ONext res else
  let p := if String.eqb p "/" && negb (ends_with_slash (req_path req)) then "" else p in
  if has_up_path p then ONext res else
  let parts := norm_parts p in
  if existsb is_dotfile parts then ONext res else
  let key := string_of_list_ascii (join_slash parts) in
  let files := root_files c root in
  if ends_with_slash p then
    let idx := if String.eqb key "" then "index.html" else key ++ "/index.html" in
    if bool_decide (idx ∈ files) then answer res (SendFile root idx) else ONext res
  else if bool_decide (key ∈ files) then answer res (SendFile root key)
  else if is_dir files key
  then OSend (mkResponse 301 (res_locals res) (Redirect (req_path req ++ "/")))
  else ONext res.

(** body-parser's [limit] default, ["100kb"]. *)
Definition body_limit : Z := 102400.

(** [express.json()] / [express.urlencoded()]: a parser for media type
    [ty] whose rejections have status [rejected_status]. *)
Definition parse_body (ty : string) (rejected_status : Z) (req : request)
    (res : res_state) : outcome :=
  match req_body req with
  | Body t len rej =>
      if negb (String.eqb t ty) then ONext res
      else if Z.ltb body_limit len
      then OErr (mkHttpError (Some 413) "request entity too large") res
      else if Z.eqb len 0 then ONext res
      else match rej with
           | Some m => OErr (mkHttpError (Some rejected_status) m) res
           | None => ONext res
           end
  | NoBody => ONext res
  end.

(** app.js lines 96-101: the three [config.get] calls, each of which
    throws for a missing key after the earlier assignments took effect. *)
Definition set_app_locals (c : app_conf) (res : res_state) : outcome :=
  match app_description c with
  | None => OErr (cfg_error "app.description") res
  | Some d =>
    let res := set_local "appDescription" (LStr d) res in
    match app_name c with
    | None => OErr (cfg_error "app.name") res
    | Some n =>
      let res := set_local "appName" (LStr n) res in
      match app_version c with
      | None => OErr (cfg_error "app.version") res
      | Some v => ONext (set_local "appVersion" (LStr v) res)
      end
    end
  end.

(** routes/index.js: [router.get("/", ...)] renders [index]; the route
    also answers HEAD, and Express's router answers OPTIONS on a matched
    path with the route's methods. *)
Definition router_handle (req : request) (p : string) (res : res_state) : outcome :=
  if String.eqb p "/" then
    if is_get_or_head (req_method req) then answer res (Render "index")
    else if String.eqb (req_method req) "OPTIONS" then answer res (SendAllow "GET,HEAD")
    else ONext res
  else ONext res.

(** [req.app.get("env") === "development" ? err : {}] *)
Definition error_local (c : app_conf) (err : http_error) : local :=
  if String.eqb (app_env c) "development" then LErr err else LEmpty.

(** app.js lines 113-121, the error handler. *)
Definition error_handler (c : app_conf) (err : http_error) (res : res_state) : response :=
  let res := set_local "message" (LStr (e_message err)) res in
  let res := set_local "error" (error_local c err) res in
  mkResponse (status_or_500 (e_status err)) (res_locals res) (Render "error").

(** ** The application: app.js lines 77-121 *)

Inductive middleware :=
| Morgan            (** [morgan("short", ...)]: logs when the response ends *)
| Compression       (** [compression()] *)
| Helmet            (** [helmet()] *)
| CookieParser      (** [cookieParser()] *)
| JsonParser        (** [express.json()] *)
| UrlencodedParser  (** [express.urlencoded({ extended: false })] *)
| Static (root : static_root)  (** [express.static(...)] *)
| AppLocals         (** the locals middleware, lines 96-101 *)
| Routes            (** [require("./routes")] *)
| CatchNotFound     (** [next(httpErrors(404))], lines 107-109 *)
| ErrorHandler.     (** [(err, req, res, next) => ...], lines 113-121 *)

Record layer := mkLayer { l_mount : string; l_mw : middleware }.

(** The layers in the order of the [app.use] calls; the array given to
    [app.use("/vendor", [...])] becomes three layers on that mount. *)
Definition app_stack : list layer :=
  [mkLayer "/" Morgan; mkLayer "/" Compression; mkLayer "/" Helmet;
   mkLayer "/" CookieParser; mkLayer "/" JsonParser; mkLayer "/" UrlencodedParser;
   mkLayer "/" (Static PublicDir);
   mkLayer "/vendor" (Static JqueryDist); mkLayer "/vendor" (Static MuicssDist);
   mkLayer "/vendor" (Static SocketIoDist);
   mkLayer "/" AppLocals; mkLayer "/" Routes; mkLayer "/" CatchNotFound;
   mkLayer "/" ErrorHandler].

(** A non-error middleware run on the request, [p] the path under its mount. *)
Definition run_mw (c : app_conf) (mw : middleware) (req : request) (p : string)
    (res : res_state) : outcome :=
  match mw with
  | Morgan | Compression | Helmet | CookieParser => ONext res
  | JsonParser => parse_body "application/json" 400 req res
  | UrlencodedParser => parse_body "application/x-www-form-urlencoded" 413 req res
  | Static root => serve_static c root req p res
  | AppLocals => set_app_locals c res
  | Routes => router_handle req p res
  | CatchNotFound => OErr not_found res
  | ErrorHandler => ONext res
  end.

(** Express's [next]: a layer whose mount does not match is skipped; with
    an error pending only error handlers run, without one only the others. *)
Fixpoint dispatch (c : app_conf) (stack : list layer) (req : request)
    (err : option http_error) (res : res_state) : result :=
  match stack with
  | [] => Unhandled err res
  | l :: rest =>
    match mount_match (l_mount l) (req_path req) with
    | None => dispatch c rest req err res
    | Some p =>
      match err, l_mw l with
      | Some e, ErrorHandler => Answered (error_handler c e res)
      | Some _, _ => dispatch c rest req err res
      | None, ErrorHandler => dispatch c rest req err res
      | None, mw =>
        match run_mw c mw req p res with
        | ONext res' => dispatch c rest req None res'
        | OErr e res' => dispatch c rest req (Some e) res'
        | OSend r => Answered r
        end
      end
    end
  end.

(** The status [finalhandler] answers with: the error's 4xx/5xx status,
    else 500; 404 without an error. *)
Definition final_status (err : option http_error) : Z :=
  match err with
  | None => 404
  | Some e => match e_status e with
              | Some s => if Z.leb 400 s && Z.ltb s 600 then s else 500
              | None => 500
              end
  end.

Definition result_status (r : result) : Z :=
  match r with Answered x => r_status x | Unhandled err _ => final_status err end.

(** The line morgan writes to [logger.stream] when the response ends
    (its method, URL and status fields). *)
Record access_log := mkAccess { a_method : string; a_url : string; a_status : Z }.

(** [app(req, res)]: the dispatch from a fresh response, and morgan's line. *)
Definition app_handle (c : app_conf) (req : request) : result * access_log :=
  let r := dispatch c app_stack req None init_res in
  (r, mkAccess (req_method req) (req_path req) (result_status r)).

(** ** Paths: splitting and joining *)

Local Open Scope list_scope.














(** ** Dispatch *)

Definition catch_all : list layer :=
  [mkLayer "/" CatchNotFound; mkLayer "/" ErrorHandler].



Section Dispatch.
Context (c : app_conf) (req : request).




(** A layer that passes the request on, at any path, can be dropped. *)
Lemma dispatch_pass l rest res :
  l_mw l <> ErrorHandler ->
  (forall p, run_mw c (l_mw l) req p res = ONext res) ->
  dispatch c (l :: rest) req None res = dispatch c rest req None res.
Proof.
  cbn [dispatch]. destruct (mount_match _ _) as [p|]; [|done].
  destruct (l_mw l); intros Hne Hp; try done; by rewrite Hp.
Qed.

(** With an error pending, a layer other than the error handler is skipped. *)
Lemma dispatch_err_skip l rest e res :
  l_mw l <> ErrorHandler ->
  dispatch c (l :: rest) req (Some e) res = dispatch c rest req (Some e) res.
Proof.
  simpl. destruct (mount_match _ _); [|done]. by destruct (l_mw l).
Qed.

End Dispatch.

Section Layers.
Context (c : app_conf) (req : request).

(** A layer mounted at ["/"] always runs, on the whole path. *)
Lemma dispatch_root mw rest res :
  mw <> ErrorHandler ->
  dispatch c (mkLayer "/" mw :: rest) req None res =
  match run_mw c mw req (req_path req) res with
  | ONext res' => dispatch c rest req None res'
  | OErr e res' => dispatch c rest req (Some e) res'
  | OSend r => Answered r
  end.
Proof. cbn [dispatch]. simpl. by destruct mw. Qed.

Lemma parse_body_nobody ty s res : req_body req = NoBody -> parse_body ty s req res = ONext res.
Proof. unfold parse_body. by intros ->. Qed.

Lemma static_non_get root p res :
  is_get_or_head (req_method req) = false -> serve_static c root req p res = ONext res.
Proof. unfold serve_static. by intros ->. Qed.

(** serve-static at ["/"] of a root without [index.html] passes on. *)
Lemma static_root_miss root res :
  req_path req = "/" -> "index.html" ∉ root_files c root ->
  serve_static c root req "/" res = ONext res.
Proof.
  intros Hp Hi. unfold serve_static. rewrite Hp. simpl.
  destruct (is_get_or_head _); [|done]. simpl.
  by rewrite bool_decide_eq_false_2.
Qed.

Lemma router_pass p res :
  is_get_or_head (req_method req) = false -> req_method req <> "OPTIONS" \/ p <> "/" ->
  router_handle req p res = ONext res.
Proof.
  unfold router_handle. intros -> Hm.
  destruct (String.eqb_spec p "/"), (String.eqb_spec (req_method req) "OPTIONS"); naive_solver.
Qed.

Lemma catch_all_none res :
  dispatch c catch_all req None res = Answered (error_handler c not_found res).
Proof. reflexivity. Qed.


End Layers.

(** The first five layers of app.js pass a bodiless request on. *)
Ltac pass_layers :=
  rewrite dispatch_pass; [| discriminate
                          | intros; cbn [run_mw l_mw]; auto using parse_body_nobody, static_non_get].



Section Status.
Context (c : app_conf) (req : request).




End Status.

(** ** Properties of the application *)

(** C27. [GET /] (or [HEAD /]) on a configured app whose public
    directory has no [index.html] renders the [index] view with status 200
    and exactly the three locals [appDescription], [appName] and
    [appVersion] from the configuration; morgan logs status 200. *)
Theorem get_root_renders_index c m d n v :
  m = "GET" \/ m = "HEAD" ->
  app_description c = Some d -> app_name c = Some n -> app_version c = Some v ->
  "index.html" ∉ root_files c PublicDir ->
  app_handle c (mkRequest m "/" NoBody) =
    (Answered (mkResponse 200
       (<["appVersion" := LStr v]> (<["appName" := LStr n]> (<["appDescription" := LStr d]> ∅)))
       (Render "index")),
     mkAccess m "/" 200).
Proof.
  intros Hm Hd Hn Hv Hi. unfold app_handle. simpl.
  rewrite static_root_miss by done. simpl. unfold set_app_locals. rewrite Hd, Hn, Hv.
  destruct Hm as [-> | ->]; reflexivity.
Qed.

(** C28. A bodiless request that is neither GET nor HEAD, and not
    OPTIONS on ["/"], is answered by the 404 layer and the error handler:
    status 404, the [error] view, the app locals plus [message] ["Not
    Found"] and [error] (the error object in development, [{}] otherwise). *)
Theorem unmatched_not_found c req d n v :
  req_body req = NoBody -> is_get_or_head (req_method req) = false ->
  req_method req <> "OPTIONS" \/ req_path req <> "/" ->
  app_description c = Some d -> app_name c = Some n -> app_version c = Some v ->
  app_handle c req =
    (Answered (mkResponse 404
       (<["error" := error_local c not_found]> (<["message" := LStr "Not Found"]>
         (<["appVersion" := LStr v]> (<["appName" := LStr n]> (<["appDescription" := LStr d]> ∅)))))
       (Render "error")),
     mkAccess (req_method req) (req_path req) 404).
Proof.
  intros Hb Hm Ho Hd Hn Hv. unfold app_handle, app_stack.
  do 10 pass_layers.
  rewrite dispatch_root by discriminate. cbn [run_mw]. unfold set_app_locals. rewrite Hd, Hn, Hv.
  rewrite dispatch_root by discriminate. cbn [run_mw]. rewrite router_pass by done.
  rewrite catch_all_none. reflexivity.
Qed.

(** C29. A JSON body that [JSON.parse] rejects, within the size limit,
    gets the error page with status 400 and the parser's message, for any
    method and path, and without the app locals: the body parsers run
    before the locals middleware of lines 96-101. *)
Theorem malformed_json_error_page c req len msg :
  req_body req = Body "application/json" len (Some msg) -> 0 < len <= body_limit ->
  app_handle c req =
    (Answered (mkResponse 400
       (<["error" := error_local c (mkHttpError (Some 400) msg)]> (<["message" := LStr msg]> ∅))
       (Render "error")),
     mkAccess (req_method req) (req_path req) 400).
Proof.
  intros Hb Hl. unfold app_handle.
  change app_stack with (take 5 app_stack ++ drop 5 app_stack)%list. cbn [take app_stack app].
  do 4 (rewrite dispatch_root by discriminate; cbn [run_mw]).
  rewrite dispatch_root by discriminate. cbn [run_mw]. unfold parse_body. rewrite Hb. simpl.
  destruct (Z.ltb_spec body_limit len); [lia|]. destruct (Z.eqb_spec len 0); [lia|].
  destruct (mount_match "/vendor" (req_path req)); vm_compute; reflexivity.
Qed.

(** C30. When [app.name] is missing from the configuration, [config.get]
    throws inside the locals middleware after [appDescription] was set;
    the error has no [status], so [err.status || 500] answers 500, and the
    error page keeps the partial locals. *)
Theorem missing_app_name_500 c m d :
  m = "GET" \/ m = "HEAD" ->
  app_description c = Some d -> app_name c = None ->
  "index.html" ∉ root_files c PublicDir ->
  app_handle c (mkRequest m "/" NoBody) =
    (Answered (mkResponse 500
       (<["error" := error_local c (cfg_error "app.name")]>
         (<["message" := LStr (e_message (cfg_error "app.name"))]>
           (<["appDescription" := LStr d]> ∅)))
       (Render "error")),
     mkAccess m "/" 500).
Proof.
  intros Hm Hd Hn Hi. unfold app_handle. simpl.
  rewrite static_root_miss by done. simpl. unfold set_app_locals. rewrite Hd, Hn.
  destruct Hm as [-> | ->]; vm_compute; reflexivity.
Qed.



(** ** Concrete runs *)

(** The repository's public directory and sample vendor files. *)
Definition c_repo : app_conf :=
  mkAppConf (Some "Raspberry Pi pet feeder") (Some "node-rpi-feeder") (Some "1.0.0") None
    (fun r => match r with
              | PublicDir => ["js/main.js"]
              | JqueryDist => ["jquery.js"; "jquery.min.js"]
              | MuicssDist => ["css/mui.css"; "js/mui.js"]
              | SocketIoDist => ["socket.io.js"]
              end).

Definition c_no_name : app_conf :=
  mkAppConf (Some "Raspberry Pi pet feeder") None (Some "1.0.0") (Some "production") (root_files c_repo).

Lemma get_root_renders_index_witness :
  app_handle c_repo (mkRequest "HEAD" "/" NoBody) =
    (Answered (mkResponse 200
       (<["appVersion" := LStr "1.0.0"]> (<["appName" := LStr "node-rpi-feeder"]>
         (<["appDescription" := LStr "Raspberry Pi pet feeder"]> ∅)))
       (Render "index")),
     mkAccess "HEAD" "/" 200).
Proof.
  apply get_root_renders_index; [right; reflexivity|reflexivity|reflexivity|reflexivity|].
  apply (bool_decide_eq_false_1 _). vm_compute. reflexivity.
Defined.

Lemma unmatched_not_found_witness :
  app_handle c_repo (mkRequest "POST" "/feed" NoBody) =
    (Answered (mkResponse 404
       (<["error" := error_local c_repo not_found]> (<["message" := LStr "Not Found"]>
         (<["appVersion" := LStr "1.0.0"]> (<["appName" := LStr "node-rpi-feeder"]>
           (<["appDescription" := LStr "Raspberry Pi pet feeder"]> ∅)))))
       (Render "error")),
     mkAccess "POST" "/feed" 404).
Proof.
  apply (unmatched_not_found c_repo (mkRequest "POST" "/feed" NoBody));
    try reflexivity. right. discriminate.
Defined.

Lemma malformed_json_error_page_witness :
  app_handle c_repo (mkRequest "POST" "/" (Body "application/json" 5 (Some "Unexpected token } in JSON at position 4"))) =
    (Answered (mkResponse 400
       (<["error" := error_local c_repo (mkHttpError (Some 400) "Unexpected token } in JSON at position 4")]>
         (<["message" := LStr "Unexpected token } in JSON at position 4"]> ∅))
       (Render "error")),
     mkAccess "POST" "/" 400).
Proof.
  apply (malformed_json_error_page c_repo
           (mkRequest "POST" "/" (Body "application/json" 5 (Some "Unexpected token } in JSON at position 4")))
           5); [reflexivity|unfold body_limit; lia].
Defined.

Lemma missing_app_name_500_witness :
  app_handle c_no_name (mkRequest "GET" "/" NoBody) =
    (Answered (mkResponse 500
       (<["error" := LEmpty]>
         (<["message" := LStr (e_message (cfg_error "app.name"))]>
           (<["appDescription" := LStr "Raspberry Pi pet feeder"]> ∅)))
       (Render "error")),
     mkAccess "GET" "/" 500).
Proof.
  apply (missing_app_name_500 c_no_name "GET"); [left; reflexivity|reflexivity|reflexivity|].
  apply (bool_decide_eq_false_1 _). vm_compute. reflexivity.
Defined.


Example static_redirects_directory :
  fst (app_handle c_repo (mkRequest "GET" "/vendor" NoBody)) =
    Answered (mkResponse 301 ∅ (Redirect "/vendor/")).
Proof. vm_compute. reflexivity. Qed.

Example static_refuses_up_path :
  r_status (match fst (app_handle c_repo (mkRequest "GET" "/js/../js/main.js" NoBody)) with
            | Answered r => r | Unhandled _ _ => mkResponse 0 ∅ (Render "") end) = 404.
Proof. vm_compute. reflexivity. Qed.

Example options_root_allow :
  fst (app_handle c_repo (mkRequest "OPTIONS" "/" NoBody)) =
    Answered (mkResponse 200
       (<["appVersion" := LStr "1.0.0"]> (<["appName" := LStr "node-rpi-feeder"]>
         (<["appDescription" := LStr "Raspberry Pi pet feeder"]> ∅)))
       (SendAllow "GET,HEAD")).
Proof. vm_compute. reflexivity. Qed.
